(** * Time Convert: a shallow embedding of [src/lib/timezone.ts] and
    [src/lib/parser.ts], and the properties of the parsing / zone core.

    Layout:
    - [JS]       the pieces of the JavaScript runtime the program relies on
                 (strings of UTF-16 code units, integer Numbers with NaN,
                 the Date arithmetic of ECMA-262);
    - [Regex]    a backtracking matcher with capture groups, in which every
                 regular expression of the source is transcribed literally;
    - [Timezone] the functions of [timezone.ts];
    - [Parser]   the functions of [parser.ts];
    - the lemmas and the theorems about them. *)

From Stdlib Require Import String Ascii.
From Stdlib Require Import ZArith List Bool Lia.
Import ListNotations.
Local Open Scope Z_scope.

(* ================================================================== *)
(** ** The JavaScript runtime *)
(* ================================================================== *)

Module JS.

(** A JavaScript string is a sequence of UTF-16 code units; [length],
    indices, [slice] and regular expressions without the [u] flag all count
    code units. *)
Definition str := list Z.

(** ASCII literals of the source text. *)
Definition js (s : string) : str :=
  map (fun a => Z.of_N (N_of_ascii a)) (list_ascii_of_string s).
Arguments js s%_string.

Definition len (s : str) : Z := Z.of_nat (length s).

Fixpoint str_eqb (a b : str) : bool :=
  match a, b with
  | [], [] => true
  | x :: a', y :: b' => (x =? y) && str_eqb a' b'
  | _, _ => false
  end.

(** WhiteSpace and LineTerminator code points: what [String.prototype.trim]
    strips and what [\s] matches. *)
Definition isSpace (c : Z) : bool :=
  ((9 <=? c) && (c <=? 13)) || (c =? 32) || (c =? 160) || (c =? 5760)
  || ((8192 <=? c) && (c <=? 8202)) || (c =? 8232) || (c =? 8233)
  || (c =? 8239) || (c =? 8287) || (c =? 12288) || (c =? 65279).

Definition isDigit (c : Z) : bool := (48 <=? c) && (c <=? 57).
Definition isUpper (c : Z) : bool := (65 <=? c) && (c <=? 90).
Definition isLower (c : Z) : bool := (97 <=? c) && (c <=? 122).
Definition isAlpha (c : Z) : bool := isUpper c || isLower c.
(** [\w]: letters, digits and underscore. *)
Definition isWord (c : Z) : bool := isAlpha c || isDigit c || (c =? 95).

Fixpoint trimStart (s : str) : str :=
  match s with
  | c :: t => if isSpace c then trimStart t else s
  | [] => []
  end.

Definition trimEnd (s : str) : str := rev (trimStart (rev s)).

Definition trim (s : str) : str := trimEnd (trimStart s).

(** [s.lastIndexOf(c)] for a one-unit needle: -1 when absent. *)
Fixpoint lastIndexFrom (c : Z) (s : str) (i acc : Z) : Z :=
  match s with
  | [] => acc
  | x :: t => lastIndexFrom c t (i + 1) (if x =? c then i else acc)
  end.

Definition lastIndexOf (c : Z) (s : str) : Z := lastIndexFrom c s 0 (-1).

(** [s.slice(b, e)]: negative indices count from the end, both are clamped
    to the string. *)
Definition clampIndex (n i : Z) : Z :=
  if i <? 0 then Z.max (n + i) 0 else Z.min i n.

Definition slice (s : str) (b e : Z) : str :=
  let from := clampIndex (len s) b in
  let to := clampIndex (len s) e in
  firstn (Z.to_nat (to - from)) (skipn (Z.to_nat from) s).

Definition sliceFrom (s : str) (b : Z) : str := slice s b (len s).

Definition includes (c : Z) (s : str) : bool := existsb (Z.eqb c) s.

Fixpoint startsWith (p s : str) : bool :=
  match p, s with
  | [], _ => true
  | x :: p', y :: s' => (x =? y) && startsWith p' s'
  | _ :: _, [] => false
  end.

(** Case mapping.  The program applies [toUpperCase] / [toLowerCase] only to
    tokens captured by ASCII character classes, and compares the result with
    ASCII words; no code unit outside ASCII maps to one of the letters of
    those words, so mapping the ASCII letters and leaving every other unit
    alone decides the same comparisons. *)
Definition upperUnit (c : Z) : Z := if isLower c then c - 32 else c.
Definition lowerUnit (c : Z) : Z := if isUpper c then c + 32 else c.
Definition toUpperCase (s : str) : str := map upperUnit s.
Definition toLowerCase (s : str) : str := map lowerUnit s.

(** [Number(s)] for a string of decimal digits (what the capture groups
    [\d{..}] deliver).  Exact for the at most nine digits the date parsers
    capture. *)
Definition digitVal (c : Z) : Z := c - 48.

Definition numberOfDigits (s : str) : Z :=
  fold_left (fun acc c => acc * 10 + digitVal c) s 0.

(** [n.toString()] for an integer [n] (below 10^21 in magnitude, where
    JavaScript still prints plain decimal digits). *)
Fixpoint natDigits (fuel : nat) (n : Z) (acc : str) : str :=
  match fuel with
  | O => acc
  | S f =>
      let acc' := (48 + n mod 10) :: acc in
      if n <? 10 then acc' else natDigits f (n / 10) acc'
  end.

Definition toStringZ (n : Z) : str :=
  if n <? 0
  then 45 :: natDigits (S (Z.to_nat (Z.log2 (- n)))) (- n) []
  else natDigits (S (Z.to_nat (Z.log2 n))) n [].

(** [s.padStart(width, "0")]. *)
Definition padStart0 (width : nat) (s : str) : str :=
  repeat 48 (width - length s) ++ s.

(** *** Numbers

    Every Number the program computes with is an integer or NaN; integers
    below 2^53 in magnitude are exact doubles, and every test the program
    performs on a larger value (the range tests of [parseNumeric], [TimeClip])
    has the same outcome on the exact integer as on its rounded double,
    because rounding is monotone and the bounds are themselves doubles.
    So a Number is modelled as [option Z], with [None] for NaN. *)
Definition num := option Z.

Definition num_sub (a b : num) : num :=
  match a, b with
  | Some x, Some y => Some (x - y)
  | _, _ => None
  end.

(** [a !== b] on Numbers: NaN differs from everything, itself included. *)
Definition num_neq (a b : num) : bool :=
  match a, b with
  | Some x, Some y => negb (x =? y)
  | _, _ => true
  end.

(** [a === b] between a Number and an integer. *)
Definition num_is (a : num) (b : Z) : bool :=
  match a with
  | Some x => x =? b
  | None => false
  end.

(** The largest integer that still rounds to a finite double: from
    [2^1024 - 2^970] on, [Number(..)] is [Infinity]. *)
Definition doubleOverflow : Z := 2 ^ 1024 - 2 ^ 970.

(** *** Dates (ECMA-262, "Date Objects") *)

Definition msPerDay : Z := 86400000.
Definition maxTime : Z := 8640000000000000.

Definition TimeClip (v : num) : num :=
  match v with
  | Some t => if Z.abs t <=? maxTime then Some t else None
  | None => None
  end.

(** Day number (days since 1970-01-01) of a proleptic Gregorian date, months
    counted from 1. *)
Definition daysFromCivil (y m d : Z) : Z :=
  let y' := if m <=? 2 then y - 1 else y in
  let era := y' / 400 in
  let yoe := y' - era * 400 in
  let mp := if m <=? 2 then m + 9 else m - 3 in
  let doy := (153 * mp + 2) / 5 + d - 1 in
  let doe := yoe * 365 + yoe / 4 - yoe / 100 + doy in
  era * 146097 + doe - 719468.

(** The inverse: (year, month from 1, day of month) of a day number. *)
Definition civilFromDays (n : Z) : Z * Z * Z :=
  let z := n + 719468 in
  let era := z / 146097 in
  let doe := z - era * 146097 in
  let yoe := (doe - doe / 1460 + doe / 36524 - doe / 146096) / 365 in
  let doy := doe - (365 * yoe + yoe / 4 - yoe / 100) in
  let mp := (5 * doy + 2) / 153 in
  let d := doy - (153 * mp + 2) / 5 + 1 in
  let m := if mp <? 10 then mp + 3 else mp - 9 in
  let y := yoe + era * 400 in
  (if m <=? 2 then y + 1 else y, m, d).

(** [MakeDay(year, month, date)], [month] counted from 0 and of any size. *)
Definition MakeDay (year month date : Z) : Z :=
  daysFromCivil (year + month / 12) (month mod 12 + 1) 1 + date - 1.

Definition MakeTime (h mi s ms : Z) : Z :=
  h * 3600000 + mi * 60000 + s * 1000 + ms.

(** [Date.UTC(year, month, date, h, mi, s, ms)] on integer arguments: years
    0..99 mean 1900..1999. *)
Definition DateUTC (year month date h mi s ms : Z) : num :=
  let yr := if (0 <=? year) && (year <=? 99) then 1900 + year else year in
  TimeClip (Some (MakeDay yr month date * msPerDay + MakeTime h mi s ms)).

(** A Date object is its time value. *)
Record Date := mkDate { getTime : num }.

(** [new Date(v)]. *)
Definition newDate (v : num) : Date := mkDate (TimeClip v).

Definition dayOf (t : Z) : Z := t / msPerDay.

Definition getUTCFullYear (d : Date) : num :=
  option_map (fun t => fst (fst (civilFromDays (dayOf t)))) (getTime d).
(** Months counted from 0, as in JavaScript. *)
Definition getUTCMonth (d : Date) : num :=
  option_map (fun t => snd (fst (civilFromDays (dayOf t))) - 1) (getTime d).
Definition getUTCDate (d : Date) : num :=
  option_map (fun t => snd (civilFromDays (dayOf t))) (getTime d).
Definition getUTCHours (d : Date) : num :=
  option_map (fun t => (t / 3600000) mod 24) (getTime d).
Definition getUTCMinutes (d : Date) : num :=
  option_map (fun t => (t / 60000) mod 60) (getTime d).
Definition getUTCSeconds (d : Date) : num :=
  option_map (fun t => (t / 1000) mod 60) (getTime d).

Definition isNaNDate (d : Date) : bool :=
  match getTime d with
  | None => true
  | Some _ => false
  end.

End JS.

Import JS.

(* ================================================================== *)
(** ** Regular expressions *)
(* ================================================================== *)

(** A backtracking matcher in the style of the ECMA-262 pattern semantics:
    continuation passing, alternatives tried left to right, quantifiers
    greedy.  It covers the constructs the program's patterns use; every body
    under a quantifier in those patterns consumes at least one code unit, so
    the empty-iteration check of the standard never fires and is left out.
    With the [i] flag, and no [u] flag, an ASCII letter of a pattern matches
    exactly its two cases, and the classes [\d], [\s], [[A-Za-z]] are
    unchanged: the patterns below spell this out unit by unit. *)
Module Regex.

Inductive re : Type :=
| Eps
| Chr (p : Z -> bool)                      (* one code unit satisfying [p] *)
| Seq (a b : re)
| Alt (a b : re)
| Rep (lo : nat) (hi : option nat) (a : re) (* greedy {lo,hi}; [None]: no bound *)
| Grp (n : nat) (a : re)                   (* capture group number [n] *)
| Bol                                      (* ^ *)
| Eol                                      (* $ *)
| Wb                                       (* \b *)
| NLook (a : re).                          (* (?!a) *)

Definition caps := list (option str).

(** Matcher state: the units before the current position (nearest first),
    the units from the current position on, and the captures so far. *)
Record mstate := MS { ms_prev : str; ms_rest : str; ms_caps : caps }.

Definition noCaps : caps := repeat None 10.

Definition cap (c : caps) (n : nat) : option str := nth n c None.

Fixpoint setCap (n : nat) (v : str) (c : caps) : caps :=
  match n, c with
  | O, _ :: t => Some v :: t
  | S n', x :: t => x :: setCap n' v t
  | _, [] => []
  end.

(** The units consumed between an earlier state [p0] and a later one [p1],
    both given by their [ms_prev]. *)
Definition consumed (p0 p1 : str) : str :=
  rev (firstn (length p1 - length p0) p1).
Arguments consumed : simpl never.

Definition headIs (p : Z -> bool) (s : str) : bool :=
  match s with
  | c :: _ => p c
  | [] => false
  end.

Fixpoint mt (r : re) (st : mstate) (k : mstate -> option mstate)
  {struct r} : option mstate :=
  match r with
  | Eps => k st
  | Chr p =>
      match ms_rest st with
      | c :: t => if p c then k (MS (c :: ms_prev st) t (ms_caps st)) else None
      | [] => None
      end
  | Seq a b => mt a st (fun st' => mt b st' k)
  | Alt a b =>
      match mt a st k with
      | Some x => Some x
      | None => mt b st k
      end
  | Rep lo hi a =>
      (fix rep (fuel lo : nat) (st : mstate) {struct fuel} : option mstate :=
         match fuel with
         | O => match lo with O => k st | S _ => None end
         | S fuel' =>
             match mt a st (fun st' => rep fuel' (pred lo) st') with
             | Some x => Some x
             | None => match lo with O => k st | S _ => None end
             end
         end)
        (match hi with Some h => h | None => length (ms_rest st) end) lo st
  | Grp n a =>
      mt a st (fun st' =>
        k (MS (ms_prev st') (ms_rest st')
              (setCap n (consumed (ms_prev st) (ms_prev st')) (ms_caps st'))))
  | Bol => match ms_prev st with [] => k st | _ :: _ => None end
  | Eol => match ms_rest st with [] => k st | _ :: _ => None end
  | Wb =>
      if xorb (headIs isWord (ms_prev st)) (headIs isWord (ms_rest st))
      then k st else None
  | NLook a =>
      match mt a st Some with
      | Some _ => None
      | None => k st
      end
  end.

(** Leftmost match at or after the current position: the [ms_prev] at which
    the match starts, and the final state. *)
Fixpoint searchFrom (r : re) (prev rest : str) {struct rest}
  : option (str * mstate) :=
  match mt r (MS prev rest noCaps) Some with
  | Some st => Some (prev, st)
  | None =>
      match rest with
      | [] => None
      | c :: t => searchFrom r (c :: prev) t
      end
  end.

(** [s.match(r)] / [r.exec(s)] without the [g] flag: the captures. *)
Definition exec (r : re) (s : str) : option caps :=
  option_map (fun x => ms_caps (snd x)) (searchFrom r [] s).

(** [r.test(s)]. *)
Definition test (r : re) (s : str) : bool :=
  match searchFrom r [] s with
  | Some _ => true
  | None => false
  end.

(** [s.replace(r, f)] with the [g] flag; [f] receives the captures and the
    matched text. *)
Fixpoint replaceLoop (fuel : nat) (r : re) (f : caps -> str -> str)
  (prev rest : str) : str :=
  match fuel with
  | O => rest
  | S fuel' =>
      match searchFrom r prev rest with
      | None => rest
      | Some (p0, st) =>
          consumed prev p0 ++ f (ms_caps st) (consumed p0 (ms_prev st))
            ++ replaceLoop fuel' r f (ms_prev st) (ms_rest st)
      end
  end.

Definition replaceAll (r : re) (f : caps -> str -> str) (s : str) : str :=
  replaceLoop (S (length s)) r f [] s.

(** *** Pattern notation *)

Definition seq (l : list re) : re := fold_right Seq Eps l.

(** The first unit of an ASCII literal. *)
Definition unit1 (c : string) : Z :=
  match js c with
  | x :: _ => x
  | [] => 0
  end.
Arguments unit1 c%_string.

(** One literal unit, case sensitive. *)
Definition ch (c : string) : re := Chr (Z.eqb (unit1 c)).
Arguments ch c%_string.
(** One literal ASCII letter under the [i] flag. *)
Definition ci (c : string) : re :=
  Chr (fun x => lowerUnit x =? lowerUnit (unit1 c)).
Arguments ci c%_string.
(** A literal word, case sensitive / under the [i] flag. *)
Definition lit (w : string) : re := seq (map (fun y => Chr (Z.eqb y)) (js w)).
Arguments lit w%_string.
Definition liti (w : string) : re :=
  seq (map (fun y => Chr (fun x => lowerUnit x =? lowerUnit y)) (js w)).
Arguments liti w%_string.

Definition digit : re := Chr isDigit.           (* \d *)
Definition space : re := Chr isSpace.           (* \s *)
Definition alpha : re := Chr isAlpha.           (* [A-Za-z] *)
Definition opt (a : re) : re := Rep 0 (Some 1%nat) a.    (* a? *)
Definition star (a : re) : re := Rep 0 None a.           (* a* *)
Definition plus (a : re) : re := Rep 1 None a.           (* a+ *)
Definition times (n : nat) (a : re) : re := Rep n (Some n) a.       (* a{n} *)
Definition range (lo hi : nat) (a : re) : re := Rep lo (Some hi) a. (* a{lo,hi} *)

End Regex.

Import Regex.

(* ================================================================== *)
(** ** Exceptions and the host *)
(* ================================================================== *)

(** A computation that may throw.  The only exception the program can meet
    is the [RangeError] of [Intl.DateTimeFormat]: for a time zone the host
    does not know, and for formatting an invalid Date. *)
Inductive exc (A : Type) : Type :=
| Ok (a : A)
| Throw.
Arguments Ok {A} a.
Arguments Throw {A}.

Definition bind {A B : Type} (m : exc A) (f : A -> exc B) : exc B :=
  match m with
  | Ok a => f a
  | Throw => Throw
  end.

Notation "x <- m ;; k" := (bind m (fun x => k))
  (at level 61, m at next level, right associativity).

(** [try { m } catch { h }]. *)
Definition catch {A : Type} (m : exc A) (h : A) : A :=
  match m with
  | Ok a => a
  | Throw => h
  end.

(** The civil fields [Intl] reports for an instant in a zone. *)
Record HostParts := mkHostParts {
  hp_year : Z; hp_month : Z; hp_day : Z;
  hp_hour : Z; hp_minute : Z; hp_second : Z
}.

(** What the program asks of its host (the "Calendar/Timezone Library" and
    the clock).  [tzParts] and [tzShortName] are consulted only for a zone
    with [tzValid] and a valid Date. *)
Record Host := mkHost {
  (** [new Intl.DateTimeFormat("en-US", { timeZone })] does not throw *)
  tzValid : str -> bool;
  (** the numeric fields of [formatToParts(date)] in the zone *)
  tzParts : str -> Z -> HostParts;
  (** the [timeZoneName] part of [formatToParts(date)], if there is one *)
  tzShortName : str -> Z -> option str;
  (** [Intl.DateTimeFormat().resolvedOptions().timeZone], empty when absent *)
  resolvedTimeZone : str;
  (** [Date.now()] *)
  dateNow : Z;
  (** [Date.parse(text)], [None] for NaN *)
  dateParse : str -> num
}.

(* ================================================================== *)
(** ** timezone.ts *)
(* ================================================================== *)

Module Timezone.

Inductive ZoneSpec : Type :=
| Iana (name : str) (label : option str)
| Fixed (offsetMinutes : Z) (label : str).

Record DateComponents := mkComponents {
  year : Z; month : Z; day : Z;
  hour : option Z; minute : option Z; second : option Z;
  millisecond : option Z
}.

(** The fields are Numbers: the getters of an invalid Date give NaN. *)
Record DateParts := mkParts {
  p_year : num; p_month : num; p_day : num;
  p_hour : num; p_minute : num; p_second : num
}.

Definition minutesInHour : Z := 60.
Definition millisecondsInMinute : Z := 60000.

Definition signUnit : re := Chr (fun x => (x =? 43) || (x =? 45)).  (* [+-] *)

(** [/^(?:UTC|GMT)\s*([+-])\s*(\d{1,2})(?::?(\d{2}))?$/i] *)
Definition offsetPattern : re :=
  seq [Bol; Alt (liti "UTC") (liti "GMT"); star space; Grp 1 signUnit;
       star space; Grp 2 (range 1 2 digit);
       opt (seq [opt (ch ":"); Grp 3 (times 2 digit)]); Eol].

(** [/^([+-])\s*(\d{1,2})(?::?(\d{2}))?$/] *)
Definition bareOffsetPattern : re :=
  seq [Bol; Grp 1 signUnit; star space; Grp 2 (range 1 2 digit);
       opt (seq [opt (ch ":"); Grp 3 (times 2 digit)]); Eol].

(** [/^Etc\/GMT([+-])(\d{1,2})$/i] *)
Definition etcPattern : re :=
  seq [Bol; liti "Etc/GMT"; Grp 1 signUnit; Grp 2 (range 1 2 digit); Eol].

(** [value.toString()] of a Number. *)
Definition toStringNum (v : num) : str :=
  match v with
  | Some n => toStringZ n
  | None => js "NaN"
  end.

Definition pad (value : num) (width : nat) : str :=
  padStart0 width (toStringNum value).

(** [Number(m[i] ?? "0")] *)
Definition numberOr0 (g : option str) : Z :=
  match g with
  | Some s => numberOfDigits s
  | None => 0
  end.

(** [Number(m[i])] for a group that took part in the match. *)
Definition numberOf (g : option str) : Z := numberOr0 g.

Definition isPlus (g : option str) : bool :=
  match g with
  | Some s => str_eqb s (js "+")
  | None => false
  end.

Section WithHost.

Variable host : Host.

(** The formatter caches of the source are read-through memo tables of
    [new Intl.DateTimeFormat]: a formatter is stored only once built, so with
    or without them the constructor's [RangeError] reaches the caller for
    exactly the zones without [tzValid]. *)
Definition formatterForParts (timeZone : str) : exc unit :=
  if tzValid host timeZone then Ok tt else Throw.

Definition formatterForZoneName (timeZone : str) : exc unit :=
  if tzValid host timeZone then Ok tt else Throw.

Definition toDateParts (date : Date) (timeZone : str) : exc DateParts :=
  _ <- formatterForParts timeZone ;;
  match getTime date with
  | None => Throw
  | Some t =>
      let hp := tzParts host timeZone t in
      Ok (mkParts (Some (hp_year hp)) (Some (hp_month hp)) (Some (hp_day hp))
                  (Some (hp_hour hp)) (Some (hp_minute hp))
                  (Some (hp_second hp)))
  end.

Definition zoneName (date : Date) (timeZone : str) : exc str :=
  _ <- formatterForZoneName timeZone ;;
  match getTime date with
  | None => Throw
  | Some t =>
      match tzShortName host timeZone t with
      | Some v => Ok v
      | None => Ok timeZone
      end
  end.

Definition formatOffset (minutes : num) : str :=
  match minutes with
  | None => js "-" ++ pad None 2 ++ js ":" ++ pad None 2
  | Some m =>
      let sign := if m >=? 0 then js "+" else js "-" in
      let absolute := Z.abs m in
      let hh := Z.quot absolute minutesInHour in
      let mm := Z.rem absolute minutesInHour in
      sign ++ pad (Some hh) 2 ++ js ":" ++ pad (Some mm) 2
  end.

Definition formatDateString (parts : DateParts) (offsetMinutes : num)
  (zoneToken : str) : str :=
  toStringNum (p_year parts) ++ js "-" ++ pad (p_month parts) 2 ++ js "-"
  ++ pad (p_day parts) 2 ++ js "T" ++ pad (p_hour parts) 2 ++ js ":"
  ++ pad (p_minute parts) 2 ++ js ":" ++ pad (p_second parts) 2 ++ js " "
  ++ formatOffset offsetMinutes ++ js " " ++ zoneToken.

Definition fixedZone (offsetMinutes : Z) : ZoneSpec :=
  Fixed offsetMinutes (js "UTC" ++ formatOffset (Some offsetMinutes)).

Definition parseFixedOffset (raw : str) : option ZoneSpec :=
  match exec etcPattern raw with
  | Some etc =>
      let direction := cap etc 1 in
      let hours := numberOf (cap etc 2) in
      if hours >? 23 then None
      else
        (* IANA Etc/GMT uses reversed signs: Etc/GMT+7 means UTC-07:00. *)
        let offsetMinutes :=
          (if isPlus direction then -1 else 1) * hours * minutesInHour in
        Some (fixedZone offsetMinutes)
  | None =>
  match exec offsetPattern raw with
  | Some prefixed =>
      let direction := cap prefixed 1 in
      let hours := numberOf (cap prefixed 2) in
      let minutes := numberOr0 (cap prefixed 3) in
      if (hours >? 23) || (minutes >? 59) then None
      else
        let offsetMinutes :=
          (if isPlus direction then 1 else -1)
          * (hours * minutesInHour + minutes) in
        Some (fixedZone offsetMinutes)
  | None =>
  match exec bareOffsetPattern raw with
  | Some bare =>
      let direction := cap bare 1 in
      let hours := numberOf (cap bare 2) in
      let minutes := numberOr0 (cap bare 3) in
      if (hours >? 23) || (minutes >? 59) then None
      else
        let offsetMinutes :=
          (if isPlus direction then 1 else -1)
          * (hours * minutesInHour + minutes) in
        Some (fixedZone offsetMinutes)
  | None => None
  end end end.

Definition localTimeZone : str :=
  match resolvedTimeZone host with
  | [] => js "UTC"
  | _ :: _ => resolvedTimeZone host
  end.

(** [formatterForParts(timeZone).format(new Date())] inside [try]. *)
Definition isValidIanaTimeZone (timeZone : str) : bool :=
  catch (_ <- formatterForParts timeZone ;; Ok true) false.

Definition parseZone (raw : str) : option ZoneSpec :=
  let value := trim raw in
  match value with
  | [] => None
  | _ :: _ =>
      if test (seq [Bol; liti "local"; Eol]) value
      then Some (Iana localTimeZone (Some (js "Local")))
      else if test (seq [Bol; Grp 1 (Alt (liti "utc") (Alt (liti "gmt") (liti "z")));
                         Eol]) value
      then Some (Fixed 0 (js "UTC"))
      else
        match parseFixedOffset value with
        | Some fixed => Some fixed
        | None =>
            if isValidIanaTimeZone value
            then Some (Iana value None)
            else None
        end
  end.

Definition zoneDisplayName (zone : ZoneSpec) : str :=
  match zone with
  | Fixed _ label => label
  | Iana name (Some label) => label
  | Iana name None => name
  end.

Definition numDateUTC (y mo d h mi s : num) : num :=
  match y, mo, d, h, mi, s with
  | Some y, Some mo, Some d, Some h, Some mi, Some s =>
      DateUTC y (mo - 1) d h mi s 0
  | _, _, _, _, _, _ => None
  end.

Definition getTimeZoneOffsetMilliseconds (date : Date) (timeZone : str)
  : exc num :=
  parts <- toDateParts date timeZone ;;
  let asUtc := numDateUTC (p_year parts) (p_month parts) (p_day parts)
                          (p_hour parts) (p_minute parts) (p_second parts) in
  Ok (num_sub asUtc (getTime date)).

Definition orZero (v : option Z) : Z :=
  match v with
  | Some x => x
  | None => 0
  end.

Definition toInstantFromComponents (components : DateComponents)
  (zone : ZoneSpec) : exc Date :=
  let hour := orZero (hour components) in
  let minute := orZero (minute components) in
  let second := orZero (second components) in
  let millisecond := orZero (millisecond components) in
  let utcGuess := DateUTC (year components) (month components - 1)
                          (day components) hour minute second millisecond in
  match zone with
  | Fixed offsetMinutes _ =>
      Ok (newDate (num_sub utcGuess
                           (Some (offsetMinutes * millisecondsInMinute))))
  | Iana name _ =>
      firstOffset <- getTimeZoneOffsetMilliseconds (newDate utcGuess) name ;;
      let adjusted := num_sub utcGuess firstOffset in
      secondOffset <- getTimeZoneOffsetMilliseconds (newDate adjusted) name ;;
      let adjusted :=
        if num_neq secondOffset firstOffset
        then num_sub utcGuess secondOffset
        else adjusted in
      Ok (newDate adjusted)
  end.

(** [Math.trunc(v / millisecondsInMinute)] *)
Definition truncMinutes (v : num) : num :=
  option_map (fun x => Z.quot x millisecondsInMinute) v.

Definition formatInstantForZone (date : Date) (zone : ZoneSpec) : exc str :=
  match zone with
  | Fixed offsetMinutes label =>
      let shifted :=
        newDate (option_map
                   (fun t => t + offsetMinutes * millisecondsInMinute)
                   (getTime date)) in
      let parts :=
        mkParts (getUTCFullYear shifted)
                (option_map (fun m => m + 1) (getUTCMonth shifted))
                (getUTCDate shifted) (getUTCHours shifted)
                (getUTCMinutes shifted) (getUTCSeconds shifted) in
      Ok (formatDateString parts (Some offsetMinutes) label)
  | Iana name _ =>
      parts <- toDateParts date name ;;
      offset <- getTimeZoneOffsetMilliseconds date name ;;
      token <- zoneName date name ;;
      Ok (formatDateString parts (truncMinutes offset) token)
  end.

End WithHost.

End Timezone.

Import Timezone.

(* ================================================================== *)
(** ** parser.ts *)
(* ================================================================== *)

Module Parser.

Inductive ParseResult : Type :=
| ParseSuccess (input : str) (sourceZone : ZoneSpec) (sourceZoneLabel : str)
               (date : Date) (matchedPattern : str)
| ParseFailure (input : str) (sourceZone : ZoneSpec) (sourceZoneLabel : str)
               (error : str).

Inductive ParseState : Type :=
| Unknown | Digit | DigitDash | DigitSlash | DigitAlpha | Alpha.

Definition ParserFn : Type := str -> ZoneSpec -> exc (option Date).

Definition monthMap : list (str * Z) :=
  [ (js "jan", 1); (js "january", 1); (js "feb", 2); (js "february", 2);
    (js "mar", 3); (js "march", 3); (js "apr", 4); (js "april", 4);
    (js "may", 5); (js "jun", 6); (js "june", 6); (js "jul", 7);
    (js "july", 7); (js "aug", 8); (js "august", 8); (js "sep", 9);
    (js "sept", 9); (js "september", 9); (js "oct", 10); (js "october", 10);
    (js "nov", 11); (js "november", 11); (js "dec", 12); (js "december", 12) ].

Definition maxDateMilliseconds : Z := 8640000000000000.

Definition expandTwoDigitYear (value : Z) : Z :=
  if value >=? 69 then 1900 + value else 2000 + value.

Fixpoint lookup (key : str) (m : list (str * Z)) : option Z :=
  match m with
  | [] => None
  | (k, v) :: m' => if str_eqb k key then Some v else lookup key m'
  end.

Definition groupText (g : option str) : str :=
  match g with
  | Some s => s
  | None => []
  end.

(** The keys looked up are 3 to 9 lower-case letters, none of which names a
    property inherited from [Object.prototype]. *)
Definition parseMonthToken (token : str) : option Z :=
  lookup (toLowerCase token) monthMap.

Definition parseFractionMilliseconds (rawFraction : option str) : Z :=
  match rawFraction with
  | None | Some [] => 0
  | Some f =>
      let normalized := slice (f ++ js "000") 0 3 in
      numberOfDigits normalized
  end.

Definition applyMeridiem (hour : Z) (meridiem : option str) : option Z :=
  match meridiem with
  | None | Some [] => Some hour
  | Some m =>
      let upper := toUpperCase m in
      if (hour <? 1) || (hour >? 12) then None
      else if str_eqb upper (js "AM")
      then Some (if hour =? 12 then 0 else hour)
      else if str_eqb upper (js "PM")
      then Some (if hour =? 12 then 12 else hour + 12)
      else None
  end.

Definition isValidCalendarDate (year month day : Z) : bool :=
  if (month <? 1) || (month >? 12) || (day <? 1) || (day >? 31) then false
  else
    let candidate := newDate (DateUTC year (month - 1) day 0 0 0 0) in
    num_is (getUTCFullYear candidate) year
    && num_is (option_map (fun m => m + 1) (getUTCMonth candidate)) month
    && num_is (getUTCDate candidate) day.

(** [/^(\d{4})(\d{2})(\d{2})(\d{2})(\d{2})(\d{2})$/] *)
Definition compact14Pattern : re :=
  seq [Bol; Grp 1 (times 4 digit); Grp 2 (times 2 digit);
       Grp 3 (times 2 digit); Grp 4 (times 2 digit); Grp 5 (times 2 digit);
       Grp 6 (times 2 digit); Eol].

(** [/^(\d{4})(\d{2})(\d{2})$/] *)
Definition compact8Pattern : re :=
  seq [Bol; Grp 1 (times 4 digit); Grp 2 (times 2 digit);
       Grp 3 (times 2 digit); Eol].

(** [/^(\d{4})年(\d{1,2})月(\d{1,2})日(?:\s+(\d{1,2}):(\d{2}))?$/] *)
Definition chinesePattern : re :=
  seq [Bol; Grp 1 (times 4 digit); Chr (Z.eqb 24180);
       Grp 2 (range 1 2 digit); Chr (Z.eqb 26376);
       Grp 3 (range 1 2 digit); Chr (Z.eqb 26085);
       opt (seq [plus space; Grp 4 (range 1 2 digit); ch ":";
                 Grp 5 (times 2 digit)]);
       Eol].

(** [/^(\d{4})-(\d{1,2})-(\d{1,2})$/] *)
Definition plainDatePattern : re :=
  seq [Bol; Grp 1 (times 4 digit); ch "-"; Grp 2 (range 1 2 digit); ch "-";
       Grp 3 (range 1 2 digit); Eol].

(** [/^(\d{4})-(\d{1,2})$/] *)
Definition yearMonthPattern : re :=
  seq [Bol; Grp 1 (times 4 digit); ch "-"; Grp 2 (range 1 2 digit); Eol].

(** [/^(\d{4})-([A-Za-z]{3})-(\d{1,2})$/] *)
Definition monthTextPattern : re :=
  seq [Bol; Grp 1 (times 4 digit); ch "-"; Grp 2 (times 3 alpha); ch "-";
       Grp 3 (range 1 2 digit); Eol].

(** [(?::(\d{2}))?(?:[.,](\d{1,9}))?(?:\s*(AM|PM))?] under the [i] flag, the
    common tail of the two patterns that accept a meridiem after a time;
    [g] is the number of the seconds group. *)
Definition timeTail (g : nat) : list re :=
  [opt (seq [ch ":"; Grp g (times 2 digit)]);
   opt (seq [Chr (fun x => (x =? 46) || (x =? 44)); Grp (S g) (range 1 9 digit)]);
   opt (seq [star space; Grp (S (S g)) (Alt (liti "AM") (liti "PM"))])].

(** [/^(\d{4})-(\d{1,2})-(\d{1,2})[T\s](\d{1,2}):(\d{2})(?::(\d{2}))?(?:[.,](\d{1,9}))?(?:\s*(AM|PM))?$/i] *)
Definition dateTimePattern : re :=
  seq ([Bol; Grp 1 (times 4 digit); ch "-"; Grp 2 (range 1 2 digit); ch "-";
        Grp 3 (range 1 2 digit);
        Chr (fun x => (lowerUnit x =? 116) || isSpace x);
        Grp 4 (range 1 2 digit); ch ":"; Grp 5 (times 2 digit)]
       ++ timeTail 6 ++ [Eol]).

(** [/^(\d{1,4})\/(\d{1,2})\/(\d{1,4})(?:\s+(\d{1,2}):(\d{2})(?::(\d{2}))?(?:[.,](\d{1,9}))?(?:\s*(AM|PM))?)?$/i] *)
Definition slashPattern : re :=
  seq [Bol; Grp 1 (range 1 4 digit); ch "/"; Grp 2 (range 1 2 digit); ch "/";
       Grp 3 (range 1 4 digit);
       opt (seq ([plus space; Grp 4 (range 1 2 digit); ch ":";
                  Grp 5 (times 2 digit)] ++ timeTail 6));
       Eol].

(** [/^(\d{1,2})\s+([A-Za-z]{3})\s+(\d{4}),\s*(\d{1,2}):(\d{2})(?::(\d{2}))?$/] *)
Definition dayMonthNamePattern : re :=
  seq [Bol; Grp 1 (range 1 2 digit); plus space; Grp 2 (times 3 alpha);
       plus space; Grp 3 (times 4 digit); ch ","; star space;
       Grp 4 (range 1 2 digit); ch ":"; Grp 5 (times 2 digit);
       opt (seq [ch ":"; Grp 6 (times 2 digit)]); Eol].

(** [/^([A-Za-z]{3,9})\s+(\d{1,2}),\s*(\d{4})(?:\s+(\d{1,2}):(\d{2}):(\d{2})\s*(AM|PM))?$/i] *)
Definition monthNamePattern : re :=
  seq [Bol; Grp 1 (range 3 9 alpha); plus space; Grp 2 (range 1 2 digit);
       ch ","; star space; Grp 3 (times 4 digit);
       opt (seq [plus space; Grp 4 (range 1 2 digit); ch ":";
                 Grp 5 (times 2 digit); ch ":"; Grp 6 (times 2 digit);
                 star space; Grp 7 (Alt (liti "AM") (liti "PM"))]);
       Eol].

(** [/^(?:[A-Za-z]{3}\s+)?([A-Za-z]{3})\s+(\d{1,2})\s+(\d{1,2}):(\d{2}):(\d{2})\s+(\d{4})$/] *)
Definition ansiPattern : re :=
  seq [Bol; opt (seq [times 3 alpha; plus space]); Grp 1 (times 3 alpha);
       plus space; Grp 2 (range 1 2 digit); plus space;
       Grp 3 (range 1 2 digit); ch ":"; Grp 4 (times 2 digit); ch ":";
       Grp 5 (times 2 digit); plus space; Grp 6 (times 4 digit); Eol].

(** [/^(\d+)\s+(minutes?|hours?|day|days)\s+ago$/i] *)
Definition agoPattern : re :=
  seq [Bol; Grp 1 (plus digit); plus space;
       Grp 2 (Alt (seq [liti "minute"; opt (ci "s")])
             (Alt (seq [liti "hour"; opt (ci "s")])
             (Alt (liti "day") (liti "days"))));
       plus space; liti "ago"; Eol].

Definition allDigitsPattern : re := seq [Bol; plus digit; Eol].  (* /^\d+$/ *)

Section WithHost.

Variable host : Host.

Definition buildDateFromComponents (base : DateComponents)
  (sourceZone : ZoneSpec) : exc (option Date) :=
  let hour := orZero (hour base) in
  let minute := orZero (minute base) in
  let second := orZero (second base) in
  let millisecond := orZero (millisecond base) in
  if negb (isValidCalendarDate (year base) (month base) (day base))
  then Ok None
  else if (hour <? 0) || (hour >? 23) || (minute <? 0) || (minute >? 59)
          || (second <? 0) || (second >? 59)
  then Ok None
  else if (millisecond <? 0) || (millisecond >? 999)
  then Ok None
  else
    d <- toInstantFromComponents host base sourceZone ;;
    Ok (Some d).

Definition parseComponentsWithMeridiem (year month day hour minute second
  millisecond : Z) (sourceZone : ZoneSpec) (meridiem : option str)
  : exc (option Date) :=
  match applyMeridiem hour meridiem with
  | None => Ok None
  | Some normalizedHour =>
      buildDateFromComponents
        (mkComponents year month day (Some normalizedHour) (Some minute)
                      (Some second) (Some millisecond))
        sourceZone
  end.

Definition dateOnly (year month day : Z) : DateComponents :=
  mkComponents year month day None None None None.

Definition parseNow (input : str) : option Date :=
  if negb (test (seq [Bol; liti "now"]) (trim input)) then None
  else
    let unixSeconds := Z.quot (dateNow host) 1000 in
    Some (newDate (Some (unixSeconds * 1000))).

(** The amount is an exact integer here.  With the host clock in
    0 .. 3.6e14 (before the year 13000) every intermediate double of the
    source is exact whenever the resulting Date is valid, and the Date is
    invalid on both sides otherwise. *)
Definition parseAgo (input : str) : option Date :=
  match exec agoPattern (trim input) with
  | None => None
  | Some m =>
      let amount := numberOf (cap m 1) in
      let unit := toLowerCase (groupText (cap m 2)) in
      if doubleOverflow <=? amount then None
      else
        let multiplier :=
          if startsWith (js "minute") unit then 60000
          else if startsWith (js "hour") unit then 3600000
          else 86400000 in
        Some (newDate (Some (dateNow host - amount * multiplier)))
  end.

Definition parseNumeric (input : str) (sourceZone : ZoneSpec)
  : exc (option Date) :=
  if negb (test allDigitsPattern input) then Ok None
  else if (len input =? 14) && startsWith (js "2") input then
    match exec compact14Pattern input with
    | None => Ok None
    | Some m =>
        parseComponentsWithMeridiem
          (numberOf (cap m 1)) (numberOf (cap m 2)) (numberOf (cap m 3))
          (numberOf (cap m 4)) (numberOf (cap m 5)) (numberOf (cap m 6))
          0 sourceZone None
    end
  else if (len input =? 8) && startsWith (js "2") input then
    match exec compact8Pattern input with
    | None => Ok None
    | Some m =>
        buildDateFromComponents
          (dateOnly (numberOf (cap m 1)) (numberOf (cap m 2))
                    (numberOf (cap m 3)))
          sourceZone
    end
  else if (len input =? 4) && startsWith (js "2") input then
    buildDateFromComponents (dateOnly (numberOfDigits input) 1 1) sourceZone
  else
    (* [BigInt(input)] cannot throw on a string of digits. *)
    let numeric := numberOfDigits input in
    let milliseconds :=
      if len input >? 16 then numeric / 1000000
      else if len input >? 13 then numeric / 1000
      else if len input >? 10 then numeric
      else numeric * 1000 in
    if doubleOverflow <=? milliseconds then Ok None
    else if (milliseconds <? 0) || (Z.abs milliseconds >? maxDateMilliseconds)
    then Ok None
    else Ok (Some (newDate (Some milliseconds))).

Definition parseChineseDate (input : str) (sourceZone : ZoneSpec)
  : exc (option Date) :=
  match exec chinesePattern (trim input) with
  | None => Ok None
  | Some m =>
      let hour := numberOr0 (cap m 4) in
      let minute := numberOr0 (cap m 5) in
      parseComponentsWithMeridiem
        (numberOf (cap m 1)) (numberOf (cap m 2)) (numberOf (cap m 3))
        hour minute 0 0 sourceZone None
  end.

Definition parseDashDate (input : str) (sourceZone : ZoneSpec)
  : exc (option Date) :=
  match exec plainDatePattern input with
  | Some plainDate =>
      buildDateFromComponents
        (dateOnly (numberOf (cap plainDate 1)) (numberOf (cap plainDate 2))
                  (numberOf (cap plainDate 3)))
        sourceZone
  | None =>
  match exec yearMonthPattern input with
  | Some yearMonth =>
      buildDateFromComponents
        (dateOnly (numberOf (cap yearMonth 1)) (numberOf (cap yearMonth 2)) 1)
        sourceZone
  | None =>
  match exec monthTextPattern input with
  | Some monthText =>
      match parseMonthToken (groupText (cap monthText 2)) with
      | None => Ok None
      | Some month =>
          buildDateFromComponents
            (dateOnly (numberOf (cap monthText 1)) month
                      (numberOf (cap monthText 3)))
            sourceZone
      end
  | None =>
  match exec dateTimePattern input with
  | None => Ok None
  | Some dateTime =>
      parseComponentsWithMeridiem
        (numberOf (cap dateTime 1)) (numberOf (cap dateTime 2))
        (numberOf (cap dateTime 3)) (numberOf (cap dateTime 4))
        (numberOf (cap dateTime 5)) (numberOr0 (cap dateTime 6))
        (parseFractionMilliseconds (cap dateTime 7))
        sourceZone (cap dateTime 8)
  end end end end.

(** The [for (const attempt of attempts)] loop of [parseSlashDate]. *)
Fixpoint firstCandidate (attempts : list (Z * Z * Z))
  (hour minute second millisecond : Z) (sourceZone : ZoneSpec)
  (meridiem : option str) : exc (option Date) :=
  match attempts with
  | [] => Ok None
  | (y, m, d) :: rest =>
      candidate <- parseComponentsWithMeridiem y m d hour minute second
                     millisecond sourceZone meridiem ;;
      match candidate with
      | Some c => Ok (Some c)
      | None =>
          firstCandidate rest hour minute second millisecond sourceZone
                         meridiem
      end
  end.

Definition parseSlashDate (input : str) (sourceZone : ZoneSpec)
  : exc (option Date) :=
  match exec slashPattern input with
  | None => Ok None
  | Some m =>
      let a := groupText (cap m 1) in
      let b := groupText (cap m 2) in
      let c := groupText (cap m 3) in
      let hour := numberOr0 (cap m 4) in
      let minute := numberOr0 (cap m 5) in
      let second := numberOr0 (cap m 6) in
      let millisecond := parseFractionMilliseconds (cap m 7) in
      let meridiem := cap m 8 in
      let attempts :=
        if len a =? 4
        then [(numberOfDigits a, numberOfDigits b, numberOfDigits c)]
        else if len c =? 4
        then [(numberOfDigits c, numberOfDigits a, numberOfDigits b)]
        else if (len a <=? 2) && (len b <=? 2) && (len c <=? 2)
        then [(expandTwoDigitYear (numberOfDigits a), numberOfDigits b,
               numberOfDigits c);
              (expandTwoDigitYear (numberOfDigits c), numberOfDigits a,
               numberOfDigits b)]
        else [] in
      firstCandidate attempts hour minute second millisecond sourceZone
                     meridiem
  end.

Definition parseDayMonthName (input : str) (sourceZone : ZoneSpec)
  : exc (option Date) :=
  match exec dayMonthNamePattern (trim input) with
  | None => Ok None
  | Some m =>
      match parseMonthToken (groupText (cap m 2)) with
      | None => Ok None
      | Some month =>
          parseComponentsWithMeridiem
            (numberOf (cap m 3)) month (numberOf (cap m 1))
            (numberOf (cap m 4)) (numberOf (cap m 5)) (numberOr0 (cap m 6))
            0 sourceZone None
      end
  end.

Definition parseMonthNameDate (input : str) (sourceZone : ZoneSpec)
  : exc (option Date) :=
  match exec monthNamePattern (trim input) with
  | None => Ok None
  | Some m =>
      match parseMonthToken (groupText (cap m 1)) with
      | None => Ok None
      | Some month =>
          let hour := numberOr0 (cap m 4) in
          let minute := numberOr0 (cap m 5) in
          let second := numberOr0 (cap m 6) in
          parseComponentsWithMeridiem
            (numberOf (cap m 3)) month (numberOf (cap m 2))
            hour minute second 0 sourceZone (cap m 7)
      end
  end.

Definition parseAnsiStyle (input : str) (sourceZone : ZoneSpec)
  : exc (option Date) :=
  match exec ansiPattern (trim input) with
  | None => Ok None
  | Some m =>
      match parseMonthToken (groupText (cap m 1)) with
      | None => Ok None
      | Some month =>
          parseComponentsWithMeridiem
            (numberOf (cap m 6)) month (numberOf (cap m 2))
            (numberOf (cap m 3)) (numberOf (cap m 4)) (numberOf (cap m 5))
            0 sourceZone None
      end
  end.

Definition hasExplicitTimeZone (input : str) : bool :=
  let trimmed := trim input in
  (* /\b(?:UTC|GMT)\b/i *)
  if test (seq [Wb; Alt (liti "UTC") (liti "GMT"); Wb]) trimmed then true
  (* /Etc\/GMT[+-]\d{1,2}/i *)
  else if test (seq [liti "Etc/GMT"; signUnit; range 1 2 digit]) trimmed
  then true
  (* /\b[A-Za-z_]+\/[A-Za-z_]+\b/ *)
  else if test (seq [Wb; plus (Chr (fun x => isAlpha x || (x =? 95)));
                     ch "/"; plus (Chr (fun x => isAlpha x || (x =? 95)));
                     Wb]) trimmed
  then true
  (* /[+-]\d{2}:?\d{2}(?!\d)/ *)
  else if test (seq [signUnit; times 2 digit; opt (ch ":"); times 2 digit;
                     NLook digit]) trimmed
  then true
  (* /\dZ$/ *)
  else if test (seq [digit; ch "Z"; Eol]) trimmed then true
  else false.

Definition normalizeNativeInput (input : str) : str :=
  let normalized := trim input in
  (* /(\d),(\d{3,9})(?!\d)/g *)
  let normalized :=
    replaceAll (seq [Grp 1 digit; ch ","; Grp 2 (range 3 9 digit);
                     NLook digit])
               (fun m _ => groupText (cap m 1) ++ js "."
                           ++ slice (groupText (cap m 2)) 0 3)
               normalized in
  (* /\.(\d{3})\d+/g *)
  let normalized :=
    replaceAll (seq [ch "."; Grp 1 (times 3 digit); plus digit])
               (fun m _ => js "." ++ groupText (cap m 1))
               normalized in
  (* /\s+/g *)
  replaceAll (plus space) (fun _ _ => js " ") normalized.

Definition parseWithNativeDate (input : str) (sourceZone : ZoneSpec)
  : option Date :=
  let explicitTimeZone := hasExplicitTimeZone input in
  let sourceIsLocal :=
    match sourceZone with
    | Iana name _ => str_eqb name (localTimeZone host)
    | Fixed _ _ => false
    end in
  if negb explicitTimeZone && negb sourceIsLocal then None
  else
    match dateParse host (normalizeNativeInput input) with
    | None => None
    | Some timestamp => Some (newDate (Some timestamp))
    end.

Definition detectState (input : str) : ParseState :=
  let value := trim input in
  match value with
  | [] => Unknown
  | _ :: _ =>
      if test (seq [Bol; digit]) value then
        if test allDigitsPattern value then Digit
        else if includes 45 value then DigitDash
        else if includes 47 value then DigitSlash
        (* /[A-Za-z\u4E00-\u9FFF]/ *)
        else if test (Chr (fun x => isAlpha x
                                    || ((19968 <=? x) && (x <=? 40959))))
                     value
        then DigitAlpha
        else Digit
      else if test (seq [Bol; alpha]) value then Alpha
      else Unknown
  end.

Definition splitInputAndZone (rawInput : str) (defaultSourceZone : ZoneSpec)
  : str * ZoneSpec :=
  let trimmed := trim rawInput in
  let commaIndex := lastIndexOf 44 trimmed in
  if commaIndex <=? 0 then (trimmed, defaultSourceZone)
  else
    let left := trim (slice trimmed 0 commaIndex) in
    let right := trim (sliceFrom trimmed (commaIndex + 1)) in
    match parseZone host right with
    | None => (trimmed, defaultSourceZone)
    | Some zone => (left, zone)
    end.

Definition pure2 (f : str -> option Date) : ParserFn :=
  fun input _ => Ok (f input).

Definition nativeFn : ParserFn :=
  fun input zone => Ok (parseWithNativeDate input zone).

Definition parserPipeline (state : ParseState) : list (str * ParserFn) :=
  let common := [(js "now", pure2 parseNow); (js "ago", pure2 parseAgo)] in
  match state with
  | Digit =>
      common ++ [(js "numeric", parseNumeric); (js "native", nativeFn)]
  | DigitDash =>
      common ++ [(js "dash", parseDashDate); (js "chinese", parseChineseDate);
                 (js "native", nativeFn)]
  | DigitSlash =>
      common ++ [(js "slash", parseSlashDate); (js "native", nativeFn)]
  | DigitAlpha =>
      common ++ [(js "chinese", parseChineseDate);
                 (js "day-month-name", parseDayMonthName);
                 (js "native", nativeFn)]
  | Alpha =>
      common ++ [(js "month-name", parseMonthNameDate);
                 (js "ansi", parseAnsiStyle); (js "native", nativeFn)]
  | Unknown =>
      common ++ [(js "numeric", parseNumeric); (js "dash", parseDashDate);
                 (js "slash", parseSlashDate); (js "chinese", parseChineseDate);
                 (js "native", nativeFn)]
  end.

(** The [for (const entry of parsers)] loop of [parseDateInput]: the label
    and Date of the first entry that returns a Date that is not NaN. *)
Fixpoint firstMatch (parsers : list (str * ParserFn)) (input : str)
  (sourceZone : ZoneSpec) : exc (option (str * Date)) :=
  match parsers with
  | [] => Ok None
  | (label, parser) :: rest =>
      parsed <- parser input sourceZone ;;
      match parsed with
      | Some d =>
          if isNaNDate d then firstMatch rest input sourceZone
          else Ok (Some (label, d))
      | None => firstMatch rest input sourceZone
      end
  end.

(** "请输入时间内容，例如: now 或 2019-01-30 21:24:44,gmt-7" *)
Definition emptyInputError : str :=
  [35831; 36755; 20837; 26102; 38388; 20869; 23481; 65292; 20363; 22914]
  ++ js ": now " ++ [25110] ++ js " 2019-01-30 21:24:44,gmt-7".

Definition parseDateInput (rawInput : str) (defaultSourceZone : ZoneSpec)
  : exc ParseResult :=
  let '(input, sourceZone) := splitInputAndZone rawInput defaultSourceZone in
  match input with
  | [] =>
      Ok (ParseFailure input sourceZone (zoneDisplayName sourceZone)
                       emptyInputError)
  | _ :: _ =>
      let state := detectState input in
      let parsers := parserPipeline state in
      found <- firstMatch parsers input sourceZone ;;
      match found with
      | Some (label, parsed) =>
          Ok (ParseSuccess input sourceZone (zoneDisplayName sourceZone)
                           parsed label)
      | None =>
          Ok (ParseFailure input sourceZone (zoneDisplayName sourceZone)
                           (js "Could not find date format for " ++ input))
      end
  end.

End WithHost.

End Parser.

Import Parser.

(* ================================================================== *)
(** ** A concrete host *)
(* ================================================================== *)

(** A machine whose time-zone database holds the single zone "UTC", with the
    clock stopped at 2023-11-14T22:13:20.123Z and a [Date.parse] that
    understands nothing.  It instantiates the host wherever a statement is
    checked on a concrete input. *)
Definition utcParts (t : Z) : HostParts :=
  let '(y, m, d) := civilFromDays (dayOf t) in
  mkHostParts y m d ((t / 3600000) mod 24) ((t / 60000) mod 60)
              ((t / 1000) mod 60).

Definition utcHost : Host :=
  mkHost (fun tz => str_eqb tz (js "UTC")) (fun _ t => utcParts t)
         (fun _ _ => Some (js "UTC")) (js "UTC") 1700000000123
         (fun _ => None).

Definition utcZone : ZoneSpec := Fixed 0 (js "UTC").

(* ================================================================== *)
(** ** What a successful match says about the subject *)
(* ================================================================== *)

(** [Step r st st']: the pattern [r] can take the matcher from [st] to [st'].
    The relation follows the declarative reading of a pattern; negative
    lookahead is approximated from above (the matcher checks it, the relation
    lets it pass), which is all a soundness statement needs. *)
Inductive Step : re -> mstate -> mstate -> Prop :=
| S_Eps st : Step Eps st st
| S_Chr p c pr rs cs :
    p c = true -> Step (Chr p) (MS pr (c :: rs) cs) (MS (c :: pr) rs cs)
| S_Seq a b s1 s2 s3 : Step a s1 s2 -> Step b s2 s3 -> Step (Seq a b) s1 s3
| S_AltL a b s1 s2 : Step a s1 s2 -> Step (Alt a b) s1 s2
| S_AltR a b s1 s2 : Step b s1 s2 -> Step (Alt a b) s1 s2
| S_Rep lo hi a n s1 s2 :
    Iter a n s1 s2 -> (lo <= n)%nat ->
    (forall h, hi = Some h -> (n <= h)%nat) ->
    Step (Rep lo hi a) s1 s2
| S_Grp n a s1 s2 :
    Step a s1 s2 ->
    Step (Grp n a) s1
         (MS (ms_prev s2) (ms_rest s2)
             (setCap n (consumed (ms_prev s1) (ms_prev s2)) (ms_caps s2)))
| S_Bol rs cs : Step Bol (MS [] rs cs) (MS [] rs cs)
| S_Eol pr cs : Step Eol (MS pr [] cs) (MS pr [] cs)
| S_Wb st :
    xorb (headIs isWord (ms_prev st)) (headIs isWord (ms_rest st)) = true ->
    Step Wb st st
| S_NLook a st : Step (NLook a) st st
with Iter : re -> nat -> mstate -> mstate -> Prop :=
| I_O a s : Iter a 0 s s
| I_S a n s1 s2 s3 : Step a s1 s2 -> Iter a n s2 s3 -> Iter a (S n) s1 s3.

(** The quantifier loop of [mt], named. *)
Definition repLoop (a : re) (k : mstate -> option mstate) :=
  fix rep (fuel lo : nat) (st : mstate) {struct fuel} : option mstate :=
    match fuel with
    | O => match lo with O => k st | S _ => None end
    | S fuel' =>
        match mt a st (fun st' => rep fuel' (pred lo) st') with
        | Some x => Some x
        | None => match lo with O => k st | S _ => None end
        end
    end.

(* ================================================================== *)
(** ** The vocabulary of the statements *)
(* ================================================================== *)

(** The special-cased absolute forms: 14, 8 or 4 units starting with '2'. *)
Definition isAbsoluteForm (input : str) : bool :=
  ((len input =? 14) || (len input =? 8) || (len input =? 4))
  && startsWith (js "2") input.

(** The magnitude rule in the words of the specification: more than 16
    digits are nanoseconds, more than 13 microseconds, more than 10
    milliseconds, anything shorter seconds. *)
Definition epochMilliseconds (input : str) : Z :=
  let n := numberOfDigits input in
  if 16 <? len input then n / 1000000
  else if 13 <? len input then n / 1000
  else if 10 <? len input then n
  else n * 1000.

(** The "UTC guess" of [toInstantFromComponents]. *)
Definition utcGuessOf (c : DateComponents) : num :=
  DateUTC (year c) (month c - 1) (day c) (orZero (hour c))
          (orZero (minute c)) (orZero (second c)) (orZero (millisecond c)).

(** The year-of-era, day-of-year, shifted month and day of month that
    [civilFromDays] computes from the day of the 400-year era. *)
Definition yoeOf (doe : Z) : Z :=
  (doe - doe / 1460 + doe / 36524 - doe / 146096) / 365.
Definition doyOf (doe : Z) : Z :=
  doe - (365 * yoeOf doe + yoeOf doe / 4 - yoeOf doe / 100).
Definition mpOf (doe : Z) : Z := (5 * doyOf doe + 2) / 153.
Definition domOf (doe : Z) : Z := doyOf doe - (153 * mpOf doe + 2) / 5 + 1.

(** Checking a predicate on an interval of integers by evaluation. *)
Fixpoint allFrom (fuel : nat) (i : Z) (p : Z -> bool) : bool :=
  match fuel with
  | O => true
  | S f => if p i then allFrom f (i + 1) p else false
  end.

Definition allBetween (lo hi : Z) (p : Z -> bool) : bool :=
  allFrom (Z.to_nat (hi - lo + 1)) lo p.

Definition digitUnit (k : Z) : Z := 48 + k.

Definition twoDigits (v : Z) : str :=
  [digitUnit (v / 10); digitUnit (v mod 10)].

Definition fourDigits (v : Z) : str :=
  [digitUnit (v / 1000); digitUnit (v / 100 mod 10);
   digitUnit (v / 10 mod 10); digitUnit (v mod 10)].

(** The signed, zero-padded [HH:MM] of an offset in minutes. *)
Definition offsetText (o : Z) : str :=
  (if o >=? 0 then js "+" else js "-")
  ++ twoDigits (Z.abs o / 60) ++ js ":" ++ twoDigits (Z.abs o mod 60).

(** [YYYY-MM-DDTHH:MM:SS], 19 units. *)
Definition isoText (y mo d h mi s : Z) : str :=
  fourDigits y ++ js "-" ++ twoDigits mo ++ js "-" ++ twoDigits d ++ js "T"
  ++ twoDigits h ++ js ":" ++ twoDigits mi ++ js ":" ++ twoDigits s.

(** The shape [YYYY-MM-DDTHH:MM:SS +-HH:MM ZONE] of the specification, as a
    check on a string and the expected zone token. *)
Definition isoShape (out token : str) : bool :=
  match out with
  | y1 :: y2 :: y3 :: y4 :: c1 :: mo1 :: mo2 :: c2 :: d1 :: d2 :: c3
    :: h1 :: h2 :: c4 :: mi1 :: mi2 :: c5 :: s1 :: s2 :: c6
    :: sg :: oh1 :: oh2 :: c7 :: om1 :: om2 :: c8 :: zone =>
      forallb isDigit [y1; y2; y3; y4; mo1; mo2; d1; d2; h1; h2; mi1; mi2;
                       s1; s2; oh1; oh2; om1; om2]
      && str_eqb [c1; c2; c3; c4; c5; c6; c7; c8] (js "--T:: : ")
      && ((sg =? 43) || (sg =? 45))
      && str_eqb zone token
  | _ => false
  end.

(** The zone token of a Named zone at an instant. *)
Definition zoneToken (host : Host) (name : str) (t : Z) : str :=
  match tzShortName host name t with
  | Some v => v
  | None => name
  end.

(** One attempt of [parseSlashDate], on the captures [m] of the input. *)
Definition slashAttempt (host : Host) (m : caps) (z : ZoneSpec) (y mo d : Z)
  : exc (option Date) :=
  parseComponentsWithMeridiem host y mo d
    (numberOr0 (cap m 4)) (numberOr0 (cap m 5)) (numberOr0 (cap m 6))
    (parseFractionMilliseconds (cap m 7)) z (cap m 8).

(** The [attempts] of [parseSlashDate], from the captures [m] of the input:
    one reading when A or C has four digits, two when the three groups have at
    most two digits, none otherwise. *)
Definition slashAttempts (m : caps) : list (Z * Z * Z) :=
  let a := groupText (cap m 1) in
  let b := groupText (cap m 2) in
  let c := groupText (cap m 3) in
  if len a =? 4
  then [(numberOfDigits a, numberOfDigits b, numberOfDigits c)]
  else if len c =? 4
  then [(numberOfDigits c, numberOfDigits a, numberOfDigits b)]
  else if (len a <=? 2) && (len b <=? 2) && (len c <=? 2)
  then [(expandTwoDigitYear (numberOfDigits a), numberOfDigits b,
         numberOfDigits c);
        (expandTwoDigitYear (numberOfDigits c), numberOfDigits a,
         numberOfDigits b)]
  else [].

(** The instant of a date at midnight. *)
Definition midnight (host : Host) (z : ZoneSpec) (y mo d : Z)
  : exc (option Date) :=
  i <- toInstantFromComponents host
         (mkComponents y mo d (Some 0) (Some 0) (Some 0) (Some 0)) z ;;
  Ok (Some i).

(** [YYYY-MM-DDTHH:MM:SS] written from its fourteen digit units. *)
Definition isoUnits (Y1 Y2 Y3 Y4 M1 M2 D1 D2 H1 H2 I1 I2 S1 S2 : Z) : str :=
  [Y1; Y2; Y3; Y4; 45; M1; M2; 45; D1; D2; 84; H1; H2; 58; I1; I2; 58; S1; S2].

(** The text before the first space of a formatted instant: the local date
    and time, with the offset and the zone token stripped. *)
Fixpoint beforeSpace (s : str) : str :=
  match s with
  | [] => []
  | c :: t => if c =? 32 then [] else c :: beforeSpace t
  end.

(** A capture group that, when it took part in the match, holds at most
    [n] digits. *)
Definition digitsGroup (n : nat) (g : option str) : Prop :=
  match g with
  | None => True
  | Some ds => forallb isDigit ds = true /\ (length ds <= n)%nat
  end.

(** The invariant of ZoneSpec: a Named zone carries a name the time-zone
    database accepts. *)
Definition zoneOk (host : Host) (z : ZoneSpec) : Prop :=
  match z with
  | Fixed _ _ => True
  | Iana name _ => tzValid host name = true
  end.

(** The instant [Date.UTC] assembles from the civil fields the host reports. *)
Definition hostPartsUTC (hp : HostParts) : num :=
  DateUTC (hp_year hp) (hp_month hp - 1) (hp_day hp) (hp_hour hp)
          (hp_minute hp) (hp_second hp) 0.

(** What the proof needs of the host: its own zone is in its database, and
    for instants within 3e14 ms of the epoch (the years the parsers can
    produce lie well inside) the civil fields it reports assemble to an
    instant within 1e15 ms of the original. *)
Record hostOk (host : Host) : Prop := mkHostOk {
  local_valid : tzValid host (localTimeZone host) = true;
  parts_sane : forall name t,
    tzValid host name = true -> Z.abs t <= 300000000000000 ->
    exists u, hostPartsUTC (tzParts host name t) = Some u
              /\ Z.abs (u - t) <= 1000000000000000
}.


(** The Gregorian leap-year rule and the length of a month. *)
Definition isLeapYear (y : Z) : bool :=
  ((y mod 4 =? 0) && negb (y mod 100 =? 0)) || (y mod 400 =? 0).

Definition daysInMonth (y m : Z) : Z :=
  if m =? 2 then (if isLeapYear y then 29 else 28)
  else if (m =? 4) || (m =? 6) || (m =? 9) || (m =? 11) then 30
  else 31.

(* ================================================================== *)
(** ** timezone.ts: the list of output zones *)
(* ================================================================== *)

Module Zones.

(** [s.split(",")] for a one-unit separator: the pieces between the
    separators, at least one. *)
Fixpoint split (c : Z) (s : str) : list str :=
  match s with
  | [] => [[]]
  | x :: t =>
      if x =? c then [] :: split c t
      else
        match split c t with
        | piece :: rest => (x :: piece) :: rest
        | [] => [[x]]
        end
  end.

(** [Boolean(s)] for a string. *)
Definition nonEmpty (s : str) : bool :=
  match s with
  | [] => false
  | _ :: _ => true
  end.

Definition zoneKey (zone : ZoneSpec) : str :=
  match zone with
  | Fixed offsetMinutes _ => js "fixed:" ++ toStringZ offsetMinutes
  | Iana name _ => js "iana:" ++ name
  end.

(** The two mutable locals of [parseOutputZones]: the array [zones] and the
    set [seen] of the keys already taken. *)
Record Acc := mkAcc { zones : list ZoneSpec; seen : list str }.

(** [seen.has(key)] *)
Definition has (s : list str) (key : str) : bool := existsb (str_eqb key) s.

Definition pushUnique (acc : Acc) (zone : option ZoneSpec) : Acc :=
  match zone with
  | None => acc
  | Some z =>
      let key := zoneKey z in
      if has (seen acc) key then acc
      else mkAcc (zones acc ++ [z]) (key :: seen acc)
  end.

Section WithHost.

Variable host : Host.

(** [rawList] is [None] when the preference is undefined. *)
Definition parseOutputZones (rawList : option str) (includeLocal : bool)
  : list ZoneSpec :=
  let acc := mkAcc [] [] in
  let acc :=
    if includeLocal then pushUnique acc (parseZone host (js "Local"))
    else acc in
  let rawEntries :=
    option_map (fun l => filter nonEmpty (map trim (split 44 l))) rawList in
  let acc :=
    match rawEntries with
    | Some entries =>
        fold_left (fun a entry => pushUnique a (parseZone host entry))
                  entries acc
    | None => acc
    end in
  let acc :=
    match zones acc with
    | [] => pushUnique acc (parseZone host (js "UTC"))
    | _ :: _ => acc
    end in
  zones acc.

End WithHost.

End Zones.

Import Zones.

(* ================================================================== *)
(** ** time.tsx: what the command computes before it renders *)
(* ================================================================== *)

Module Command.

Record Preferences := mkPreferences {
  defaultInputZone : option str;
  outputZones : option str
}.

(** One row of the "Time Zones" section: the React key, the title and the
    subtitle of a [List.Item]. *)
Record Row := mkRow { rowKey : str; rowTitle : str; rowSubtitle : str }.

Section WithHost.

Variable host : Host.

(** [parseZone(preferences.defaultInputZone ?? "Local") ?? { kind: "fixed",
    offsetMinutes: 0, label: "UTC" }] *)
Definition defaultSourceZone (preferences : Preferences) : ZoneSpec :=
  match parseZone host
          (match defaultInputZone preferences with
           | Some v => v
           | None => js "Local"
           end) with
  | Some zone => zone
  | None => Fixed 0 (js "UTC")
  end.

(** [searchText.trim().length > 0] *)
Definition hasInput (searchText : str) : bool := len (trim searchText) >? 0.

(** [outputZones.map((zone) => ...)] of the "Time Zones" section. *)
Fixpoint zoneRows (date : Date) (zs : list ZoneSpec) : exc (list Row) :=
  match zs with
  | [] => Ok []
  | zone :: rest =>
      value <- formatInstantForZone host date zone ;;
      rows <- zoneRows date rest ;;
      Ok (mkRow (zoneDisplayName zone ++ js ":" ++ value)
                (zoneDisplayName zone) value :: rows)
  end.

End WithHost.

End Command.

Import Command.

(** The loop invariant of [parseOutputZones]: [seen] holds exactly the keys
    of [zones], and no key occurs twice. *)
Definition accOk (acc : Acc) : Prop :=
  (forall key, In key (seen acc) <-> In key (map zoneKey (zones acc)))
  /\ NoDup (map zoneKey (zones acc)).

(** The trimmed, non-empty pieces of the preference. *)
Definition outputEntries (rawList : option str) : list str :=
  match rawList with
  | Some l => filter nonEmpty (map trim (split 44 l))
  | None => []
  end.

(** The zone "Local" resolves to. *)
Definition localZone (host : Host) : ZoneSpec :=
  Iana (localTimeZone host) (Some (js "Local")).

(** The accumulator of [parseOutputZones] after the entries of the
    preference. *)
Definition afterEntries (host : Host) (rawList : option str)
  (includeLocal : bool) : Acc :=
  fold_left (fun a entry => pushUnique a (parseZone host entry))
            (outputEntries rawList)
            (if includeLocal
             then mkAcc [localZone host] [zoneKey (localZone host)]
             else mkAcc [] []).

(** Zones of the same kind with the same offset, or the same name. *)
Definition sameZone (z1 z2 : ZoneSpec) : Prop :=
  match z1, z2 with
  | Fixed o1 _, Fixed o2 _ => o1 = o2
  | Iana n1 _, Iana n2 _ => n1 = n2
  | _, _ => False
  end.

(** A machine whose time-zone database holds the single zone
    "Asia/Shanghai", eight hours ahead of UTC all year, with the clock
    stopped at 2023-11-14T22:13:20.123Z. *)
Definition shanghaiHost : Host :=
  mkHost (fun tz => str_eqb tz (js "Asia/Shanghai"))
         (fun _ t => utcParts (t + 480 * 60000))
         (fun _ _ => Some (js "GMT+8")) (js "Asia/Shanghai") 1700000000123
         (fun _ => None).

(** The host knows the zone [name], and reports for it, at every instant,
    the civil fields of a clock [o] minutes ahead of UTC. *)
Definition reportsOffset (host : Host) (name : str) (o : Z) : Prop :=
  tzValid host name = true
  /\ forall t, tzParts host name t = utcParts (t + o * 60000).

(** The label [parseFixedOffset] gives the fixed zone of [o] minutes. *)
Definition fixedLabel (o : Z) : str := js "UTC" ++ offsetText o.

(** That label is trimmed, is no keyword, and resolves to the fixed zone of
    [o] minutes with the same label: a check by evaluation. *)
Definition labelReparses (o : Z) : bool :=
  str_eqb (trim (fixedLabel o)) (fixedLabel o)
  && negb (test (seq [Bol; liti "local"; Eol]) (fixedLabel o))
  && negb (test (seq [Bol; Grp 1 (Alt (liti "utc") (Alt (liti "gmt") (liti "z")));
                      Eol]) (fixedLabel o))
  && match parseFixedOffset (fixedLabel o) with
     | Some (Fixed o' l') => (o' =? o) && str_eqb l' (fixedLabel o)
     | _ => false
     end.

(** A machine like [utcHost] whose [Date.parse] reads one text, an RFC 1123
    date, and nothing else. *)
Definition rfcHost : Host :=
  mkHost (fun tz => str_eqb tz (js "UTC")) (fun _ t => utcParts t)
         (fun _ _ => Some (js "UTC")) (js "UTC") 1700000000123
         (fun text =>
            if str_eqb text (js "Wed, 30 Jan 2019 13:23:38 GMT")
            then Some 1548854618000 else None).

(* ------------------------------------------------------------------ *)
(** Shapes of texts and of matcher states used by the statements. *)

(** The caps after the hours and the optional minutes. *)
Definition offsetCaps (sg : Z) (hs mm : str) : caps :=
  match mm with
  | [] => setCap 2 hs (setCap 1 [sg] noCaps)
  | _ :: _ => setCap 3 mm (setCap 2 hs (setCap 1 [sg] noCaps))
  end.

(** The minutes of an offset: none, or two digits, after a colon or right
    after a two-digit hour. *)
Definition minutesOk (hs : str) (colon : bool) (mm : str) : Prop :=
  (mm = [] /\ colon = false)
  \/ (length mm = 2%nat /\ forallb isDigit mm = true
      /\ (colon = true \/ length hs = 2%nat)).

(** The text of an offset specifier: a prefix, white space, a sign, white
    space, the hours and the optional minutes. *)
Definition offsetSpecifier (pre sp1 : str) (sg : Z) (sp2 hs : str)
  (colon : bool) (mm : str) : str :=
  pre ++ sp1 ++ sg :: sp2 ++ hs ++ (if colon then [58] else []) ++ mm.

(** What the two offset branches of [parseFixedOffset] compute from the
    groups. *)
Definition offsetOf (sg : Z) (hs mm : str) : Z :=
  (if sg =? 43 then 1 else -1) * (numberOfDigits hs * 60 + numberOfDigits mm).

(** A word under the [i] flag: its units, compared up to case. *)
Definition word (w : str) : re :=
  seq (map (fun y => Chr (fun x => lowerUnit x =? lowerUnit y)) w).





Lemma mstate_eta (st : mstate) : MS (ms_prev st) (ms_rest st) (ms_caps st) = st.
Proof. destruct st; reflexivity. Qed.

Section Soundness.

Lemma mt_Rep lo hi a st k :
  mt (Rep lo hi a) st k
  = repLoop a k (match hi with Some h => h | None => length (ms_rest st) end)
            lo st.
Proof. reflexivity. Qed.

Lemma mt_Seq a b st k :
  mt (Seq a b) st k = mt a st (fun st' => mt b st' k).
Proof. reflexivity. Qed.

Lemma mt_Bol rs cs k : mt Bol (MS [] rs cs) k = k (MS [] rs cs).
Proof. reflexivity. Qed.

Lemma mt_Eol pr cs k : mt Eol (MS pr [] cs) k = k (MS pr [] cs).
Proof. reflexivity. Qed.

Lemma mt_Eps st k : mt Eps st k = k st.
Proof. reflexivity. Qed.

Lemma repLoop_sound a k
  (IH : forall st k' x, mt a st k' = Some x ->
                        exists st', Step a st st' /\ k' st' = Some x) :
  forall fuel lo st x,
    repLoop a k fuel lo st = Some x ->
    exists n st', Iter a n st st' /\ (lo <= n)%nat /\ (n <= fuel)%nat
                  /\ k st' = Some x.
Proof.
  induction fuel as [|fuel IHf]; intros lo st x H; simpl in H.
  - destruct lo; [|discriminate].
    exists 0%nat, st. repeat split; auto. constructor.
  - destruct (mt a st (fun st' => repLoop a k fuel (pred lo) st')) eqn:E.
    + inversion H; subst; clear H.
      apply IH in E. destruct E as (s2 & Hs & Hr).
      apply IHf in Hr. destruct Hr as (n & s3 & Hi & Hlo & Hhi & Hk).
      exists (S n), s3. repeat split; [econstructor; eauto|lia|lia|auto].
    + destruct lo; [|discriminate].
      exists 0%nat, st. repeat split; auto; [constructor|lia].
Qed.

Theorem mt_sound : forall r st k x,
  mt r st k = Some x -> exists st', Step r st st' /\ k st' = Some x.
Proof.
  induction r as [|p|a IHa b IHb|a IHa b IHb|lo hi a IHa|n a IHa| | | |a IHa];
    intros st k x H.
  - exists st. split; [constructor|exact H].
  - simpl in H. destruct st as [pr rs cs]. simpl in H.
    destruct rs as [|c t]; [discriminate|].
    destruct (p c) eqn:E; [|discriminate].
    eexists. split; [constructor; exact E|exact H].
  - simpl in H. apply IHa in H. destruct H as (s2 & H1 & H2).
    apply IHb in H2. destruct H2 as (s3 & H2 & H3).
    exists s3. split; [econstructor; eauto|auto].
  - simpl in H. destruct (mt a st k) eqn:E.
    + inversion H; subst. apply IHa in E. destruct E as (s2 & H1 & H2).
      exists s2. split; [apply S_AltL; auto|auto].
    + apply IHb in H. destruct H as (s2 & H1 & H2).
      exists s2. split; [apply S_AltR; auto|auto].
  - rewrite mt_Rep in H. apply (repLoop_sound a k IHa) in H.
    destruct H as (n & s2 & Hi & Hlo & Hhi & Hk).
    exists s2. split; [|auto].
    econstructor; eauto. intros h Hh. subst hi. exact Hhi.
  - simpl in H. apply IHa in H. destruct H as (s2 & H1 & H2).
    eexists. split; [apply S_Grp; exact H1|exact H2].
  - simpl in H. destruct st as [pr rs cs]. simpl in H.
    destruct pr; [|discriminate].
    eexists. split; [constructor|exact H].
  - simpl in H. destruct st as [pr rs cs]. simpl in H.
    destruct rs; [|discriminate].
    eexists. split; [constructor|exact H].
  - simpl in H.
    destruct (xorb (headIs isWord (ms_prev st)) (headIs isWord (ms_rest st)))
      eqn:E; [|discriminate].
    exists st. split; [constructor; exact E|exact H].
  - simpl in H. destruct (mt a st Some); [discriminate|].
    exists st. split; [constructor|exact H].
Qed.

Lemma searchFrom_sound r : forall rest prev p0 st,
  searchFrom r prev rest = Some (p0, st) ->
  exists skipped rest',
    rest = skipped ++ rest' /\ p0 = rev skipped ++ prev
    /\ Step r (MS p0 rest' noCaps) st.
Proof.
  induction rest as [|c t IH]; intros prev p0 st H; simpl in H.
  - destruct (mt r (MS prev [] noCaps) Some) eqn:E; [|discriminate].
    inversion H; subst. apply mt_sound in E. destruct E as (s' & Hs & Hk).
    inversion Hk; subst. exists [], []. auto.
  - destruct (mt r (MS prev (c :: t) noCaps) Some) eqn:E.
    + inversion H; subst. apply mt_sound in E. destruct E as (s' & Hs & Hk).
      inversion Hk; subst. exists [], (c :: t). auto.
    + apply IH in H. destruct H as (sk & rest' & H1 & H2 & H3).
      exists (c :: sk), rest'. subst. simpl. rewrite <- app_assoc. auto.
Qed.

(** An anchored pattern matches at the start of the subject only. *)
Lemma exec_anchored_sound r s c :
  exec (Seq Bol r) s = Some c ->
  exists st, Step r (MS [] s noCaps) st /\ ms_caps st = c.
Proof.
  unfold exec. destruct (searchFrom (Seq Bol r) [] s) as [[p0 st]|] eqn:E;
    [|discriminate].
  simpl. intros H. inversion H; subst; clear H.
  apply searchFrom_sound in E. destruct E as (sk & rest' & H1 & H2 & H3).
  inversion H3; subst. inversion H4; subst.
  destruct sk as [|x sk]; [|apply (f_equal (@length Z)) in H;
    rewrite app_nil_r, length_rev in H; discriminate].
  simpl. exists st. auto.
Qed.

Lemma test_anchored_sound r s :
  test (Seq Bol r) s = true -> exists st, Step r (MS [] s noCaps) st.
Proof.
  unfold test. destruct (searchFrom (Seq Bol r) [] s) as [[p0 st]|] eqn:E;
    [|discriminate].
  intros _. assert (H : exec (Seq Bol r) s = Some (ms_caps st))
    by (unfold exec; rewrite E; reflexivity).
  apply exec_anchored_sound in H. destruct H as (st' & H & _). eauto.
Qed.

End Soundness.

(** *** Inversion of [Step] on the shapes the patterns are built from *)

Lemma consumed_app (ds pr : str) : consumed pr (rev ds ++ pr) = ds.
Proof.
  unfold consumed. rewrite length_app, length_rev.
  replace (length ds + length pr - length pr)%nat with (length (rev ds)) by
    (rewrite length_rev; lia).
  rewrite firstn_app, firstn_all, Nat.sub_diag. simpl.
  rewrite app_nil_r. apply rev_involutive.
Qed.

Lemma consumed_one (c : Z) (pr : str) : consumed pr (c :: pr) = [c].
Proof. apply (consumed_app [c]). Qed.

Lemma Step_Chr_inv p pr rs0 cs st' :
  Step (Chr p) (MS pr rs0 cs) st' ->
  exists c rs, rs0 = c :: rs /\ p c = true /\ st' = MS (c :: pr) rs cs.
Proof. intros H. inversion H; subst. eauto. Qed.

Lemma Step_Seq_inv a b s1 s3 :
  Step (Seq a b) s1 s3 -> exists s2, Step a s1 s2 /\ Step b s2 s3.
Proof. intros H. inversion H; subst. eauto. Qed.

Lemma Step_Alt_inv a b s1 s2 :
  Step (Alt a b) s1 s2 -> Step a s1 s2 \/ Step b s1 s2.
Proof. intros H. inversion H; subst; auto. Qed.

Lemma Step_Eps_inv s1 s2 : Step Eps s1 s2 -> s2 = s1.
Proof. intros H. inversion H; subst; auto. Qed.

Lemma Step_Eol_inv s1 s2 : Step Eol s1 s2 -> s2 = s1 /\ ms_rest s1 = [].
Proof. intros H. inversion H; subst; auto. Qed.

Lemma Step_Grp_inv n a s1 s3 :
  Step (Grp n a) s1 s3 ->
  exists s2, Step a s1 s2
    /\ s3 = MS (ms_prev s2) (ms_rest s2)
              (setCap n (consumed (ms_prev s1) (ms_prev s2)) (ms_caps s2)).
Proof. intros H. inversion H; subst. eauto. Qed.

Lemma Iter_Chr_inv p : forall n pr rs0 cs st',
  Iter (Chr p) n (MS pr rs0 cs) st' ->
  exists ds rs, rs0 = ds ++ rs /\ st' = MS (rev ds ++ pr) rs cs
    /\ length ds = n /\ forallb p ds = true.
Proof.
  induction n as [|n IH]; intros pr rs0 cs st' H; inversion H; subst.
  - exists [], rs0. auto.
  - match goal with
    | H1 : Step (Chr p) _ _ |- _ =>
        apply Step_Chr_inv in H1; destruct H1 as (c & rs & -> & Hp & ->)
    end.
    match goal with
    | H2 : Iter (Chr p) _ _ _ |- _ =>
        apply IH in H2; destruct H2 as (ds & rs' & -> & -> & Hl & Hf)
    end.
    exists (c :: ds), rs'. simpl. rewrite <- app_assoc, Hp, Hf. simpl.
    repeat split; auto.
Qed.

(** A quantified character class consumes a run of units of the class. *)
Lemma Step_Rep_Chr_inv lo hi p pr rs0 cs st' :
  Step (Rep lo hi (Chr p)) (MS pr rs0 cs) st' ->
  exists ds rs, rs0 = ds ++ rs /\ st' = MS (rev ds ++ pr) rs cs
    /\ (lo <= length ds)%nat /\ (forall h, hi = Some h -> (length ds <= h)%nat)
    /\ forallb p ds = true.
Proof.
  intros H. inversion H as [| | | | |lo' hi' a' n s1 s2 Hi Hlo Hhi| | | | |];
    subst.
  apply Iter_Chr_inv in Hi. destruct Hi as (ds & rs & -> & -> & Hl & Hf).
  exists ds, rs. subst n. auto.
Qed.

Lemma Step_Grp_Rep_Chr_inv g lo hi p pr rs0 cs st' :
  Step (Grp g (Rep lo hi (Chr p))) (MS pr rs0 cs) st' ->
  exists ds rs, rs0 = ds ++ rs /\ st' = MS (rev ds ++ pr) rs (setCap g ds cs)
    /\ (lo <= length ds)%nat /\ (forall h, hi = Some h -> (length ds <= h)%nat)
    /\ forallb p ds = true.
Proof.
  intros H. apply Step_Grp_inv in H. destruct H as (s2 & H & ->).
  apply Step_Rep_Chr_inv in H. destruct H as (ds & rs & -> & -> & Hlo & Hhi & Hf).
  exists ds, rs. simpl. rewrite consumed_app. auto.
Qed.

Lemma Step_Grp_Chr_inv g p pr rs0 cs st' :
  Step (Grp g (Chr p)) (MS pr rs0 cs) st' ->
  exists c rs, rs0 = c :: rs /\ p c = true
    /\ st' = MS (c :: pr) rs (setCap g [c] cs).
Proof.
  intros H. apply Step_Grp_inv in H. destruct H as (s2 & H & ->).
  apply Step_Chr_inv in H. destruct H as (c & rs & -> & Hp & ->).
  exists c, rs. simpl. rewrite consumed_one. auto.
Qed.

Lemma Step_opt_inv a s1 s2 :
  Step (opt a) s1 s2 -> s2 = s1 \/ Step a s1 s2.
Proof.
  intros H. inversion H as [| | | | |lo' hi' a' n s1' s2' Hi Hlo Hhi| | | | |];
    subst.
  destruct n as [|[|n]].
  - inversion Hi; subst. auto.
  - inversion Hi as [|a' n' t1 t2 t3 Hs Hi']; subst.
    inversion Hi'; subst. auto.
  - specialize (Hhi 1%nat eq_refl). lia.
Qed.

(* ================================================================== *)
(** ** When a quantified class is sure to match *)
(* ================================================================== *)

(** A greedy quantifier over a character class takes the whole run [ds] of
    units of the class when it may ([lo <= length ds <= fuel]) and the run
    cannot be extended; if the rest of the pattern then succeeds, that is the
    match. *)
Lemma repLoop_chr_greedy p k x : forall ds fuel lo pr rs cs,
  forallb p ds = true ->
  (length ds <= fuel)%nat -> (lo <= length ds)%nat ->
  headIs p rs = false \/ length ds = fuel ->
  k (MS (rev ds ++ pr) rs cs) = Some x ->
  repLoop (Chr p) k fuel lo (MS pr (ds ++ rs) cs) = Some x.
Proof.
  induction ds as [|d ds IH]; intros fuel lo pr rs cs Hp Hf Hlo Hend Hk.
  - simpl in *. assert (lo = 0%nat) by lia. subst lo.
    destruct fuel as [|f]; simpl; [exact Hk|].
    destruct rs as [|c t]; [exact Hk|].
    destruct Hend as [Hh|Hh]; [|discriminate].
    simpl in Hh. rewrite Hh. exact Hk.
  - simpl in Hp. apply andb_true_iff in Hp. destruct Hp as [Hd Hp].
    destruct fuel as [|f]; [simpl in Hf; lia|].
    cbn [repLoop app mt ms_rest ms_prev ms_caps]. rewrite Hd.
    change ((fix rep (fuel lo : nat) (st : mstate) {struct fuel} :=
               match fuel with
               | O => match lo with O => k st | S _ => None end
               | S fuel' =>
                   match mt (Chr p) st (fun st' => rep fuel' (pred lo) st') with
                   | Some x => Some x
                   | None => match lo with O => k st | S _ => None end
                   end
               end) f (pred lo) (MS (d :: pr) (ds ++ rs) cs))
      with (repLoop (Chr p) k f (pred lo) (MS (d :: pr) (ds ++ rs) cs)).
    rewrite (IH f (pred lo) (d :: pr) rs cs); auto.
    + simpl in Hf. lia.
    + simpl in Hlo. lia.
    + destruct Hend as [Hh|Hh]; [auto|right; simpl in Hh; lia].
    + simpl in Hk. rewrite <- app_assoc in Hk. exact Hk.
Qed.

Lemma numberOfDigits_acc (s : str) : forall acc,
  fold_left (fun a c => a * 10 + digitVal c) s acc
  = acc * 10 ^ len s + numberOfDigits s.
Proof.
  unfold numberOfDigits, len.
  induction s as [|c s IH]; intros acc.
  - simpl. lia.
  - cbn [fold_left length]. rewrite IH, (IH (0 * 10 + digitVal c)).
    rewrite Nat2Z.inj_succ, Z.pow_succ_r by lia. lia.
Qed.

Lemma numberOfDigits_cons (c : Z) (s : str) :
  numberOfDigits (c :: s) = digitVal c * 10 ^ len s + numberOfDigits s.
Proof.
  unfold numberOfDigits at 1. cbn [fold_left].
  rewrite numberOfDigits_acc. lia.
Qed.

Lemma isDigit_bounds (c : Z) : isDigit c = true -> 0 <= digitVal c <= 9.
Proof. unfold isDigit, digitVal. lia. Qed.

(** A string of [n] digits denotes a number below [10^n]. *)
Lemma numberOfDigits_range (s : str) :
  forallb isDigit s = true -> 0 <= numberOfDigits s < 10 ^ len s.
Proof.
  induction s as [|c s IH]; intros H.
  - cbn. lia.
  - simpl in H. apply andb_true_iff in H. destruct H as [Hc Hs].
    specialize (IH Hs). apply isDigit_bounds in Hc.
    rewrite numberOfDigits_cons.
    unfold len in *. cbn [length]. rewrite Nat2Z.inj_succ, Z.pow_succ_r by lia.
    nia.
Qed.

(** [/^\d+$/] accepts exactly the non-empty strings of digits. *)
Lemma allDigits_complete (s : str) :
  s <> [] -> forallb isDigit s = true -> test allDigitsPattern s = true.
Proof.
  intros Hne Hd. unfold test.
  destruct s as [|c t]; [congruence|].
  cbn [searchFrom].
  assert (E : mt allDigitsPattern (MS [] (c :: t) noCaps) Some
              = Some (MS (rev (c :: t)) [] noCaps)).
  { unfold allDigitsPattern, seq, plus, digit. cbn [fold_right].
    rewrite mt_Seq, mt_Bol, mt_Seq, mt_Rep. cbn [ms_rest].
    pose proof (repLoop_chr_greedy isDigit (fun st' => mt (Seq Eol Eps) st' Some)
                  (MS (rev (c :: t)) [] noCaps) (c :: t) (length (c :: t)) 1
                  [] [] noCaps Hd) as G.
    rewrite !app_nil_r in G. apply G.
    - lia.
    - cbn [length]. lia.
    - auto.
    - reflexivity. }
  rewrite E. reflexivity.
Qed.

Lemma allDigits_sound (s : str) :
  test allDigitsPattern s = true -> s <> [] /\ forallb isDigit s = true.
Proof.
  intros H. apply test_anchored_sound in H. destruct H as (st & H).
  cbn [fold_right] in H.
  apply Step_Seq_inv in H. destruct H as (s2 & H1 & H2).
  apply Step_Rep_Chr_inv in H1.
  destruct H1 as (ds & rs & -> & -> & Hlo & _ & Hf).
  apply Step_Seq_inv in H2. destruct H2 as (s3 & H2 & H3).
  apply Step_Eol_inv in H2. destruct H2 as [-> Hr]. simpl in Hr. subst rs.
  rewrite app_nil_r. split; [|exact Hf].
  destruct ds; simpl in Hlo; [lia|discriminate].
Qed.

(* ================================================================== *)
(** ** Two-digit years (C7) *)
(* ================================================================== *)

(** C7.  Two-digit year expansion: for every value [v] in 0..99, [v >= 69]
    expands to [1900 + v] and [v < 69] to [2000 + v]; token 69 gives 1969,
    token 68 gives 2068 and token 00 gives 2000, so the boundary lies exactly
    between 68 and 69. *)
Theorem expandTwoDigitYear_boundary :
  (forall v, 0 <= v <= 99 ->
     (69 <= v -> expandTwoDigitYear v = 1900 + v)
     /\ (v < 69 -> expandTwoDigitYear v = 2000 + v))
  /\ expandTwoDigitYear (numberOfDigits (js "69")) = 1969
  /\ expandTwoDigitYear (numberOfDigits (js "68")) = 2068
  /\ expandTwoDigitYear (numberOfDigits (js "00")) = 2000.
Proof.
  split; [|repeat split].
  intros v _. unfold expandTwoDigitYear.
  destruct (Z.geb_spec v 69); split; intros; lia || reflexivity.
Qed.

Lemma expandTwoDigitYear_boundary_witness :
  0 <= 68 <= 99 /\ expandTwoDigitYear 68 = 2000 + 68
  /\ 0 <= 69 <= 99 /\ expandTwoDigitYear 69 = 1900 + 69.
Proof.
  split; [lia|]. split.
  - apply (proj1 expandTwoDigitYear_boundary 68); lia.
  - split; [lia|]. apply (proj1 expandTwoDigitYear_boundary 69); lia.
Defined.

(* ================================================================== *)
(** ** The epoch heuristic of [parseNumeric] (C1) *)
(* ================================================================== *)

Lemma doubleOverflow_large : maxDateMilliseconds < doubleOverflow.
Proof. reflexivity. Qed.

Lemma epochMilliseconds_nonneg (input : str) :
  forallb isDigit input = true -> 0 <= epochMilliseconds input.
Proof.
  intros H. apply numberOfDigits_range in H. unfold epochMilliseconds.
  destruct (16 <? len input); [apply Z.div_pos; lia|].
  destruct (13 <? len input); [apply Z.div_pos; lia|].
  destruct (10 <? len input); lia.
Qed.

Lemma epochMilliseconds_code (input : str) :
  (if len input >? 16 then numberOfDigits input / 1000000
   else if len input >? 13 then numberOfDigits input / 1000
   else if len input >? 10 then numberOfDigits input
   else numberOfDigits input * 1000)
  = epochMilliseconds input.
Proof. unfold epochMilliseconds. rewrite !Z.gtb_ltb. reflexivity. Qed.

Lemma epoch_range_check (ms : Z) :
  0 <= ms ->
  (if doubleOverflow <=? ms then Ok None
   else if (ms <? 0) || (Z.abs ms >? maxDateMilliseconds) then Ok None
   else Ok (Some (newDate (Some ms))))
  = Ok (if ms <=? maxDateMilliseconds then Some (mkDate (Some ms)) else None).
Proof.
  intros Hpos. pose proof doubleOverflow_large.
  destruct (Z.leb_spec ms maxDateMilliseconds).
  - destruct (Z.leb_spec doubleOverflow ms); [lia|].
    destruct (Z.ltb_spec ms 0); [lia|].
    destruct (Z.gtb_spec (Z.abs ms) maxDateMilliseconds); [lia|].
    cbn [orb]. unfold newDate, TimeClip.
    destruct (Z.leb_spec (Z.abs ms) maxTime);
      [reflexivity|unfold maxTime, maxDateMilliseconds in *; lia].
  - destruct (Z.leb_spec doubleOverflow ms); [reflexivity|].
    destruct (Z.gtb_spec (Z.abs ms) maxDateMilliseconds); [|lia].
    rewrite orb_true_r. reflexivity.
Qed.

Lemma parseNumeric_epoch host input z :
  input <> [] -> forallb isDigit input = true -> isAbsoluteForm input = false ->
  parseNumeric host input z
  = Ok (if epochMilliseconds input <=? maxDateMilliseconds
        then Some (mkDate (Some (epochMilliseconds input)))
        else None).
Proof.
  intros Hne Hd Hab. pose proof (epochMilliseconds_nonneg input Hd) as Hpos.
  unfold parseNumeric. rewrite (allDigits_complete input Hne Hd).
  cbn [negb]. rewrite epochMilliseconds_code.
  assert (T : forall n, (len input =? n) && startsWith (js "2") input = true ->
                        n = 14 \/ n = 8 \/ n = 4 -> False).
  { intros n Hn Hcase. apply andb_true_iff in Hn. destruct Hn as [Hl Hs].
    unfold isAbsoluteForm in Hab. rewrite Hs, andb_true_r in Hab.
    apply Z.eqb_eq in Hl.
    destruct Hcase as [->|[->| ->]]; rewrite Hl in Hab; discriminate. }
  destruct ((len input =? 14) && startsWith (js "2") input) eqn:E14;
    [exfalso; eapply T; eauto|].
  destruct ((len input =? 8) && startsWith (js "2") input) eqn:E8;
    [exfalso; eapply T; eauto|].
  destruct ((len input =? 4) && startsWith (js "2") input) eqn:E4;
    [exfalso; eapply T; eauto|].
  apply epoch_range_check. exact Hpos.
Qed.

(** C1.  For every all-digit input that is not one of the special absolute
    forms, [parseNumeric] reads the magnitude off the digit count (more than
    16: nanoseconds, divided by 1e6; more than 13: microseconds, divided by
    1e3; more than 10: milliseconds; otherwise seconds, times 1e3) and
    declines exactly when the millisecond value leaves the range of instants
    (it is never negative); "1548854618", "1548854618000",
    "1548854618000000" and "1548854618000000000" all give the instant
    1548854618000 ms. *)
Theorem parseNumeric_epoch_heuristic :
  (forall host input z,
     input <> [] -> forallb isDigit input = true ->
     isAbsoluteForm input = false ->
     let ms := epochMilliseconds input in
     0 <= ms
     /\ (ms <= 8640000000000000 ->
         parseNumeric host input z = Ok (Some (mkDate (Some ms))))
     /\ (ms < 0 \/ Z.abs ms > 8640000000000000 ->
         parseNumeric host input z = Ok None))
  /\ (forall host z,
        parseNumeric host (js "1548854618") z
        = Ok (Some (mkDate (Some 1548854618000)))
        /\ parseNumeric host (js "1548854618000") z
           = Ok (Some (mkDate (Some 1548854618000)))
        /\ parseNumeric host (js "1548854618000000") z
           = Ok (Some (mkDate (Some 1548854618000)))
        /\ parseNumeric host (js "1548854618000000000") z
           = Ok (Some (mkDate (Some 1548854618000)))).
Proof.
  split.
  - intros host input z Hne Hd Hab ms.
    pose proof (epochMilliseconds_nonneg input Hd) as Hpos.
    pose proof (parseNumeric_epoch host input z Hne Hd Hab) as E.
    fold ms in Hpos, E. unfold maxDateMilliseconds in E.
    split; [exact Hpos|]. split; intros H.
    + rewrite E. destruct (Z.leb_spec ms 8640000000000000); [reflexivity|lia].
    + rewrite E. destruct (Z.leb_spec ms 8640000000000000); [lia|reflexivity].
  - intros host z. repeat split; reflexivity.
Qed.

Lemma parseNumeric_epoch_heuristic_witness :
  js "1700000000999" <> []
  /\ forallb isDigit (js "1700000000999") = true
  /\ isAbsoluteForm (js "1700000000999") = false
  /\ parseNumeric utcHost (js "1700000000999") utcZone
     = Ok (Some (mkDate (Some 1700000000999))).
Proof.
  split; [discriminate|]. split; [reflexivity|]. split; [reflexivity|].
  apply (proj1 (proj2 (proj1 parseNumeric_epoch_heuristic utcHost
                         (js "1700000000999") utcZone
                         ltac:(discriminate) eq_refl eq_refl))).
  vm_compute. discriminate.
Defined.

(* ================================================================== *)
(** ** Tactics for patterns *)
(* ================================================================== *)

(** Expose the structure of a pattern in a hypothesis [Step pat st st']. *)
Ltac pat_unfold H :=
  unfold etcPattern, offsetPattern, bareOffsetPattern, compact14Pattern,
    compact8Pattern, chinesePattern, plainDatePattern, yearMonthPattern,
    monthTextPattern, dateTimePattern, slashPattern, dayMonthNamePattern,
    monthNamePattern, ansiPattern, agoPattern, allDigitsPattern, timeTail in H;
  unfold range, times, plus, star, opt, digit, space, alpha, ch, ci, lit,
    liti, seq, signUnit, unit1 in H;
  cbn in H.

(** Decompose [Step] hypotheses on a structured pattern, left to right. *)
Ltac step_inv :=
  repeat match goal with
  | H : Step (Seq _ _) _ _ |- _ =>
      apply Step_Seq_inv in H; destruct H as (? & ? & ?)
  | H : Step Eps _ _ |- _ => apply Step_Eps_inv in H; subst
  | H : Step Eol _ _ |- _ =>
      apply Step_Eol_inv in H; destruct H as [? ?]; subst
  | H : Step (Grp _ (Rep _ _ (Chr _))) (MS _ _ _) _ |- _ =>
      apply Step_Grp_Rep_Chr_inv in H;
      destruct H as (? & ? & ? & ? & ? & ? & ?); subst
  | H : Step (Grp _ (Chr _)) (MS _ _ _) _ |- _ =>
      apply Step_Grp_Chr_inv in H; destruct H as (? & ? & ? & ? & ?); subst
  | H : Step (Rep _ _ (Chr _)) (MS _ _ _) _ |- _ =>
      apply Step_Rep_Chr_inv in H;
      destruct H as (? & ? & ? & ? & ? & ? & ?); subst
  | H : Step (Chr _) (MS _ _ _) _ |- _ =>
      apply Step_Chr_inv in H; destruct H as (? & ? & ? & ? & ?); subst
  | H : Step (Rep 0 (Some 1%nat) _) _ _ |- _ =>
      apply Step_opt_inv in H; destruct H as [?|?]; subst
  | H : Step (Alt _ _) _ _ |- _ =>
      apply Step_Alt_inv in H; destruct H as [?|?]
  | H : Step (Grp _ _) (MS _ _ _) _ |- _ =>
      apply Step_Grp_inv in H; destruct H as (? & ? & ?); subst
  | _ => progress cbn [ms_prev ms_rest ms_caps] in *
  | _ => progress subst
  end.

(** Facts about single code units, by arithmetic on their bounds. *)
Ltac unit_lia :=
  unfold upperUnit, lowerUnit, isAlpha, isUpper, isLower, isDigit, isSpace,
    isWord in *;
  repeat match goal with
  | H : (_ && _) = true |- _ => apply andb_true_iff in H; destruct H
  | H : (_ || _) = true |- _ => apply orb_true_iff in H; destruct H
  | H : (_ =? _) = true |- _ => apply Z.eqb_eq in H
  | H : (_ <=? _) = true |- _ => apply Z.leb_le in H
  | H : (_ =? _) = false |- _ => apply Z.eqb_neq in H
  | H : context [if ?b then _ else _] |- _ => destruct b eqn:?
  | |- context [if ?b then _ else _] => destruct b eqn:?
  end;
  try lia.

(* ================================================================== *)
(** ** AM / PM (C10) *)
(* ================================================================== *)

Lemma consumed_two (a b : Z) (pr : str) : consumed pr (b :: a :: pr) = [a; b].
Proof. apply (consumed_app [a; b]). Qed.

Lemma ci_upper (x k : Z) :
  97 <= k <= 122 -> (lowerUnit x =? k) = true -> upperUnit x = k - 32.
Proof. intros Hk H. unit_lia. Qed.

Ltac meridiem_done :=
  match goal with
  | Hc : cap _ _ = Some _ |- _ =>
      cbn in Hc; try discriminate; rewrite ?consumed_two in Hc;
      inversion Hc; subst; clear Hc
  end;
  unfold toUpperCase; cbn [map];
  repeat match goal with
  | H : (lowerUnit ?x =? ?k) = true |- _ =>
      apply (ci_upper x k ltac:(lia)) in H; cbn in H
  end;
  solve [left; cbn; congruence | right; cbn; congruence].

(** The meridiem group of each pattern holds "AM" or "PM" in some case. *)
Lemma slash_meridiem input m mer :
  exec slashPattern input = Some m -> cap m 8 = Some mer ->
  toUpperCase mer = js "AM" \/ toUpperCase mer = js "PM".
Proof.
  intros H Hc. apply exec_anchored_sound in H. destruct H as (st & H & <-).
  pat_unfold H. step_inv; meridiem_done.
Qed.

Lemma dateTime_meridiem input m mer :
  exec dateTimePattern input = Some m -> cap m 8 = Some mer ->
  toUpperCase mer = js "AM" \/ toUpperCase mer = js "PM".
Proof.
  intros H Hc. apply exec_anchored_sound in H. destruct H as (st & H & <-).
  pat_unfold H. step_inv; meridiem_done.
Qed.

Lemma monthName_meridiem input m mer :
  exec monthNamePattern input = Some m -> cap m 7 = Some mer ->
  toUpperCase mer = js "AM" \/ toUpperCase mer = js "PM".
Proof.
  intros H Hc. apply exec_anchored_sound in H. destruct H as (st & H & <-).
  pat_unfold H. step_inv; meridiem_done.
Qed.

Lemma applyMeridiem_none (h : Z) : applyMeridiem h None = Some h.
Proof. reflexivity. Qed.

Lemma meridiem_nonempty (mer : str) :
  toUpperCase mer = js "AM" \/ toUpperCase mer = js "PM" ->
  exists c t, mer = c :: t.
Proof. destruct mer as [|c t]; [intros [H|H]; discriminate|eauto]. Qed.

Lemma applyMeridiem_out_of_range (h : Z) (mer : str) :
  toUpperCase mer = js "AM" \/ toUpperCase mer = js "PM" ->
  h < 1 \/ 12 < h -> applyMeridiem h (Some mer) = None.
Proof.
  intros Hm Hh. destruct (meridiem_nonempty mer Hm) as (c & t & ->).
  unfold applyMeridiem.
  destruct (Z.ltb_spec h 1); [reflexivity|].
  destruct (Z.gtb_spec h 12); [reflexivity|lia].
Qed.

Lemma applyMeridiem_AM (h : Z) (mer : str) :
  toUpperCase mer = js "AM" -> 1 <= h <= 12 ->
  applyMeridiem h (Some mer) = Some (if h =? 12 then 0 else h).
Proof.
  intros Hm Hh. destruct (meridiem_nonempty mer (or_introl Hm)) as (c & t & ->).
  unfold applyMeridiem. rewrite Hm.
  destruct (Z.ltb_spec h 1); [lia|].
  destruct (Z.gtb_spec h 12); [lia|]. reflexivity.
Qed.

Lemma applyMeridiem_PM (h : Z) (mer : str) :
  toUpperCase mer = js "PM" -> 1 <= h <= 12 ->
  applyMeridiem h (Some mer) = Some (if h =? 12 then 12 else h + 12).
Proof.
  intros Hm Hh. destruct (meridiem_nonempty mer (or_intror Hm)) as (c & t & ->).
  unfold applyMeridiem. rewrite Hm.
  destruct (Z.ltb_spec h 1); [lia|].
  destruct (Z.gtb_spec h 12); [lia|]. reflexivity.
Qed.

(** *** The date-time form of [parseDashDate] excludes the three shorter
    forms: it contains a colon and they cannot. *)

Lemma no_colon_run (p : Z -> bool) (ds : str) :
  (forall c, p c = true -> c <> 58) ->
  forallb p ds = true -> existsb (Z.eqb 58) ds = false.
Proof.
  intros Hp. induction ds as [|c ds IH]; [reflexivity|].
  cbn [forallb existsb]. intros H. apply andb_true_iff in H.
  destruct H as [Hc Hd]. rewrite (IH Hd), orb_false_r.
  apply Z.eqb_neq. intros E. apply (Hp c Hc). congruence.
Qed.

Lemma no_colon_digits (ds : str) :
  forallb isDigit ds = true -> existsb (Z.eqb 58) ds = false.
Proof. apply no_colon_run. intros c H. unit_lia. Qed.

Lemma no_colon_alpha (ds : str) :
  forallb isAlpha ds = true -> existsb (Z.eqb 58) ds = false.
Proof. apply no_colon_run. intros c H. unit_lia. Qed.

Ltac colon_free :=
  unfold includes;
  repeat (rewrite existsb_app || cbn [existsb]);
  repeat match goal with
  | H : forallb isDigit ?d = true |- context [existsb (Z.eqb 58) ?d] =>
      rewrite (no_colon_digits d H)
  | H : forallb isAlpha ?d = true |- context [existsb (Z.eqb 58) ?d] =>
      rewrite (no_colon_alpha d H)
  | H : (45 =? ?x) = true |- context [58 =? ?x] =>
      replace (58 =? x) with false by (symmetry; apply Z.eqb_neq; unit_lia)
  end;
  reflexivity.

Lemma plainDate_no_colon input m :
  exec plainDatePattern input = Some m -> includes 58 input = false.
Proof.
  intros H. apply exec_anchored_sound in H. destruct H as (st & H & <-).
  pat_unfold H. step_inv. colon_free.
Qed.

Lemma yearMonth_no_colon input m :
  exec yearMonthPattern input = Some m -> includes 58 input = false.
Proof.
  intros H. apply exec_anchored_sound in H. destruct H as (st & H & <-).
  pat_unfold H. step_inv. colon_free.
Qed.

Lemma monthText_no_colon input m :
  exec monthTextPattern input = Some m -> includes 58 input = false.
Proof.
  intros H. apply exec_anchored_sound in H. destruct H as (st & H & <-).
  pat_unfold H. step_inv. colon_free.
Qed.

Lemma dateTime_colon input m :
  exec dateTimePattern input = Some m -> includes 58 input = true.
Proof.
  intros H. apply exec_anchored_sound in H. destruct H as (st & H & <-).
  pat_unfold H. step_inv.
  all: unfold includes; repeat (rewrite existsb_app || cbn [existsb]).
  all: repeat match goal with
       | H : (58 =? ?x) = true |- _ => rewrite H
       end.
  all: rewrite ?orb_true_r; reflexivity.
Qed.

(** On an input of the date-time form, [parseDashDate] is its last branch. *)
Lemma parseDashDate_dateTime host input z m :
  exec dateTimePattern input = Some m ->
  parseDashDate host input z
  = parseComponentsWithMeridiem host
      (numberOf (cap m 1)) (numberOf (cap m 2)) (numberOf (cap m 3))
      (numberOf (cap m 4)) (numberOf (cap m 5)) (numberOr0 (cap m 6))
      (parseFractionMilliseconds (cap m 7)) z (cap m 8).
Proof.
  intros H. pose proof (dateTime_colon input m H) as Hc.
  unfold parseDashDate.
  destruct (exec plainDatePattern input) eqn:E1;
    [apply plainDate_no_colon in E1; congruence|].
  destruct (exec yearMonthPattern input) eqn:E2;
    [apply yearMonth_no_colon in E2; congruence|].
  destruct (exec monthTextPattern input) eqn:E3;
    [apply monthText_no_colon in E3; congruence|].
  rewrite H. reflexivity.
Qed.

Lemma firstCandidate_declines host attempts h mi s ms z mer :
  applyMeridiem h mer = None ->
  firstCandidate host attempts h mi s ms z mer = Ok None.
Proof.
  intros H. induction attempts as [|[[y mo] d] rest IH]; [reflexivity|].
  cbn [firstCandidate]. unfold parseComponentsWithMeridiem at 1. rewrite H.
  cbn [bind]. exact IH.
Qed.

(** With an hour the meridiem accepts, a date is built from the 24-hour
    hour, as it is without a meridiem. *)
Lemma components_meridiem host y mo d h mi s ms z mer h' :
  applyMeridiem h mer = Some h' ->
  parseComponentsWithMeridiem host y mo d h mi s ms z mer
  = buildDateFromComponents host
      (mkComponents y mo d (Some h') (Some mi) (Some s) (Some ms)) z.
Proof. intros H. unfold parseComponentsWithMeridiem. rewrite H. reflexivity. Qed.

Lemma firstCandidate_meridiem host attempts h mi s ms z mer h' :
  applyMeridiem h mer = Some h' ->
  firstCandidate host attempts h mi s ms z mer
  = firstCandidate host attempts h' mi s ms z None.
Proof.
  intros H. induction attempts as [|[[y mo] d] rest IH]; [reflexivity|].
  cbn [firstCandidate].
  rewrite (components_meridiem host y mo d h mi s ms z mer h' H).
  rewrite (components_meridiem host y mo d h' mi s ms z None h' eq_refl).
  rewrite IH. reflexivity.
Qed.

Lemma parseSlashDate_attempts host input z m :
  exec slashPattern input = Some m ->
  parseSlashDate host input z
  = firstCandidate host (slashAttempts m)
      (numberOr0 (cap m 4)) (numberOr0 (cap m 5)) (numberOr0 (cap m 6))
      (parseFractionMilliseconds (cap m 7)) z (cap m 8).
Proof. intros H. unfold parseSlashDate. rewrite H. reflexivity. Qed.

Lemma parseMonthNameDate_components host input z m :
  exec monthNamePattern (trim input) = Some m ->
  parseMonthNameDate host input z
  = match parseMonthToken (groupText (cap m 1)) with
    | None => Ok None
    | Some month =>
        parseComponentsWithMeridiem host
          (numberOf (cap m 3)) month (numberOf (cap m 2))
          (numberOr0 (cap m 4)) (numberOr0 (cap m 5)) (numberOr0 (cap m 6))
          0 z (cap m 7)
    end.
Proof. intros H. unfold parseMonthNameDate. rewrite H. reflexivity. Qed.

(** C10.  AM/PM semantics.  Without a meridiem the hour passes through
    unmodified.  With one, the hour token must lie in 1..12 or the parser
    declines; 12 AM is hour 0, 12 PM is hour 12, 1..11 PM gain 12 and 1..11 AM
    are unchanged.  This holds for each parser that accepts a meridiem: on
    every input its pattern matches, the date-time form of dash-date,
    slash-date and month-name hand their hour token and the captured
    "AM"/"PM" (in any case) to [applyMeridiem], decline when the hour token
    is outside 1..12, and otherwise build their date from the 24-hour hour:
    0 for 12 AM, the token for 1..11 AM, 12 for 12 PM, the token plus 12 for
    1..11 PM.  Slash-date builds each of its readings from that hour, as it
    does from the hour token itself when there is no meridiem. *)
Theorem meridiem_semantics :
  (forall h, applyMeridiem h None = Some h)
  /\ (forall h mer,
        toUpperCase mer = js "AM" \/ toUpperCase mer = js "PM" ->
        h < 1 \/ 12 < h -> applyMeridiem h (Some mer) = None)
  /\ (forall h mer,
        toUpperCase mer = js "AM" -> 1 <= h <= 12 ->
        applyMeridiem h (Some mer) = Some (if h =? 12 then 0 else h))
  /\ (forall h mer,
        toUpperCase mer = js "PM" -> 1 <= h <= 12 ->
        applyMeridiem h (Some mer) = Some (if h =? 12 then 12 else h + 12))
  /\ (forall host y mo d h mi s ms z mer,
        parseComponentsWithMeridiem host y mo d h mi s ms z mer
        = match applyMeridiem h mer with
          | None => Ok None
          | Some h' =>
              buildDateFromComponents host
                (mkComponents y mo d (Some h') (Some mi) (Some s) (Some ms)) z
          end)
  /\ (forall host input z m,
        exec dateTimePattern input = Some m ->
        parseDashDate host input z
        = parseComponentsWithMeridiem host
            (numberOf (cap m 1)) (numberOf (cap m 2)) (numberOf (cap m 3))
            (numberOf (cap m 4)) (numberOf (cap m 5)) (numberOr0 (cap m 6))
            (parseFractionMilliseconds (cap m 7)) z (cap m 8)
        /\ (cap m 8 = None ->
            parseDashDate host input z
            = buildDateFromComponents host
                (mkComponents (numberOf (cap m 1)) (numberOf (cap m 2))
                   (numberOf (cap m 3)) (Some (numberOf (cap m 4)))
                   (Some (numberOf (cap m 5))) (Some (numberOr0 (cap m 6)))
                   (Some (parseFractionMilliseconds (cap m 7)))) z)
        /\ forall mer, cap m 8 = Some mer ->
             (toUpperCase mer = js "AM" \/ toUpperCase mer = js "PM")
             /\ (numberOf (cap m 4) < 1 \/ 12 < numberOf (cap m 4) ->
                 parseDashDate host input z = Ok None)
             /\ (1 <= numberOf (cap m 4) <= 12 ->
                 parseDashDate host input z
                 = buildDateFromComponents host
                     (mkComponents (numberOf (cap m 1)) (numberOf (cap m 2))
                        (numberOf (cap m 3))
                        (Some (if str_eqb (toUpperCase mer) (js "AM")
                               then (if numberOf (cap m 4) =? 12 then 0
                                     else numberOf (cap m 4))
                               else (if numberOf (cap m 4) =? 12 then 12
                                     else numberOf (cap m 4) + 12)))
                        (Some (numberOf (cap m 5)))
                        (Some (numberOr0 (cap m 6)))
                        (Some (parseFractionMilliseconds (cap m 7)))) z))
  /\ (forall host input z m,
        exec slashPattern input = Some m ->
        parseSlashDate host input z
        = firstCandidate host (slashAttempts m)
            (numberOr0 (cap m 4)) (numberOr0 (cap m 5)) (numberOr0 (cap m 6))
            (parseFractionMilliseconds (cap m 7)) z (cap m 8)
        /\ forall mer, cap m 8 = Some mer ->
             (toUpperCase mer = js "AM" \/ toUpperCase mer = js "PM")
             /\ (numberOr0 (cap m 4) < 1 \/ 12 < numberOr0 (cap m 4) ->
                 parseSlashDate host input z = Ok None)
             /\ (1 <= numberOr0 (cap m 4) <= 12 ->
                 parseSlashDate host input z
                 = firstCandidate host (slashAttempts m)
                     (if str_eqb (toUpperCase mer) (js "AM")
                      then (if numberOr0 (cap m 4) =? 12 then 0
                            else numberOr0 (cap m 4))
                      else (if numberOr0 (cap m 4) =? 12 then 12
                            else numberOr0 (cap m 4) + 12))
                     (numberOr0 (cap m 5)) (numberOr0 (cap m 6))
                     (parseFractionMilliseconds (cap m 7)) z None))
  /\ (forall host input z m,
        exec monthNamePattern (trim input) = Some m ->
        parseMonthNameDate host input z
        = match parseMonthToken (groupText (cap m 1)) with
          | None => Ok None
          | Some month =>
              parseComponentsWithMeridiem host
                (numberOf (cap m 3)) month (numberOf (cap m 2))
                (numberOr0 (cap m 4)) (numberOr0 (cap m 5))
                (numberOr0 (cap m 6)) 0 z (cap m 7)
          end
        /\ forall mer, cap m 7 = Some mer ->
             (toUpperCase mer = js "AM" \/ toUpperCase mer = js "PM")
             /\ (numberOr0 (cap m 4) < 1 \/ 12 < numberOr0 (cap m 4) ->
                 parseMonthNameDate host input z = Ok None)
             /\ forall month,
                  parseMonthToken (groupText (cap m 1)) = Some month ->
                  1 <= numberOr0 (cap m 4) <= 12 ->
                  parseMonthNameDate host input z
                  = buildDateFromComponents host
                      (mkComponents (numberOf (cap m 3)) month
                         (numberOf (cap m 2))
                         (Some (if str_eqb (toUpperCase mer) (js "AM")
                                then (if numberOr0 (cap m 4) =? 12 then 0
                                      else numberOr0 (cap m 4))
                                else (if numberOr0 (cap m 4) =? 12 then 12
                                      else numberOr0 (cap m 4) + 12)))
                         (Some (numberOr0 (cap m 5)))
                         (Some (numberOr0 (cap m 6))) (Some 0)) z)
  /\ (forall host,
        let utc := Fixed 0 (js "UTC") in
        parseDashDate host (js "2019-01-30 12:24:44 AM") utc
        = Ok (Some (mkDate (DateUTC 2019 0 30 0 24 44 0)))
        /\ parseDashDate host (js "2019-01-30 12:24:44 pm") utc
           = Ok (Some (mkDate (DateUTC 2019 0 30 12 24 44 0)))
        /\ parseSlashDate host (js "2024/01/12 8:30 PM") utc
           = Ok (Some (mkDate (DateUTC 2024 0 12 20 30 0 0)))
        /\ parseSlashDate host (js "2024/01/12 8:30 AM") utc
           = Ok (Some (mkDate (DateUTC 2024 0 12 8 30 0 0)))
        /\ parseMonthNameDate host (js "May 8, 2009 5:57:51 PM") utc
           = Ok (Some (mkDate (DateUTC 2009 4 8 17 57 51 0)))
        /\ parseSlashDate host (js "2024/01/12 13:30 PM") utc = Ok None
        /\ parseDashDate host (js "2019-01-30 0:24 AM") utc = Ok None
        /\ parseDashDate host (js "2019-01-30 21:24:44") utc
           = Ok (Some (mkDate (DateUTC 2019 0 30 21 24 44 0)))
        /\ parseSlashDate host (js "2024/01/12 12:30 AM") utc
           = Ok (Some (mkDate (DateUTC 2024 0 12 0 30 0 0)))
        /\ parseSlashDate host (js "24/1/12 12:30 pm") utc
           = Ok (Some (mkDate (DateUTC 2024 0 12 12 30 0 0)))
        /\ parseSlashDate host (js "2024/01/12 13:30") utc
           = Ok (Some (mkDate (DateUTC 2024 0 12 13 30 0 0)))
        /\ parseMonthNameDate host (js "May 8, 2009 12:57:51 AM") utc
           = Ok (Some (mkDate (DateUTC 2009 4 8 0 57 51 0)))
        /\ parseMonthNameDate host (js "May 8, 2009 12:57:51 pm") utc
           = Ok (Some (mkDate (DateUTC 2009 4 8 12 57 51 0)))
        /\ parseMonthNameDate host (js "May 8, 2009 11:57:51 am") utc
           = Ok (Some (mkDate (DateUTC 2009 4 8 11 57 51 0)))
        /\ parseMonthNameDate host (js "May 8, 2009 0:57:51 AM") utc
           = Ok None).
Proof.
  assert (Map : forall h mer,
            toUpperCase mer = js "AM" \/ toUpperCase mer = js "PM" ->
            1 <= h <= 12 ->
            applyMeridiem h (Some mer)
            = Some (if str_eqb (toUpperCase mer) (js "AM")
                    then (if h =? 12 then 0 else h)
                    else (if h =? 12 then 12 else h + 12))).
  { intros h mer [Hm|Hm] Hh.
    - rewrite (applyMeridiem_AM h mer Hm Hh), Hm. reflexivity.
    - rewrite (applyMeridiem_PM h mer Hm Hh), Hm. reflexivity. }
  split; [exact applyMeridiem_none|].
  split; [exact applyMeridiem_out_of_range|].
  split; [exact applyMeridiem_AM|].
  split; [exact applyMeridiem_PM|].
  split; [reflexivity|].
  split.
  { intros host input z m H.
    pose proof (parseDashDate_dateTime host input z m H) as E.
    split; [exact E|]. split.
    { intros Hc. rewrite E, Hc. reflexivity. }
    intros mer Hc.
    pose proof (dateTime_meridiem input m mer H Hc) as Hm.
    split; [exact Hm|]. split.
    - intros Hh. rewrite E, Hc.
      unfold parseComponentsWithMeridiem.
      rewrite (applyMeridiem_out_of_range _ mer Hm Hh). reflexivity.
    - intros Hh. rewrite E, Hc.
      apply components_meridiem, Map; assumption. }
  split.
  { intros host input z m H.
    pose proof (parseSlashDate_attempts host input z m H) as E.
    split; [exact E|]. intros mer Hc.
    pose proof (slash_meridiem input m mer H Hc) as Hm.
    split; [exact Hm|]. split.
    - intros Hh. rewrite E, Hc.
      apply firstCandidate_declines.
      apply applyMeridiem_out_of_range; assumption.
    - intros Hh. rewrite E, Hc.
      apply firstCandidate_meridiem, Map; assumption. }
  split.
  { intros host input z m H.
    pose proof (parseMonthNameDate_components host input z m H) as E.
    split; [exact E|]. intros mer Hc.
    pose proof (monthName_meridiem (trim input) m mer H Hc) as Hm.
    split; [exact Hm|]. split.
    - intros Hh. rewrite E, Hc.
      destruct (parseMonthToken (groupText (cap m 1))); [|reflexivity].
      unfold parseComponentsWithMeridiem.
      rewrite (applyMeridiem_out_of_range _ mer Hm Hh). reflexivity.
    - intros month Hmo Hh. rewrite E, Hmo, Hc.
      apply components_meridiem, Map; assumption. }
  intros host utc. repeat split; vm_compute; reflexivity.
Qed.

Lemma meridiem_semantics_witness :
  (toUpperCase (js "pm") = js "PM" /\ 1 <= 8 <= 12
   /\ applyMeridiem 8 (Some (js "pm")) = Some 20)
  /\ ((toUpperCase (js "Am") = js "AM" \/ toUpperCase (js "Am") = js "PM")
      /\ (13 < 1 \/ 12 < 13)
      /\ applyMeridiem 13 (Some (js "Am")) = None).
Proof.
  split.
  - split; [reflexivity|]. split; [lia|].
    apply (proj1 (proj2 (proj2 (proj2 meridiem_semantics))) 8 (js "pm"));
      [reflexivity|lia].
  - split; [left; reflexivity|]. split; [right; lia|].
    apply (proj1 (proj2 meridiem_semantics) 13 (js "Am"));
      [left; reflexivity|right; lia].
Defined.

(* ================================================================== *)
(** ** Instants in a fixed zone (C6) *)
(* ================================================================== *)



(* ================================================================== *)
(** ** Etc/GMT zones (C2) *)
(* ================================================================== *)

Lemma trimStart_id (s : str) : headIs isSpace s = false -> trimStart s = s.
Proof. destruct s as [|c t]; [reflexivity|]. simpl. intros ->. reflexivity. Qed.

(** [trim] leaves a string alone when neither end is white space. *)
Lemma trim_id (s : str) :
  headIs isSpace s = false -> headIs isSpace (rev s) = false -> trim s = s.
Proof.
  intros H1 H2. unfold trim, trimEnd.
  rewrite (trimStart_id s H1), (trimStart_id (rev s) H2).
  apply rev_involutive.
Qed.

Lemma digit_not_space (c : Z) : isDigit c = true -> isSpace c = false.
Proof. intros H. unit_lia. Qed.

Lemma ci_not_space (c k : Z) :
  lowerUnit c = k -> 33 <= k <= 126 -> isSpace c = false.
Proof. intros H Hk. unit_lia. Qed.

(** The seven units of a case variant of "Etc/GMT". *)
Lemma etc_prefix (pre : str) :
  toLowerCase pre = js "etc/gmt" ->
  exists c1 c2 c3 c4 c5 c6 c7,
    pre = [c1; c2; c3; c4; c5; c6; c7]
    /\ lowerUnit c1 = 101 /\ lowerUnit c2 = 116 /\ lowerUnit c3 = 99
    /\ lowerUnit c4 = 47 /\ lowerUnit c5 = 103 /\ lowerUnit c6 = 109
    /\ lowerUnit c7 = 116.
Proof.
  unfold toLowerCase. intros H.
  destruct pre as [|c1 [|c2 [|c3 [|c4 [|c5 [|c6 [|c7 [|c8 pre]]]]]]]];
    try discriminate.
  cbn in H. injection H as E1 E2 E3 E4 E5 E6 E7.
  exists c1, c2, c3, c4, c5, c6, c7. repeat split; assumption.
Qed.

Lemma short_digits (ds : str) :
  ds <> [] -> (length ds <= 2)%nat -> forallb isDigit ds = true ->
  (exists d1, ds = [d1] /\ isDigit d1 = true)
  \/ (exists d1 d2, ds = [d1; d2] /\ isDigit d1 = true /\ isDigit d2 = true).
Proof.
  intros Hne Hl Hd. destruct ds as [|d1 [|d2 [|d3 ds]]].
  - congruence.
  - left. exists d1. cbn in Hd. rewrite andb_true_r in Hd. auto.
  - right. exists d1, d2. cbn in Hd. rewrite andb_true_r in Hd.
    apply andb_true_iff in Hd. destruct Hd. auto.
  - cbn in Hl. lia.
Qed.

Lemma etc_exec c1 c2 c3 c4 c5 c6 c7 sg ds :
  lowerUnit c1 = 101 -> lowerUnit c2 = 116 -> lowerUnit c3 = 99 ->
  lowerUnit c4 = 47 -> lowerUnit c5 = 103 -> lowerUnit c6 = 109 ->
  lowerUnit c7 = 116 -> sg = 43 \/ sg = 45 ->
  ds <> [] -> (length ds <= 2)%nat -> forallb isDigit ds = true ->
  exec etcPattern ([c1; c2; c3; c4; c5; c6; c7] ++ sg :: ds)
  = Some (setCap 2 ds (setCap 1 [sg] noCaps)).
Proof.
  intros H1 H2 H3 H4 H5 H6 H7 Hs Hne Hl Hd.
  destruct (short_digits ds Hne Hl Hd) as [(d1 & -> & Hd1)|(d1 & d2 & -> & Hd1 & Hd2)];
    destruct Hs as [-> | ->];
    unfold exec, etcPattern; cbn -[lowerUnit Z.eqb isDigit];
    rewrite H1, H2, H3, H4, H5, H6, H7; cbn -[lowerUnit isDigit];
    rewrite ?Hd1; cbn -[lowerUnit isDigit]; rewrite ?Hd2;
    cbn -[lowerUnit isDigit]; reflexivity.
Qed.

Ltac cons_inv :=
  repeat match goal with
  | H : _ :: _ = _ :: _ |- _ => injection H as ? ?; subst
  | H : [] = _ :: _ |- _ => discriminate H
  | H : _ :: _ = [] |- _ => discriminate H
  end.

(** A specifier that starts like "Etc/..." is neither "local" nor one of
    "utc", "gmt", "z". *)
Lemma etc_not_keyword (c1 : Z) (rest : str) :
  lowerUnit c1 = 101 ->
  test (seq [Bol; liti "local"; Eol]) (c1 :: rest) = false
  /\ test (seq [Bol; Grp 1 (Alt (liti "utc") (Alt (liti "gmt") (liti "z")));
                Eol]) (c1 :: rest) = false.
Proof.
  intros H1. split.
  - destruct (test _ _) eqn:T; [|reflexivity].
    apply test_anchored_sound in T. destruct T as (st & T).
    unfold liti, seq in T. cbn in T. step_inv. cons_inv. unit_lia.
  - destruct (test _ _) eqn:T; [|reflexivity].
    apply test_anchored_sound in T. destruct T as (st & T).
    unfold liti, seq in T. cbn in T. step_inv; cons_inv; unit_lia.
Qed.

Lemma etc_trim c1 c2 c3 c4 c5 c6 c7 sg ds :
  lowerUnit c1 = 101 ->
  ds <> [] -> forallb isDigit ds = true ->
  trim ([c1; c2; c3; c4; c5; c6; c7] ++ sg :: ds)
  = [c1; c2; c3; c4; c5; c6; c7] ++ sg :: ds.
Proof.
  intros H1 Hne Hd. apply trim_id.
  - cbn. apply (ci_not_space c1 101 H1). lia.
  - destruct (exists_last Hne) as (ds' & d & ->).
    rewrite forallb_app in Hd. apply andb_true_iff in Hd.
    destruct Hd as [_ Hd]. cbn in Hd. rewrite andb_true_r in Hd.
    change (sg :: ds' ++ [d]) with ((sg :: ds') ++ [d]).
    rewrite app_assoc, rev_app_distr. cbn. apply digit_not_space. exact Hd.
Qed.

Section EtcZones.

Variable host : Host.

Lemma parseFixedOffset_etc pre sg ds :
  toLowerCase pre = js "etc/gmt" -> sg = 43 \/ sg = 45 ->
  ds <> [] -> (length ds <= 2)%nat -> forallb isDigit ds = true ->
  parseFixedOffset (pre ++ sg :: ds)
  = if numberOfDigits ds >? 23 then None
    else Some (fixedZone ((if sg =? 43 then -1 else 1)
                          * numberOfDigits ds * 60)).
Proof.
  intros Hp Hs Hne Hl Hd.
  destruct (etc_prefix pre Hp)
    as (c1 & c2 & c3 & c4 & c5 & c6 & c7 & -> & H1 & H2 & H3 & H4 & H5 & H6 & H7).
  unfold parseFixedOffset.
  rewrite (etc_exec c1 c2 c3 c4 c5 c6 c7 sg ds) by assumption.
  cbn [cap setCap nth noCaps repeat numberOf numberOr0 isPlus].
  unfold minutesInHour.
  destruct Hs as [-> | ->]; reflexivity.
Qed.

Lemma parseZone_etc pre sg ds :
  toLowerCase pre = js "etc/gmt" -> sg = 43 \/ sg = 45 ->
  ds <> [] -> (length ds <= 2)%nat -> forallb isDigit ds = true ->
  parseZone host (pre ++ sg :: ds)
  = match parseFixedOffset (pre ++ sg :: ds) with
    | Some fixed => Some fixed
    | None =>
        if tzValid host (pre ++ sg :: ds)
        then Some (Iana (pre ++ sg :: ds) None) else None
    end.
Proof.
  intros Hp Hs Hne Hl Hd.
  destruct (etc_prefix pre Hp)
    as (c1 & c2 & c3 & c4 & c5 & c6 & c7 & -> & H1 & H2 & H3 & H4 & H5 & H6 & H7).
  unfold parseZone. rewrite (etc_trim c1 c2 c3 c4 c5 c6 c7 sg ds H1 Hne Hd).
  cbn [app].
  destruct (etc_not_keyword c1 ([c2; c3; c4; c5; c6; c7] ++ sg :: ds) H1)
    as [T1 T2].
  cbn [app] in T1, T2. rewrite T1, T2.
  unfold isValidIanaTimeZone, formatterForParts.
  destruct (tzValid host _); reflexivity.
Qed.

End EtcZones.

(** C2.  For every zone specifier of the form Etc/GMT+-H[H] (the letters in
    any case) with hours 0..23, [parseZone] returns the Fixed zone whose
    offset is hours * 60 minutes with the sign REVERSED relative to the
    token; "Etc/GMT+7" is Fixed -420 (UTC-07:00) and "Etc/GMT-5" is Fixed
    +300.  With hours above 23 the fixed-offset parser declines, and
    resolution fails unless the host's time-zone database itself knows the
    specifier by name. *)
Theorem etc_gmt_sign_reversed :
  (forall host pre sg ds,
     toLowerCase pre = js "etc/gmt" -> sg = 43 \/ sg = 45 ->
     ds <> [] -> (length ds <= 2)%nat -> forallb isDigit ds = true ->
     let hours := numberOfDigits ds in
     let literalSign := if sg =? 43 then 1 else -1 in
     0 <= hours
     /\ (hours <= 23 ->
         parseZone host (pre ++ sg :: ds)
         = Some (Fixed (- literalSign * hours * 60)
                       (js "UTC"
                        ++ formatOffset (Some (- literalSign * hours * 60)))))
     /\ (23 < hours ->
         parseFixedOffset (pre ++ sg :: ds) = None
         /\ (tzValid host (pre ++ sg :: ds) = false ->
             parseZone host (pre ++ sg :: ds) = None)))
  /\ (forall host,
        parseZone host (js "Etc/GMT+7")
        = Some (Fixed (-420) (js "UTC-07:00"))
        /\ parseZone host (js "Etc/GMT-5")
           = Some (Fixed 300 (js "UTC+05:00"))).
Proof.
  split.
  - intros host pre sg ds Hp Hs Hne Hl Hd hours literalSign.
    pose proof (numberOfDigits_range ds Hd) as Hr. fold hours in Hr.
    pose proof (parseZone_etc host pre sg ds Hp Hs Hne Hl Hd) as EZ.
    pose proof (parseFixedOffset_etc pre sg ds Hp Hs Hne Hl Hd) as EF.
    fold hours in EF.
    split; [lia|]. split.
    + intros Hh. rewrite EZ, EF.
      destruct (Z.gtb_spec hours 23); [lia|].
      unfold fixedZone, literalSign.
      destruct Hs as [-> | ->]; cbn [Z.eqb Pos.eqb];
        replace (- (1) * hours * 60) with (-1 * hours * 60) by lia;
        replace (- (-1) * hours * 60) with (1 * hours * 60) by lia;
        reflexivity.
    + intros Hh.
      assert (EF' : parseFixedOffset (pre ++ sg :: ds) = None).
      { rewrite EF. destruct (Z.gtb_spec hours 23); [reflexivity|lia]. }
      split; [exact EF'|]. intros Hv. rewrite EZ, EF', Hv. reflexivity.
  - intros host. split; vm_compute; reflexivity.
Qed.

Lemma etc_gmt_sign_reversed_witness :
  toLowerCase (js "etc/Gmt") = js "etc/gmt" /\ (43 = 43 \/ 43 = 45)
  /\ js "11" <> [] /\ (length (js "11") <= 2)%nat
  /\ forallb isDigit (js "11") = true
  /\ numberOfDigits (js "11") <= 23
  /\ parseZone utcHost (js "etc/Gmt+11")
     = Some (Fixed (-660) (js "UTC-11:00")).
Proof.
  split; [reflexivity|]. split; [left; reflexivity|].
  split; [discriminate|]. split; [cbn; lia|]. split; [reflexivity|].
  split; [vm_compute; discriminate|].
  apply (proj1 (proj2 (proj1 etc_gmt_sign_reversed utcHost (js "etc/Gmt") 43
                         (js "11") eq_refl (or_introl eq_refl)
                         ltac:(discriminate) ltac:(cbn; lia) eq_refl))).
  vm_compute. discriminate.
Defined.

(* ================================================================== *)
(** ** The zone-suffix splitter (C4) *)
(* ================================================================== *)

Lemma lastIndexFrom_absent (c : Z) : forall s i acc,
  includes c s = false -> lastIndexFrom c s i acc = acc.
Proof.
  induction s as [|x s IH]; intros i acc H; [reflexivity|].
  unfold includes in *. cbn [existsb lastIndexFrom] in *.
  apply orb_false_iff in H. destruct H as [Hx Hs].
  rewrite Z.eqb_sym, Hx. apply IH. exact Hs.
Qed.

Lemma lastIndexFrom_last (c : Z) : forall l r i acc,
  includes c r = false ->
  lastIndexFrom c (l ++ c :: r) i acc = i + len l.
Proof.
  induction l as [|x l IH]; intros r i acc H.
  - cbn [app lastIndexFrom]. rewrite Z.eqb_refl.
    rewrite lastIndexFrom_absent by exact H. unfold len. cbn. lia.
  - cbn [app lastIndexFrom]. rewrite IH by exact H.
    unfold len. cbn [length]. lia.
Qed.

Lemma lastIndexOf_absent (c : Z) (s : str) :
  includes c s = false -> lastIndexOf c s = -1.
Proof. apply lastIndexFrom_absent. Qed.

Lemma lastIndexOf_last (c : Z) (l r : str) :
  includes c r = false -> lastIndexOf c (l ++ c :: r) = len l.
Proof. intros H. unfold lastIndexOf. rewrite lastIndexFrom_last by exact H. lia. Qed.

Lemma len_app (a b : str) : len (a ++ b) = len a + len b.
Proof. unfold len. rewrite length_app. lia. Qed.

Lemma len_nonneg (s : str) : 0 <= len s.
Proof. unfold len. lia. Qed.

Lemma slice_left (l : str) (c : Z) (r : str) :
  slice (l ++ c :: r) 0 (len l) = l.
Proof.
  unfold slice, clampIndex. rewrite len_app.
  pose proof (len_nonneg l). pose proof (len_nonneg (c :: r)).
  cbn [Z.ltb Z.compare].
  destruct (Z.ltb_spec (len l) 0); [lia|].
  rewrite Z.min_l, Z.min_l by lia.
  rewrite Z.sub_0_r. cbn [Z.to_nat skipn].
  unfold len. rewrite Nat2Z.id.
  rewrite firstn_app, firstn_all, Nat.sub_diag. cbn. apply app_nil_r.
Qed.

Lemma sliceFrom_right (l : str) (c : Z) (r : str) :
  sliceFrom (l ++ c :: r) (len l + 1) = r.
Proof.
  unfold sliceFrom, slice, clampIndex. rewrite len_app.
  pose proof (len_nonneg l). pose proof (len_nonneg r).
  assert (E : len (c :: r) = 1 + len r) by (unfold len; cbn [length]; lia).
  rewrite E.
  destruct (Z.ltb_spec (len l + 1) 0); [lia|].
  destruct (Z.ltb_spec (len l + (1 + len r)) 0); [lia|].
  rewrite Z.min_l, Z.min_l by lia.
  replace (len l + (1 + len r) - (len l + 1)) with (len r) by lia.
  unfold len. rewrite Nat2Z.id.
  replace (Z.to_nat (Z.of_nat (length l) + 1)) with (length l + 1)%nat by lia.
  rewrite skipn_app. rewrite skipn_all2 by lia.
  replace (length l + 1 - length l)%nat with 1%nat by lia.
  cbn [skipn app]. apply firstn_all.
Qed.

(** *** [trim] is idempotent *)

Lemma trimStart_app (a b : str) :
  trimStart (a ++ b)
  = if forallb isSpace a then trimStart b else trimStart a ++ b.
Proof.
  induction a as [|c a IH]; [reflexivity|].
  cbn [app trimStart forallb]. destruct (isSpace c); [exact IH|reflexivity].
Qed.

Lemma trimStart_spaces (a : str) : forallb isSpace a = true -> trimStart a = [].
Proof.
  induction a as [|c a IH]; [reflexivity|].
  cbn [forallb trimStart]. intros H. apply andb_true_iff in H.
  destruct H as [-> H]. auto.
Qed.

Lemma forallb_rev (p : Z -> bool) (l : str) :
  forallb p (rev l) = forallb p l.
Proof.
  induction l as [|c l IH]; [reflexivity|].
  cbn [rev forallb]. rewrite forallb_app, IH. cbn [forallb].
  rewrite andb_true_r. apply andb_comm.
Qed.

Lemma trimEnd_cons (c : Z) (t : str) :
  trimEnd (c :: t)
  = match trimEnd t with
    | [] => if forallb isSpace t then (if isSpace c then [] else [c])
            else c :: trimEnd t
    | x :: t' => c :: x :: t'
    end.
Proof.
  unfold trimEnd. cbn [rev]. rewrite trimStart_app.
  destruct (forallb isSpace (rev t)) eqn:E.
  - rewrite (trimStart_spaces (rev t) E). cbn [rev].
    rewrite forallb_rev in E. rewrite E.
    cbn [trimStart]. destruct (isSpace c); reflexivity.
  - rewrite rev_app_distr. cbn [rev app].
    rewrite forallb_rev in E. rewrite E.
    destruct (rev (trimStart (rev t))); reflexivity.
Qed.

Lemma trimEnd_spaces (t : str) : forallb isSpace t = true -> trimEnd t = [].
Proof.
  intros H. unfold trimEnd. rewrite trimStart_spaces; [reflexivity|].
  rewrite forallb_rev. exact H.
Qed.

Lemma trimEnd_nil_spaces (t : str) : trimEnd t = [] -> forallb isSpace t = true.
Proof.
  induction t as [|c t IH]; [reflexivity|].
  rewrite trimEnd_cons. cbn [forallb].
  destruct (trimEnd t) eqn:E.
  - rewrite (IH eq_refl). destruct (isSpace c); [reflexivity|discriminate].
  - discriminate.
Qed.

Lemma trimEnd_head (c : Z) (t : str) :
  isSpace c = false -> exists t', trimEnd (c :: t) = c :: t'.
Proof.
  intros H. rewrite trimEnd_cons, H.
  destruct (trimEnd t); [destruct (forallb isSpace t)|]; eauto.
Qed.

Lemma trimEnd_idem (s : str) : trimEnd (trimEnd s) = trimEnd s.
Proof.
  induction s as [|c t IH]; [reflexivity|].
  rewrite trimEnd_cons.
  destruct (trimEnd t) as [|x t'] eqn:E.
  - rewrite (trimEnd_nil_spaces t E).
    destruct (isSpace c) eqn:Ec; [reflexivity|].
    rewrite trimEnd_cons. cbn [forallb trimEnd rev trimStart]. rewrite Ec.
    reflexivity.
  - rewrite trimEnd_cons, IH. reflexivity.
Qed.

Lemma trimStart_head (s : str) : headIs isSpace (trimStart s) = false.
Proof.
  induction s as [|c t IH]; [reflexivity|].
  cbn [trimStart]. destruct (isSpace c) eqn:E; [exact IH|].
  cbn. exact E.
Qed.

Lemma trim_idem (s : str) : trim (trim s) = trim s.
Proof.
  unfold trim.
  assert (H : trimStart (trimEnd (trimStart s)) = trimEnd (trimStart s)).
  { pose proof (trimStart_head s) as Hh.
    destruct (trimStart s) as [|c t]; [reflexivity|].
    cbn in Hh. destruct (trimEnd_head c t Hh) as (t' & E). rewrite E.
    cbn [trimStart]. rewrite Hh. reflexivity. }
  rewrite H. apply trimEnd_idem.
Qed.

Lemma parseZone_trim host (r : str) : parseZone host (trim r) = parseZone host r.
Proof. unfold parseZone. rewrite trim_idem. reflexivity. Qed.

(** C4.  The zone-suffix splitter.  With no comma in the trimmed input, or
    with its last comma as first unit, the whole trimmed string is the text
    and the default zone is used.  Otherwise, if what follows the last comma
    resolves as a zone, the (trimmed) text before that comma and the resolved
    zone are returned; if it does not resolve, the entire trimmed string,
    comma included, is the text and the default zone is used. *)
Theorem splitInputAndZone_spec :
  forall host raw dz,
    let t := trim raw in
    (includes 44 t = false -> splitInputAndZone host raw dz = (t, dz))
    /\ (forall r, t = 44 :: r -> includes 44 r = false ->
          splitInputAndZone host raw dz = (t, dz))
    /\ (forall l r, t = l ++ 44 :: r -> l <> [] -> includes 44 r = false ->
          (forall z, parseZone host r = Some z ->
             splitInputAndZone host raw dz = (trim l, z))
          /\ (parseZone host r = None ->
              splitInputAndZone host raw dz = (t, dz))).
Proof.
  intros host raw dz t. subst t. split; [|split].
  - intros H. unfold splitInputAndZone. cbv zeta.
    rewrite (lastIndexOf_absent 44 _ H). reflexivity.
  - intros r E H. unfold splitInputAndZone. cbv zeta. rewrite E.
    pose proof (lastIndexOf_last 44 [] r H) as L. cbn [app] in L.
    rewrite L. reflexivity.
  - intros l r E Hl H.
    assert (Hpos : (len l <=? 0) = false).
    { apply Z.leb_gt. destruct l; [congruence|]. unfold len. cbn [length]. lia. }
    assert (S : splitInputAndZone host raw dz
                = match parseZone host r with
                  | None => (trim raw, dz)
                  | Some zone => (trim l, zone)
                  end).
    { unfold splitInputAndZone. cbv zeta. rewrite E.
      rewrite (lastIndexOf_last 44 l r H), Hpos.
      rewrite slice_left, sliceFrom_right, parseZone_trim. reflexivity. }
    split.
    + intros z Hz. rewrite S, Hz. reflexivity.
    + intros Hz. rewrite S, Hz. reflexivity.
Qed.

Lemma splitInputAndZone_spec_witness :
  trim (js " 2019-01-30 21:24:44 , gmt-7 ") = js "2019-01-30 21:24:44 " ++ 44 :: js " gmt-7"
  /\ js "2019-01-30 21:24:44 " <> []
  /\ includes 44 (js " gmt-7") = false
  /\ parseZone utcHost (js " gmt-7") = Some (Fixed (-420) (js "UTC-07:00"))
  /\ splitInputAndZone utcHost (js " 2019-01-30 21:24:44 , gmt-7 ") utcZone
     = (js "2019-01-30 21:24:44", Fixed (-420) (js "UTC-07:00")).
Proof.
  split; [reflexivity|]. split; [discriminate|]. split; [reflexivity|].
  split; [reflexivity|].
  apply (proj1 (proj2 (proj2 (splitInputAndZone_spec utcHost
                                (js " 2019-01-30 21:24:44 , gmt-7 ") utcZone))
                 (js "2019-01-30 21:24:44 ") (js " gmt-7")
                 eq_refl ltac:(discriminate) eq_refl)).
  reflexivity.
Defined.

(* ================================================================== *)
(** ** The two readings of an ambiguous slash date (C3) *)
(* ================================================================== *)

(** Evaluate the matcher on a subject whose digits are variables known to be
    digits. *)
Ltac digits_eval :=
  repeat (cbn -[isDigit lowerUnit isSpace];
          match goal with
          | H : isDigit ?d = true |- context [isDigit ?d] => rewrite H
          end);
  cbn -[isDigit lowerUnit isSpace].

(** A bare A/B/C with one or two digits in each group is matched by the
    slash pattern, and the groups are A, B and C. *)
Lemma slash_exec_date (A B C : str) :
  A <> [] -> (length A <= 2)%nat -> forallb isDigit A = true ->
  B <> [] -> (length B <= 2)%nat -> forallb isDigit B = true ->
  C <> [] -> (length C <= 2)%nat -> forallb isDigit C = true ->
  exec slashPattern (A ++ 47 :: B ++ 47 :: C)
  = Some (setCap 3 C (setCap 2 B (setCap 1 A noCaps))).
Proof.
  intros HA1 HA2 HA3 HB1 HB2 HB3 HC1 HC2 HC3.
  destruct (short_digits A HA1 HA2 HA3) as [(a1 & -> & ?)|(a1 & a2 & -> & ? & ?)];
  destruct (short_digits B HB1 HB2 HB3) as [(b1 & -> & ?)|(b1 & b2 & -> & ? & ?)];
  destruct (short_digits C HC1 HC2 HC3) as [(c1 & -> & ?)|(c1 & c2 & -> & ? & ?)];
  unfold exec, slashPattern, timeTail; digits_eval; reflexivity.
Qed.

Section SlashDate.

Variable host : Host.

Lemma orElse_last (r : exc (option Date)) :
  (candidate <- r ;;
   match candidate with
   | Some c => Ok (Some c)
   | None => Ok None
   end) = r.
Proof. destruct r as [[c|]|]; reflexivity. Qed.

Lemma parseSlashDate_two_readings input z m :
  exec slashPattern input = Some m ->
  len (groupText (cap m 1)) <= 2 -> len (groupText (cap m 2)) <= 2 ->
  len (groupText (cap m 3)) <= 2 ->
  let a := numberOfDigits (groupText (cap m 1)) in
  let b := numberOfDigits (groupText (cap m 2)) in
  let c := numberOfDigits (groupText (cap m 3)) in
  parseSlashDate host input z
  = (first <- slashAttempt host m z (expandTwoDigitYear a) b c ;;
     match first with
     | Some d => Ok (Some d)
     | None => slashAttempt host m z (expandTwoDigitYear c) a b
     end).
Proof.
  intros H Ha Hb Hc a b c. unfold parseSlashDate. rewrite H.
  destruct (Z.eqb_spec (len (groupText (cap m 1))) 4); [lia|].
  destruct (Z.eqb_spec (len (groupText (cap m 3))) 4); [lia|].
  destruct (Z.leb_spec (len (groupText (cap m 1))) 2); [|lia].
  destruct (Z.leb_spec (len (groupText (cap m 2))) 2); [|lia].
  destruct (Z.leb_spec (len (groupText (cap m 3))) 2); [|lia].
  cbn [andb firstCandidate]. fold a b c. unfold slashAttempt.
  destruct (parseComponentsWithMeridiem host (expandTwoDigitYear a) b c _ _ _ _ z _)
    as [[d|]|]; cbn [bind]; [reflexivity| |reflexivity].
  apply orElse_last.
Qed.

(** With an acceptable time of day, an attempt succeeds exactly on a valid
    calendar date. *)
Lemma attempt_valid_time y mo d h mi s ms z mer h' :
  applyMeridiem h mer = Some h' ->
  0 <= h' <= 23 -> 0 <= mi <= 59 -> 0 <= s <= 59 -> 0 <= ms <= 999 ->
  parseComponentsWithMeridiem host y mo d h mi s ms z mer
  = if isValidCalendarDate y mo d
    then (i <- toInstantFromComponents host
                 (mkComponents y mo d (Some h') (Some mi) (Some s) (Some ms)) z ;;
          Ok (Some i))
    else Ok None.
Proof.
  intros Hm Hh Hmi Hs Hms. unfold parseComponentsWithMeridiem. rewrite Hm.
  unfold buildDateFromComponents.
  cbn [year month day hour minute second millisecond orZero].
  destruct (isValidCalendarDate y mo d); [|reflexivity]. cbn [negb].
  destruct (Z.ltb_spec h' 0); [lia|]. destruct (Z.gtb_spec h' 23); [lia|].
  destruct (Z.ltb_spec mi 0); [lia|]. destruct (Z.gtb_spec mi 59); [lia|].
  destruct (Z.ltb_spec s 0); [lia|]. destruct (Z.gtb_spec s 59); [lia|].
  destruct (Z.ltb_spec ms 0); [lia|]. destruct (Z.gtb_spec ms 999); [lia|].
  reflexivity.
Qed.

Lemma parseSlashDate_bare (A B C : str) z :
  A <> [] -> (length A <= 2)%nat -> forallb isDigit A = true ->
  B <> [] -> (length B <= 2)%nat -> forallb isDigit B = true ->
  C <> [] -> (length C <= 2)%nat -> forallb isDigit C = true ->
  let a := numberOfDigits A in
  let b := numberOfDigits B in
  let c := numberOfDigits C in
  parseSlashDate host (A ++ 47 :: B ++ 47 :: C) z
  = if isValidCalendarDate (expandTwoDigitYear a) b c
    then midnight host z (expandTwoDigitYear a) b c
    else if isValidCalendarDate (expandTwoDigitYear c) a b
    then midnight host z (expandTwoDigitYear c) a b
    else Ok None.
Proof.
  intros HA1 HA2 HA3 HB1 HB2 HB3 HC1 HC2 HC3 a b c.
  pose proof (slash_exec_date A B C HA1 HA2 HA3 HB1 HB2 HB3 HC1 HC2 HC3) as E.
  rewrite (parseSlashDate_two_readings _ z _ E);
    cbn [cap setCap nth noCaps repeat groupText]; unfold len; try lia.
  fold a b c. unfold slashAttempt.
  cbn [cap setCap nth noCaps repeat numberOr0 parseFractionMilliseconds].
  rewrite !(attempt_valid_time _ _ _ 0 0 0 0 z None 0) by (reflexivity || lia).
  unfold midnight.
  destruct (isValidCalendarDate (expandTwoDigitYear a) b c).
  - destruct (toInstantFromComponents host _ z); reflexivity.
  - cbn [bind]. reflexivity.
Qed.

End SlashDate.

(** C3.  For every slash-date input A/B/C whose three groups have at most
    two digits, [parseSlashDate] tries exactly two readings in a fixed order:
    first (year = two-digit expansion of A, month = B, day = C), then
    (year = two-digit expansion of C, month = A, day = B), and returns the
    first that yields a date.  A reading yields a date exactly when it is a
    valid calendar date (the time of day, when the input carries one, is the
    same for both readings and must be acceptable too).  In particular, when
    the first reading is calendar-invalid and the second is valid, the second
    is returned. *)
Theorem slashDate_two_readings :
  (forall host input z m,
     exec slashPattern input = Some m ->
     len (groupText (cap m 1)) <= 2 -> len (groupText (cap m 2)) <= 2 ->
     len (groupText (cap m 3)) <= 2 ->
     let a := numberOfDigits (groupText (cap m 1)) in
     let b := numberOfDigits (groupText (cap m 2)) in
     let c := numberOfDigits (groupText (cap m 3)) in
     parseSlashDate host input z
     = (first <- slashAttempt host m z (expandTwoDigitYear a) b c ;;
        match first with
        | Some d => Ok (Some d)
        | None => slashAttempt host m z (expandTwoDigitYear c) a b
        end))
  /\ (forall host m z y mo d h',
        applyMeridiem (numberOr0 (cap m 4)) (cap m 8) = Some h' ->
        0 <= h' <= 23 -> 0 <= numberOr0 (cap m 5) <= 59 ->
        0 <= numberOr0 (cap m 6) <= 59 ->
        0 <= parseFractionMilliseconds (cap m 7) <= 999 ->
        slashAttempt host m z y mo d
        = if isValidCalendarDate y mo d
          then (i <- toInstantFromComponents host
                       (mkComponents y mo d (Some h')
                          (Some (numberOr0 (cap m 5)))
                          (Some (numberOr0 (cap m 6)))
                          (Some (parseFractionMilliseconds (cap m 7)))) z ;;
                Ok (Some i))
          else Ok None)
  /\ (forall host A B C z,
        A <> [] -> (length A <= 2)%nat -> forallb isDigit A = true ->
        B <> [] -> (length B <= 2)%nat -> forallb isDigit B = true ->
        C <> [] -> (length C <= 2)%nat -> forallb isDigit C = true ->
        let a := numberOfDigits A in
        let b := numberOfDigits B in
        let c := numberOfDigits C in
        parseSlashDate host (A ++ 47 :: B ++ 47 :: C) z
        = (if isValidCalendarDate (expandTwoDigitYear a) b c
           then midnight host z (expandTwoDigitYear a) b c
           else if isValidCalendarDate (expandTwoDigitYear c) a b
           then midnight host z (expandTwoDigitYear c) a b
           else Ok None)
        /\ (isValidCalendarDate (expandTwoDigitYear a) b c = false ->
            isValidCalendarDate (expandTwoDigitYear c) a b = true ->
            parseSlashDate host (A ++ 47 :: B ++ 47 :: C) z
            = midnight host z (expandTwoDigitYear c) a b))
  /\ (forall host,
        parseSlashDate host (js "12/31/99") utcZone
        = Ok (Some (mkDate (DateUTC 1999 11 31 0 0 0 0)))
        /\ parseSlashDate host (js "01/02/03") utcZone
           = Ok (Some (mkDate (DateUTC 2001 1 3 0 0 0 0)))
        /\ parseSlashDate host (js "13/31/99") utcZone = Ok None).
Proof.
  split; [exact parseSlashDate_two_readings|].
  split.
  { intros host m z y mo d h' Hm Hh Hmi Hs Hms. unfold slashAttempt.
    apply attempt_valid_time; assumption. }
  split.
  { intros host A B C z HA1 HA2 HA3 HB1 HB2 HB3 HC1 HC2 HC3 a b c.
    pose proof (parseSlashDate_bare host A B C z
                  HA1 HA2 HA3 HB1 HB2 HB3 HC1 HC2 HC3) as E.
    fold a b c in E. split; [exact E|].
    intros H1 H2. rewrite E, H1, H2. reflexivity. }
  intros host. repeat split; vm_compute; reflexivity.
Qed.

Lemma slashDate_two_readings_witness :
  js "12" <> [] /\ (length (js "12") <= 2)%nat
  /\ forallb isDigit (js "12") = true
  /\ js "31" <> [] /\ (length (js "31") <= 2)%nat
  /\ forallb isDigit (js "31") = true
  /\ js "99" <> [] /\ (length (js "99") <= 2)%nat
  /\ forallb isDigit (js "99") = true
  /\ isValidCalendarDate 2012 31 99 = false
  /\ isValidCalendarDate 1999 12 31 = true
  /\ parseSlashDate utcHost (js "12/31/99") utcZone
     = Ok (Some (mkDate (Some 946598400000))).
Proof.
  repeat (split; [solve [discriminate | reflexivity | cbn; lia]|]).
  apply (proj2 (proj1 (proj2 (proj2 slashDate_two_readings)) utcHost
                  (js "12") (js "31") (js "99") utcZone
                  ltac:(discriminate) ltac:(cbn; lia) eq_refl
                  ltac:(discriminate) ltac:(cbn; lia) eq_refl
                  ltac:(discriminate) ltac:(cbn; lia) eq_refl));
    reflexivity.
Defined.

(* ================================================================== *)
(** ** Calendar arithmetic *)
(* ================================================================== *)

Ltac divlia := Z.to_euclidean_division_equations; lia.

Lemma era_fields (doe : Z) :
  0 <= doe <= 146096 ->
  0 <= yoeOf doe <= 399 /\ 0 <= mpOf doe <= 11 /\ 1 <= domOf doe <= 31.
Proof. intros H. unfold domOf, mpOf, doyOf, yoeOf. divlia. Qed.

Lemma civilFromDays_eq (n : Z) :
  let era := (n + 719468) / 146097 in
  let doe := n + 719468 - era * 146097 in
  let m := if mpOf doe <? 10 then mpOf doe + 3 else mpOf doe - 9 in
  civilFromDays n
  = (if m <=? 2 then yoeOf doe + era * 400 + 1 else yoeOf doe + era * 400,
     m, domOf doe).
Proof. reflexivity. Qed.

Lemma doe_range (n : Z) :
  0 <= n + 719468 - (n + 719468) / 146097 * 146097 <= 146096.
Proof. divlia. Qed.

(** Month and day of month of any day number are in range. *)
Lemma civilFromDays_range (n : Z) :
  1 <= snd (fst (civilFromDays n)) <= 12 /\ 1 <= snd (civilFromDays n) <= 31.
Proof.
  rewrite civilFromDays_eq. cbv zeta. cbn [fst snd].
  pose proof (era_fields _ (doe_range n)) as (Hy & Hm & Hd).
  destruct (Z.ltb_spec (mpOf (n + 719468 - (n + 719468) / 146097 * 146097)) 10);
    lia.
Qed.

(** [daysFromCivil] inverts [civilFromDays]. *)
Lemma daysFromCivil_civilFromDays (n : Z) :
  daysFromCivil (fst (fst (civilFromDays n))) (snd (fst (civilFromDays n)))
                (snd (civilFromDays n)) = n.
Proof.
  rewrite civilFromDays_eq. cbv zeta. cbn [fst snd].
  pose proof (era_fields _ (doe_range n)) as (Hy & Hm & Hd).
  set (era := (n + 719468) / 146097) in *.
  set (doe := n + 719468 - era * 146097) in *.
  assert (Hdoy : (153 * mpOf doe + 2) / 5 + domOf doe - 1 = doyOf doe)
    by (unfold domOf; lia).
  assert (Hdoe : yoeOf doe * 365 + yoeOf doe / 4 - yoeOf doe / 100 + doyOf doe
                 = doe) by (unfold doyOf; lia).
  assert (Hera : (yoeOf doe + era * 400) / 400 = era).
  { rewrite Z.div_add by lia. rewrite Z.div_small by lia. lia. }
  unfold daysFromCivil.
  destruct (Z.ltb_spec (mpOf doe) 10).
  - destruct (Z.leb_spec (mpOf doe + 3) 2); [lia|].
    rewrite Hera.
    replace (yoeOf doe + era * 400 - era * 400) with (yoeOf doe) by lia.
    replace (mpOf doe + 3 - 3) with (mpOf doe) by lia.
    rewrite Hdoy, Hdoe. subst doe. lia.
  - destruct (Z.leb_spec (mpOf doe - 9) 2); [|lia].
    replace (yoeOf doe + era * 400 + 1 - 1) with (yoeOf doe + era * 400) by lia.
    rewrite Hera.
    replace (yoeOf doe + era * 400 - era * 400) with (yoeOf doe) by lia.
    replace (mpOf doe - 9 + 9) with (mpOf doe) by lia.
    rewrite Hdoy, Hdoe. subst doe. lia.
Qed.

(** The day number is linear in the day of month. *)
Lemma daysFromCivil_day (y m d : Z) :
  daysFromCivil y m d = daysFromCivil y m 1 + d - 1.
Proof. unfold daysFromCivil. lia. Qed.

Lemma MakeDay_civil (y m d : Z) :
  1 <= m <= 12 -> MakeDay y (m - 1) d = daysFromCivil y m d.
Proof.
  intros H. unfold MakeDay.
  replace ((m - 1) / 12) with 0 by divlia.
  replace ((m - 1) mod 12 + 1) with m by divlia.
  rewrite Z.add_0_r. symmetry. apply daysFromCivil_day.
Qed.

(** Day numbers of the years 0 .. 9999. *)
Lemma daysFromCivil_bounds (y m d : Z) :
  0 <= y <= 9999 -> 1 <= m <= 12 -> 1 <= d <= 31 ->
  -719900 <= daysFromCivil y m d <= 2932900.
Proof.
  intros Hy Hm Hd. unfold daysFromCivil.
  destruct (Z.leb_spec m 2); divlia.
Qed.

(* ================================================================== *)
(** ** The output format (C8) *)
(* ================================================================== *)

Lemma allFrom_spec (p : Z -> bool) : forall fuel i,
  allFrom fuel i p = true ->
  forall j, i <= j < i + Z.of_nat fuel -> p j = true.
Proof.
  induction fuel as [|f IH]; intros i H j Hj; [lia|].
  cbn [allFrom] in H. destruct (p i) eqn:E; [|discriminate].
  destruct (Z.eq_dec j i) as [->|Hne]; [exact E|].
  apply (IH (i + 1) H). lia.
Qed.

Lemma allBetween_spec (p : Z -> bool) (lo hi : Z) :
  allBetween lo hi p = true -> forall j, lo <= j <= hi -> p j = true.
Proof.
  intros H j Hj. apply (allFrom_spec p _ _ H). lia.
Qed.

Lemma isDigit_digitUnit (k : Z) : 0 <= k <= 9 -> isDigit (digitUnit k) = true.
Proof. unfold isDigit, digitUnit. lia. Qed.

Lemma str_eqb_eq (a : str) : forall b, str_eqb a b = true -> a = b.
Proof.
  induction a as [|x a IH]; intros [|y b] H; cbn in H; try discriminate.
  - reflexivity.
  - apply andb_true_iff in H. destruct H as [H1 H2].
    apply Z.eqb_eq in H1. rewrite (IH b H2). congruence.
Qed.

Lemma str_eqb_refl (a : str) : str_eqb a a = true.
Proof.
  induction a as [|x a IH]; [reflexivity|].
  cbn. rewrite Z.eqb_refl. exact IH.
Qed.

(** A number below 100 is padded to exactly two digits. *)
Lemma pad_two (v : Z) : 0 <= v <= 99 -> pad (Some v) 2 = twoDigits v.
Proof.
  intros H.
  assert (A : allBetween 0 99
                (fun v => str_eqb (pad (Some v) 2) (twoDigits v)) = true)
    by (vm_compute; reflexivity).
  apply str_eqb_eq. apply (allBetween_spec _ _ _ A v). lia.
Qed.

(** A year from 1000 to 9999 prints as its four digits. *)
Lemma toString_four (y : Z) : 1000 <= y <= 9999 -> toStringZ y = fourDigits y.
Proof.
  intros H.
  assert (A : allBetween 1000 9999
                (fun y => str_eqb (toStringZ y) (fourDigits y)) = true)
    by (vm_compute; reflexivity).
  apply str_eqb_eq. apply (allBetween_spec _ _ _ A y). lia.
Qed.

Lemma formatOffset_text (o : Z) :
  Z.abs o < 6000 -> formatOffset (Some o) = offsetText o.
Proof.
  intros H. unfold formatOffset, offsetText, minutesInHour.
  rewrite Z.quot_div_nonneg, Z.rem_mod_nonneg by lia.
  rewrite !pad_two by divlia. reflexivity.
Qed.

Lemma formatDateString_text (y mo d h mi s o : Z) (token : str) :
  1000 <= y <= 9999 -> 0 <= mo <= 99 -> 0 <= d <= 99 -> 0 <= h <= 99 ->
  0 <= mi <= 99 -> 0 <= s <= 99 -> Z.abs o < 6000 ->
  formatDateString
    (mkParts (Some y) (Some mo) (Some d) (Some h) (Some mi) (Some s))
    (Some o) token
  = isoText y mo d h mi s ++ js " " ++ offsetText o ++ js " " ++ token.
Proof.
  intros Hy Hmo Hd Hh Hmi Hs Ho. unfold formatDateString, isoText.
  cbn [p_year p_month p_day p_hour p_minute p_second toStringNum].
  rewrite toString_four, !pad_two, formatOffset_text by assumption.
  rewrite <- !app_assoc. reflexivity.
Qed.

Lemma isoText_shape (y mo d h mi s o : Z) (token : str) :
  1000 <= y <= 9999 -> 0 <= mo <= 99 -> 0 <= d <= 99 -> 0 <= h <= 99 ->
  0 <= mi <= 99 -> 0 <= s <= 99 -> Z.abs o < 6000 ->
  isoShape (isoText y mo d h mi s ++ js " " ++ offsetText o ++ js " " ++ token)
           token = true.
Proof.
  intros Hy Hmo Hd Hh Hmi Hs Ho.
  unfold isoText, offsetText, fourDigits, twoDigits.
  destruct (o >=? 0);
    cbn -[isDigit digitUnit Z.div Z.modulo];
    rewrite !isDigit_digitUnit by divlia; cbn [andb];
    apply str_eqb_refl.
Qed.

Section Format.

Variable host : Host.

Lemma format_fixed (t off y : Z) (lbl : str) :
  getUTCFullYear (newDate (Some (t + off * 60000))) = Some y ->
  1000 <= y <= 9999 -> Z.abs off < 6000 ->
  let l := t + off * 60000 in
  formatInstantForZone host (mkDate (Some t)) (Fixed off lbl)
  = Ok (isoText y (snd (fst (civilFromDays (dayOf l))))
                (snd (civilFromDays (dayOf l)))
                (l / 3600000 mod 24) (l / 60000 mod 60) (l / 1000 mod 60)
        ++ js " " ++ offsetText off ++ js " " ++ lbl).
Proof.
  intros Hy Hr Ho l. unfold formatInstantForZone.
  cbn [getTime option_map]. unfold millisecondsInMinute. fold l.
  unfold getUTCFullYear, newDate in Hy. cbn [getTime] in Hy. fold l in Hy.
  unfold getUTCFullYear, getUTCMonth, getUTCDate, getUTCHours, getUTCMinutes,
    getUTCSeconds, newDate. cbn [getTime].
  destruct (TimeClip (Some l)) as [l'|] eqn:E; [|discriminate].
  assert (l' = l).
  { unfold TimeClip in E. destruct (Z.abs l <=? maxTime); congruence. }
  subst l'. cbn [option_map] in *.
  assert (Hy' : fst (fst (civilFromDays (dayOf l))) = y) by congruence.
  pose proof (civilFromDays_range (dayOf l)) as [Hm Hd].
  rewrite Hy'.
  replace (snd (fst (civilFromDays (dayOf l))) - 1 + 1)
    with (snd (fst (civilFromDays (dayOf l)))) by lia.
  rewrite formatDateString_text; try assumption; try lia; try divlia.
  reflexivity.
Qed.

Lemma format_named (t u : Z) (name : str) (lbl : option str) :
  tzValid host name = true ->
  let hp := tzParts host name t in
  1000 <= hp_year hp <= 9999 -> 0 <= hp_month hp <= 99 ->
  0 <= hp_day hp <= 99 -> 0 <= hp_hour hp <= 99 -> 0 <= hp_minute hp <= 99 ->
  0 <= hp_second hp <= 99 ->
  DateUTC (hp_year hp) (hp_month hp - 1) (hp_day hp) (hp_hour hp)
          (hp_minute hp) (hp_second hp) 0 = Some u ->
  Z.abs (Z.quot (u - t) 60000) < 6000 ->
  formatInstantForZone host (mkDate (Some t)) (Iana name lbl)
  = Ok (isoText (hp_year hp) (hp_month hp) (hp_day hp) (hp_hour hp)
                (hp_minute hp) (hp_second hp)
        ++ js " " ++ offsetText (Z.quot (u - t) 60000) ++ js " "
        ++ zoneToken host name t).
Proof.
  intros Hv hp Hy Hmo Hd Hh Hmi Hs Hu Ho.
  unfold formatInstantForZone, getTimeZoneOffsetMilliseconds, toDateParts,
    zoneName, formatterForParts, formatterForZoneName.
  rewrite Hv. cbn [bind getTime]. fold hp.
  cbn [p_year p_month p_day p_hour p_minute p_second numDateUTC].
  rewrite Hu. cbn [num_sub truncMinutes option_map].
  unfold millisecondsInMinute, zoneToken.
  destruct (tzShortName host name t); cbn [bind];
    rewrite formatDateString_text by assumption; reflexivity.
Qed.

End Format.

(** C8, as amended.  For every instant and every zone in which the civil
    year of the instant has four digits (1000..9999) and the offset stays
    below 100 hours, [formatInstantForZone] produces exactly
    [YYYY-MM-DDTHH:MM:SS +-HH:MM ZONE]: four-digit year, zero-padded month,
    day, hour, minute and second, signed zero-padded offset, and the zone
    token after a space: the Fixed zone's label, or the Named zone's short
    display name at that instant.  (For a Named zone the civil fields and the
    offset are those the host reports.) *)
Theorem formatInstantForZone_shape :
  (forall host t off lbl y,
     getUTCFullYear (newDate (Some (t + off * 60000))) = Some y ->
     1000 <= y <= 9999 -> Z.abs off < 6000 ->
     let l := t + off * 60000 in
     exists out,
       formatInstantForZone host (mkDate (Some t)) (Fixed off lbl) = Ok out
       /\ out = isoText y (snd (fst (civilFromDays (dayOf l))))
                        (snd (civilFromDays (dayOf l)))
                        (l / 3600000 mod 24) (l / 60000 mod 60)
                        (l / 1000 mod 60)
                ++ js " " ++ offsetText off ++ js " " ++ lbl
       /\ isoShape out lbl = true)
  /\ (forall host t u name lbl,
        tzValid host name = true ->
        let hp := tzParts host name t in
        1000 <= hp_year hp <= 9999 -> 0 <= hp_month hp <= 99 ->
        0 <= hp_day hp <= 99 -> 0 <= hp_hour hp <= 99 ->
        0 <= hp_minute hp <= 99 -> 0 <= hp_second hp <= 99 ->
        DateUTC (hp_year hp) (hp_month hp - 1) (hp_day hp) (hp_hour hp)
                (hp_minute hp) (hp_second hp) 0 = Some u ->
        Z.abs (Z.quot (u - t) 60000) < 6000 ->
        exists out,
          formatInstantForZone host (mkDate (Some t)) (Iana name lbl) = Ok out
          /\ out = isoText (hp_year hp) (hp_month hp) (hp_day hp)
                           (hp_hour hp) (hp_minute hp) (hp_second hp)
                   ++ js " " ++ offsetText (Z.quot (u - t) 60000) ++ js " "
                   ++ zoneToken host name t
          /\ isoShape out (zoneToken host name t) = true).
Proof.
  split.
  - intros host t off lbl y Hy Hr Ho l.
    pose proof (civilFromDays_range (dayOf l)) as [Hm Hd].
    eexists. split; [apply (format_fixed host t off y lbl Hy Hr Ho)|].
    split; [reflexivity|].
    subst l. apply isoText_shape; try assumption; try lia; divlia.
  - intros host t u name lbl Hv hp Hy Hmo Hd Hh Hmi Hs Hu Ho.
    eexists. split;
      [apply (format_named host t u name lbl Hv Hy Hmo Hd Hh Hmi Hs Hu Ho)|].
    split; [reflexivity|].
    apply isoText_shape; assumption.
Qed.

Lemma formatInstantForZone_shape_witness :
  getUTCFullYear (newDate (Some (1548908684000 + (-420) * 60000))) = Some 2019
  /\ 1000 <= 2019 <= 9999 /\ Z.abs (-420) < 6000
  /\ exists out,
       formatInstantForZone utcHost (mkDate (Some 1548908684000))
         (Fixed (-420) (js "UTC-07:00")) = Ok out
       /\ out = js "2019-01-30T21:24:44 -07:00 UTC-07:00"
       /\ isoShape out (js "UTC-07:00") = true.
Proof.
  split; [reflexivity|]. split; [lia|]. split; [reflexivity|].
  destruct (proj1 formatInstantForZone_shape utcHost 1548908684000 (-420)
              (js "UTC-07:00") 2019 eq_refl ltac:(lia) eq_refl)
    as (out & H1 & H2 & H3).
  exists out. split; [exact H1|]. split; [|exact H3].
  rewrite H2. reflexivity.
Defined.

(** The instant 10000-01-01T00:00:00Z, which the nanosecond epoch
    "253402300800000000000" parses to, has no four-digit year to print: the
    claim as stated fails there. *)
Lemma formatInstantForZone_year_10000 :
  parseNumeric utcHost (js "253402300800000000000") utcZone
  = Ok (Some (mkDate (Some 253402300800000)))
  /\ formatInstantForZone utcHost (mkDate (Some 253402300800000)) utcZone
     = Ok (js "10000-01-01T00:00:00 +00:00 UTC")
  /\ isoShape (js "10000-01-01T00:00:00 +00:00 UTC") (js "UTC") = false.
Proof. repeat split; vm_compute; reflexivity. Qed.

(** Below the year 1000 the year is printed without padding. *)
Lemma formatInstantForZone_year_100 :
  parseDashDate utcHost (js "0100-01-01") utcZone
  = Ok (Some (mkDate (Some (-59011459200000))))
  /\ formatInstantForZone utcHost (mkDate (Some (-59011459200000))) utcZone
     = Ok (js "100-01-01T00:00:00 +00:00 UTC").
Proof. split; vm_compute; reflexivity. Qed.

(* ================================================================== *)
(** ** Formatting, then parsing again (C9) *)
(* ================================================================== *)

Lemma digit_neq (k c : Z) :
  isDigit c = true -> isDigit k = false -> (k =? c) = false.
Proof. intros H1 H2. apply Z.eqb_neq. intros ->. congruence. Qed.

Lemma includes_mid (c : Z) (l r : str) : includes c (l ++ c :: r) = true.
Proof.
  unfold includes. rewrite existsb_app. cbn [existsb].
  rewrite Z.eqb_refl, orb_true_r. reflexivity.
Qed.

Lemma forallb_mid (p : Z -> bool) (c : Z) (l r : str) :
  forallb p (l ++ c :: r) = true -> p c = true.
Proof.
  rewrite forallb_app. cbn [forallb]. intros H.
  apply andb_true_iff in H. destruct H as [_ H].
  apply andb_true_iff in H. tauto.
Qed.

(** A text without white space is no relative "ago" phrase. *)
Lemma ago_needs_space (s : str) :
  forallb (fun c => negb (isSpace c)) s = true -> exec agoPattern s = None.
Proof.
  intros H. destruct (exec agoPattern s) as [m|] eqn:E; [|reflexivity].
  exfalso. apply exec_anchored_sound in E. destruct E as (st & E & _).
  pat_unfold E. step_inv.
  all: match goal with
       | Hs : forallb isSpace ?sp = true, Hl : (1 <= length ?sp)%nat,
         Hn : forallb _ (_ ++ ?sp ++ _) = true |- _ =>
           destruct sp as [|c sp]; [cbn in Hl; lia|];
           rewrite forallb_app in Hn; apply andb_true_iff in Hn;
           destruct Hn as [_ Hn]; cbn [app forallb] in Hn, Hs;
           apply andb_true_iff in Hn; destruct Hn as [Hn _];
           apply andb_true_iff in Hs; destruct Hs as [Hs _];
           rewrite Hs in Hn; discriminate
       end.
Qed.

(** A text that starts with a digit is not "now". *)
Lemma now_needs_n (c : Z) (s : str) :
  isDigit c = true -> test (seq [Bol; liti "now"]) (c :: s) = false.
Proof.
  intros H. destruct (test _ _) eqn:T; [|reflexivity].
  apply test_anchored_sound in T. destruct T as (st & T).
  unfold liti, seq in T. cbn in T. step_inv. cons_inv. unit_lia.
Qed.

(** *** Stepping the matcher along a subject that is known to match *)

Lemma mt_opt a st k :
  mt (opt a) st k
  = match mt a st k with
    | Some x => Some x
    | None => k st
    end.
Proof. reflexivity. Qed.

Lemma mt_opt_take a st k x : mt a st k = Some x -> mt (opt a) st k = Some x.
Proof. intros H. rewrite mt_opt, H. reflexivity. Qed.

Lemma mt_opt_skip a st k x :
  mt a st k = None -> k st = Some x -> mt (opt a) st k = Some x.
Proof. intros H1 H2. rewrite mt_opt, H1. exact H2. Qed.

Lemma mt_Chr_ok p c pr rs cs k x :
  p c = true -> k (MS (c :: pr) rs cs) = Some x ->
  mt (Chr p) (MS pr (c :: rs) cs) k = Some x.
Proof. intros Hp Hk. cbn [mt ms_rest ms_prev ms_caps]. rewrite Hp. exact Hk. Qed.

Lemma mt_Grp_Rep_ok p g lo hi ds pr rs cs k x :
  forallb p ds = true ->
  (lo <= length ds)%nat -> (length ds <= hi)%nat ->
  headIs p rs = false \/ length ds = hi ->
  k (MS (rev ds ++ pr) rs (setCap g ds cs)) = Some x ->
  mt (Grp g (Rep lo (Some hi) (Chr p))) (MS pr (ds ++ rs) cs) k = Some x.
Proof.
  intros Hp Hlo Hhi Hend Hk.
  change (mt (Grp g (Rep lo (Some hi) (Chr p))) (MS pr (ds ++ rs) cs) k)
    with (repLoop (Chr p)
            (fun st' => k (MS (ms_prev st') (ms_rest st')
                              (setCap g (consumed pr (ms_prev st'))
                                      (ms_caps st'))))
            hi lo (MS pr (ds ++ rs) cs)).
  apply repLoop_chr_greedy; auto.
  cbn [ms_prev ms_rest ms_caps]. rewrite consumed_app. exact Hk.
Qed.

Section IsoText.

Variable host : Host.
Variables Y1 Y2 Y3 Y4 M1 M2 D1 D2 H1 H2 I1 I2 S1 S2 : Z.
Hypothesis dY1 : isDigit Y1 = true.
Hypothesis dY2 : isDigit Y2 = true.
Hypothesis dY3 : isDigit Y3 = true.
Hypothesis dY4 : isDigit Y4 = true.
Hypothesis dM1 : isDigit M1 = true.
Hypothesis dM2 : isDigit M2 = true.
Hypothesis dD1 : isDigit D1 = true.
Hypothesis dD2 : isDigit D2 = true.
Hypothesis dH1 : isDigit H1 = true.
Hypothesis dH2 : isDigit H2 = true.
Hypothesis dI1 : isDigit I1 = true.
Hypothesis dI2 : isDigit I2 = true.
Hypothesis dS1 : isDigit S1 = true.
Hypothesis dS2 : isDigit S2 = true.

Local Notation "'isoU'" :=
  (isoUnits Y1 Y2 Y3 Y4 M1 M2 D1 D2 H1 H2 I1 I2 S1 S2).

Ltac digit_facts :=
  repeat match goal with
  | H : isDigit ?c = true |- context [isSpace ?c] =>
      rewrite (digit_not_space c H)
  | H : isDigit ?c = true |- context [isDigit ?c] => rewrite H
  | H : isDigit ?c = true |- context [?k =? ?c] =>
      rewrite (digit_neq k c H eq_refl)
  end.

Lemma iso_trim : trim isoU = isoU.
Proof.
  apply trim_id; unfold isoUnits; cbn [headIs rev app]; digit_facts;
    reflexivity.
Qed.

Lemma iso_no_space : forallb (fun c => negb (isSpace c)) isoU = true.
Proof. unfold isoUnits. cbn [forallb]. digit_facts. reflexivity. Qed.

Lemma iso_no_comma : includes 44 isoU = false.
Proof.
  unfold includes, isoUnits. cbn [existsb]. digit_facts. reflexivity.
Qed.

Lemma iso_split dz : splitInputAndZone host isoU dz = (isoU, dz).
Proof.
  unfold splitInputAndZone. rewrite iso_trim.
  rewrite (lastIndexOf_absent 44 _ iso_no_comma). reflexivity.
Qed.

Lemma iso_state : detectState isoU = DigitDash.
Proof.
  unfold detectState. rewrite iso_trim.
  assert (T1 : test (seq [Bol; digit]) isoU = true).
  { unfold isoUnits, test, seq, digit. cbn -[isDigit]. rewrite dY1.
    reflexivity. }
  assert (T2 : test allDigitsPattern isoU = false).
  { destruct (test allDigitsPattern isoU) eqn:T; [|reflexivity].
    apply allDigits_sound in T. destruct T as [_ T].
    apply (forallb_mid isDigit 45 [Y1; Y2; Y3; Y4]) in T. discriminate. }
  assert (T3 : includes 45 isoU = true)
    by apply (includes_mid 45 [Y1; Y2; Y3; Y4]).
  rewrite T1, T2, T3. reflexivity.
Qed.

Lemma iso_now : parseNow host isoU = None.
Proof.
  unfold parseNow. rewrite iso_trim. unfold isoUnits.
  rewrite (now_needs_n Y1 _ dY1). reflexivity.
Qed.

Lemma iso_ago : parseAgo host isoU = None.
Proof.
  unfold parseAgo. rewrite iso_trim, (ago_needs_space _ iso_no_space).
  reflexivity.
Qed.

Lemma iso_exec :
  exec dateTimePattern isoU
  = Some (setCap 6 [S1; S2] (setCap 5 [I1; I2] (setCap 4 [H1; H2]
            (setCap 3 [D1; D2] (setCap 2 [M1; M2]
               (setCap 1 [Y1; Y2; Y3; Y4] noCaps)))))).
Proof.
  assert (E : mt dateTimePattern (MS [] isoU noCaps) Some
              = Some (MS (rev isoU) []
                         (setCap 6 [S1; S2] (setCap 5 [I1; I2]
                            (setCap 4 [H1; H2] (setCap 3 [D1; D2]
                               (setCap 2 [M1; M2]
                                  (setCap 1 [Y1; Y2; Y3; Y4] noCaps)))))))).
  { unfold dateTimePattern, timeTail, seq, times, range, digit, ch, unit1,
      isoUnits.
    cbn [fold_right app js list_ascii_of_string map].
    rewrite mt_Seq, mt_Bol.
    rewrite mt_Seq.
    apply (mt_Grp_Rep_ok isDigit 1 4 4 [Y1; Y2; Y3; Y4]);
      [cbn [forallb]; digit_facts; reflexivity|cbn; lia|cbn; lia|right; reflexivity|].
    rewrite mt_Seq. apply mt_Chr_ok; [reflexivity|].
    rewrite mt_Seq.
    apply (mt_Grp_Rep_ok isDigit 2 1 2 [M1; M2]);
      [cbn [forallb]; digit_facts; reflexivity|cbn; lia|cbn; lia|right; reflexivity|].
    rewrite mt_Seq. apply mt_Chr_ok; [reflexivity|].
    rewrite mt_Seq.
    apply (mt_Grp_Rep_ok isDigit 3 1 2 [D1; D2]);
      [cbn [forallb]; digit_facts; reflexivity|cbn; lia|cbn; lia|right; reflexivity|].
    rewrite mt_Seq. apply mt_Chr_ok; [reflexivity|].
    rewrite mt_Seq.
    apply (mt_Grp_Rep_ok isDigit 4 1 2 [H1; H2]);
      [cbn [forallb]; digit_facts; reflexivity|cbn; lia|cbn; lia|right; reflexivity|].
    rewrite mt_Seq. apply mt_Chr_ok; [reflexivity|].
    rewrite mt_Seq.
    apply (mt_Grp_Rep_ok isDigit 5 2 2 [I1; I2]);
      [cbn [forallb]; digit_facts; reflexivity|cbn; lia|cbn; lia|right; reflexivity|].
    rewrite mt_Seq. apply mt_opt_take.
    rewrite mt_Seq. apply mt_Chr_ok; [reflexivity|].
    rewrite mt_Seq.
    apply (mt_Grp_Rep_ok isDigit 6 2 2 [S1; S2] _ []);
      [cbn [forallb]; digit_facts; reflexivity|cbn; lia|cbn; lia|right; reflexivity|].
    rewrite mt_Eps.
    rewrite mt_Seq. apply mt_opt_skip; [reflexivity|].
    rewrite mt_Seq. apply mt_opt_skip; [reflexivity|].
    reflexivity. }
  unfold exec. unfold isoUnits at 1. cbn [searchFrom].
  fold isoU. rewrite E. reflexivity.
Qed.

Lemma iso_dash z :
  parseDashDate host isoU z
  = parseComponentsWithMeridiem host
      (numberOfDigits [Y1; Y2; Y3; Y4]) (numberOfDigits [M1; M2])
      (numberOfDigits [D1; D2]) (numberOfDigits [H1; H2])
      (numberOfDigits [I1; I2]) (numberOfDigits [S1; S2]) 0 z None.
Proof.
  rewrite (parseDashDate_dateTime host isoU z _ iso_exec). reflexivity.
Qed.

(** When the date-time parser accepts the text, so does [parseDateInput],
    under the label "dash". *)
Lemma iso_parse z date :
  parseDashDate host isoU z = Ok (Some date) ->
  isNaNDate date = false ->
  parseDateInput host isoU z
  = Ok (ParseSuccess isoU z (zoneDisplayName z) date (js "dash")).
Proof.
  intros Hd Hn. unfold parseDateInput. rewrite iso_split.
  change isoU with (Y1 :: tl isoU) at 1. cbv iota beta.
  rewrite iso_state. unfold parserPipeline. cbn [app firstMatch].
  unfold pure2. rewrite iso_now, iso_ago. cbn [bind].
  rewrite Hd. cbn [bind]. rewrite Hn. reflexivity.
Qed.

End IsoText.

Lemma four_value (y : Z) : 0 <= y <= 9999 -> numberOfDigits (fourDigits y) = y.
Proof.
  intros H. unfold numberOfDigits, fourDigits, digitVal, digitUnit.
  cbn [fold_left]. divlia.
Qed.

Lemma two_value (v : Z) : 0 <= v <= 99 -> numberOfDigits (twoDigits v) = v.
Proof.
  intros H. unfold numberOfDigits, twoDigits, digitVal, digitUnit.
  cbn [fold_left]. divlia.
Qed.


Section Reparse.

Variable host : Host.

Lemma isoText_units (y mo d h mi s : Z) :
  isoText y mo d h mi s
  = isoUnits (digitUnit (y / 1000)) (digitUnit (y / 100 mod 10))
             (digitUnit (y / 10 mod 10)) (digitUnit (y mod 10))
             (digitUnit (mo / 10)) (digitUnit (mo mod 10))
             (digitUnit (d / 10)) (digitUnit (d mod 10))
             (digitUnit (h / 10)) (digitUnit (h mod 10))
             (digitUnit (mi / 10)) (digitUnit (mi mod 10))
             (digitUnit (s / 10)) (digitUnit (s mod 10)).
Proof. reflexivity. Qed.


(** Parsing [YYYY-MM-DDTHH:MM:SS] written from valid fields gives back the
    instant of those fields in the source zone. *)
Lemma parse_isoText (y mo d h mi s : Z) (z : ZoneSpec) (date : Date) :
  0 <= y <= 9999 -> 0 <= mo <= 99 -> 0 <= d <= 99 ->
  0 <= h <= 23 -> 0 <= mi <= 59 -> 0 <= s <= 59 ->
  isValidCalendarDate y mo d = true ->
  toInstantFromComponents host
    (mkComponents y mo d (Some h) (Some mi) (Some s) (Some 0)) z = Ok date ->
  isNaNDate date = false ->
  parseDateInput host (isoText y mo d h mi s) z
  = Ok (ParseSuccess (isoText y mo d h mi s) z (zoneDisplayName z) date
                     (js "dash")).
Proof.
  intros Hy Hmo Hd Hh Hmi Hs Hv Hi Hn.
  rewrite isoText_units.
  apply iso_parse; try (apply isDigit_digitUnit; divlia); [|exact Hn].
  rewrite iso_dash by (apply isDigit_digitUnit; divlia).
  change [digitUnit (y / 1000); digitUnit (y / 100 mod 10);
          digitUnit (y / 10 mod 10); digitUnit (y mod 10)]
    with (fourDigits y).
  change [digitUnit (mo / 10); digitUnit (mo mod 10)] with (twoDigits mo).
  change [digitUnit (d / 10); digitUnit (d mod 10)] with (twoDigits d).
  change [digitUnit (h / 10); digitUnit (h mod 10)] with (twoDigits h).
  change [digitUnit (mi / 10); digitUnit (mi mod 10)] with (twoDigits mi).
  change [digitUnit (s / 10); digitUnit (s mod 10)] with (twoDigits s).
  rewrite four_value, !two_value by lia.
  rewrite (attempt_valid_time host y mo d h mi s 0 z None h)
    by (reflexivity || lia).
  rewrite Hv, Hi. reflexivity.
Qed.

End Reparse.


Section RoundTrip.

Variable host : Host.



End RoundTrip.


(* ================================================================== *)
(** ** No exception escapes [parseDateInput] (C5) *)
(* ================================================================== *)

(** *** The year groups of the patterns hold at most four digits *)

Lemma digitsGroup_bound (g : option str) :
  digitsGroup 4 g -> 0 <= numberOr0 g <= 9999.
Proof.
  destruct g as [ds|]; cbn [digitsGroup numberOr0]; [|lia].
  intros [Hd Hl]. pose proof (numberOfDigits_range ds Hd) as Hr.
  assert (10 ^ len ds <= 10 ^ 4)
    by (apply Z.pow_le_mono_r; unfold len; lia).
  lia.
Qed.

Ltac group_digits :=
  match goal with
  | H : exec _ _ = Some _ |- _ =>
      apply exec_anchored_sound in H; destruct H as (? & H & <-);
      pat_unfold H; step_inv
  end;
  cbn [cap nth setCap noCaps repeat digitsGroup];
  solve [ exact I
        | split; [assumption|];
          match goal with
          | Hh : forall h, Some ?k = Some h -> (length ?x <= h)%nat
            |- (length ?x <= _)%nat => specialize (Hh k eq_refl); lia
          end ].

Lemma compact14_year s m :
  exec compact14Pattern s = Some m -> digitsGroup 4 (cap m 1).
Proof. intros H. group_digits. Qed.

Lemma compact8_year s m :
  exec compact8Pattern s = Some m -> digitsGroup 4 (cap m 1).
Proof. intros H. group_digits. Qed.

Lemma chinese_year s m :
  exec chinesePattern s = Some m -> digitsGroup 4 (cap m 1).
Proof. intros H. group_digits. Qed.

Lemma plainDate_year s m :
  exec plainDatePattern s = Some m -> digitsGroup 4 (cap m 1).
Proof. intros H. group_digits. Qed.

Lemma yearMonth_year s m :
  exec yearMonthPattern s = Some m -> digitsGroup 4 (cap m 1).
Proof. intros H. group_digits. Qed.

Lemma monthText_year s m :
  exec monthTextPattern s = Some m -> digitsGroup 4 (cap m 1).
Proof. intros H. group_digits. Qed.

Lemma dateTime_year s m :
  exec dateTimePattern s = Some m -> digitsGroup 4 (cap m 1).
Proof. intros H. group_digits. Qed.

Lemma slash_year_a s m :
  exec slashPattern s = Some m -> digitsGroup 4 (cap m 1).
Proof. intros H. group_digits. Qed.

Lemma slash_year_c s m :
  exec slashPattern s = Some m -> digitsGroup 4 (cap m 3).
Proof. intros H. group_digits. Qed.

Lemma dayMonthName_year s m :
  exec dayMonthNamePattern s = Some m -> digitsGroup 4 (cap m 3).
Proof. intros H. group_digits. Qed.

Lemma monthName_year s m :
  exec monthNamePattern s = Some m -> digitsGroup 4 (cap m 3).
Proof. intros H. group_digits. Qed.

Lemma ansi_year s m :
  exec ansiPattern s = Some m -> digitsGroup 4 (cap m 6).
Proof. intros H. group_digits. Qed.

(** *** Well-formed zones and a sane host *)

Section Totality.

Variable host : Host.
Hypothesis Hhost : hostOk host.

Lemma offset_valid_zone (name : str) (t : Z) :
  tzValid host name = true ->
  getTimeZoneOffsetMilliseconds host (mkDate (Some t)) name
  = Ok (num_sub (hostPartsUTC (tzParts host name t)) (Some t)).
Proof.
  intros Hv. unfold getTimeZoneOffsetMilliseconds, toDateParts,
    formatterForParts.
  rewrite Hv. reflexivity.
Qed.

Lemma toInstant_total (c : DateComponents) (z : ZoneSpec) (g : Z) :
  zoneOk host z -> utcGuessOf c = Some g -> Z.abs g <= 300000000000000 ->
  exists d, toInstantFromComponents host c z = Ok d.
Proof.
  intros Hz Hg Hb. unfold toInstantFromComponents. fold (utcGuessOf c).
  rewrite Hg. destruct z as [name lbl|off lbl]; [|eauto].
  cbn [zoneOk] in Hz.
  assert (N1 : newDate (Some g) = mkDate (Some g)).
  { unfold newDate, TimeClip, maxTime.
    destruct (Z.leb_spec (Z.abs g) 8640000000000000); [reflexivity|lia]. }
  rewrite N1, (offset_valid_zone name g Hz). cbn [bind].
  destruct (parts_sane host Hhost name g Hz Hb) as (u & Hu & Hub).
  rewrite Hu. cbn [num_sub].
  assert (N2 : newDate (Some (g - (u - g))) = mkDate (Some (g - (u - g)))).
  { unfold newDate, TimeClip, maxTime.
    destruct (Z.leb_spec (Z.abs (g - (u - g))) 8640000000000000);
      [reflexivity|lia]. }
  rewrite N2, (offset_valid_zone name _ Hz). cbn [bind]. eauto.
Qed.

Lemma valid_date_ranges (y m d : Z) :
  isValidCalendarDate y m d = true -> 1 <= m <= 12 /\ 1 <= d <= 31.
Proof.
  unfold isValidCalendarDate.
  destruct (Z.ltb_spec m 1); [discriminate|].
  destruct (Z.gtb_spec m 12); [discriminate|].
  destruct (Z.ltb_spec d 1); [discriminate|].
  destruct (Z.gtb_spec d 31); [discriminate|]. lia.
Qed.

Lemma utcGuess_bound (y m d h mi s ms : Z) :
  0 <= y <= 9999 -> 1 <= m <= 12 -> 1 <= d <= 31 ->
  0 <= h <= 23 -> 0 <= mi <= 59 -> 0 <= s <= 59 -> 0 <= ms <= 999 ->
  exists g, DateUTC y (m - 1) d h mi s ms = Some g
            /\ Z.abs g <= 300000000000000.
Proof.
  intros Hy Hm Hd Hh Hmi Hs Hms. unfold DateUTC.
  set (yr := if (0 <=? y) && (y <=? 99) then 1900 + y else y).
  assert (Hyr : 0 <= yr <= 9999).
  { subst yr. destruct ((0 <=? y) && (y <=? 99)) eqn:E; [|lia].
    apply andb_true_iff in E. lia. }
  rewrite MakeDay_civil by lia.
  pose proof (daysFromCivil_bounds yr m d Hyr Hm Hd) as Hb.
  unfold MakeTime, msPerDay, TimeClip, maxTime.
  set (v := daysFromCivil yr m d * 86400000
            + (h * 3600000 + mi * 60000 + s * 1000 + ms)).
  assert (Z.abs v <= 300000000000000) by (subst v; lia).
  exists v. destruct (Z.leb_spec (Z.abs v) 8640000000000000); [auto|lia].
Qed.

Lemma build_total (base : DateComponents) (z : ZoneSpec) :
  zoneOk host z -> 0 <= year base <= 9999 ->
  exists r, buildDateFromComponents host base z = Ok r.
Proof.
  intros Hz Hy. unfold buildDateFromComponents.
  destruct (isValidCalendarDate (year base) (month base) (day base)) eqn:V;
    [|eexists; reflexivity].
  apply valid_date_ranges in V. destruct V as [Hm Hd]. cbn [negb].
  repeat match goal with
  | |- context [if ?c then Ok None else _] =>
      destruct c eqn:?; [eexists; reflexivity|]
  end.
  repeat match goal with
  | H : (_ || _) = false |- _ =>
      apply orb_false_iff in H; let H' := fresh in destruct H as [H H']
  end.
  rewrite ?Z.gtb_ltb in *.
  repeat match goal with
  | H : (_ <? _) = false |- _ => apply Z.ltb_ge in H
  end.
  destruct (utcGuess_bound (year base) (month base) (day base)
              (orZero (hour base)) (orZero (minute base))
              (orZero (second base)) (orZero (millisecond base))
              Hy Hm Hd ltac:(lia) ltac:(lia) ltac:(lia) ltac:(lia))
    as (g & Hg & Hb).
  destruct (toInstant_total base z g Hz Hg Hb) as (dt & E).
  rewrite E. cbn [bind]. eauto.
Qed.

Lemma components_total (y mo d h mi s ms : Z) (z : ZoneSpec)
  (mer : option str) :
  zoneOk host z -> 0 <= y <= 9999 ->
  exists r, parseComponentsWithMeridiem host y mo d h mi s ms z mer = Ok r.
Proof.
  intros Hz Hy. unfold parseComponentsWithMeridiem.
  destruct (applyMeridiem h mer); [|eexists; reflexivity].
  apply build_total; assumption.
Qed.

End Totality.

Section ParsersTotal.

Variable host : Host.
Hypothesis Hhost : hostOk host.
Variable z : ZoneSpec.
Hypothesis Hz : zoneOk host z.

Lemma numberOf_groupText (g : option str) :
  numberOfDigits (groupText g) = numberOr0 g.
Proof. destruct g; reflexivity. Qed.

Ltac year_ok :=
  match goal with
  | H : exec ?p ?s = Some ?m |- 0 <= numberOf (cap ?m ?i) <= 9999 =>
      apply digitsGroup_bound;
      first [ exact (compact14_year s m H) | exact (compact8_year s m H)
            | exact (chinese_year s m H) | exact (plainDate_year s m H)
            | exact (yearMonth_year s m H) | exact (monthText_year s m H)
            | exact (dateTime_year s m H) | exact (dayMonthName_year s m H)
            | exact (monthName_year s m H) | exact (ansi_year s m H) ]
  end.

Lemma parseNumeric_total (input : str) :
  exists r, parseNumeric host input z = Ok r.
Proof.
  unfold parseNumeric.
  destruct (test allDigitsPattern input) eqn:T; [|eexists; reflexivity].
  apply allDigits_sound in T. destruct T as [Hne Hd]. cbn [negb].
  destruct ((len input =? 14) && startsWith (js "2") input).
  { destruct (exec compact14Pattern input) as [m|] eqn:E;
      [|eexists; reflexivity].
    apply (components_total host Hhost); [exact Hz|year_ok]. }
  destruct ((len input =? 8) && startsWith (js "2") input).
  { destruct (exec compact8Pattern input) as [m|] eqn:E;
      [|eexists; reflexivity].
    apply (build_total host Hhost); [exact Hz|]. cbn [year dateOnly]. year_ok. }
  destruct ((len input =? 4) && startsWith (js "2") input) eqn:E4.
  { apply (build_total host Hhost); [exact Hz|]. cbn [year dateOnly].
    apply andb_true_iff in E4. destruct E4 as [E4 _]. apply Z.eqb_eq in E4.
    pose proof (numberOfDigits_range input Hd) as Hr. rewrite E4 in Hr.
    change (10 ^ 4) with 10000 in Hr. lia. }
  repeat match goal with
  | |- context [if ?c then Ok None else _] =>
      destruct c; [eexists; reflexivity|]
  end.
  eexists; reflexivity.
Qed.

Lemma parseChineseDate_total (input : str) :
  exists r, parseChineseDate host input z = Ok r.
Proof.
  unfold parseChineseDate.
  destruct (exec chinesePattern (trim input)) as [m|] eqn:E;
    [|eexists; reflexivity].
  apply (components_total host Hhost); [exact Hz|year_ok].
Qed.

Lemma parseDashDate_total (input : str) :
  exists r, parseDashDate host input z = Ok r.
Proof.
  unfold parseDashDate.
  destruct (exec plainDatePattern input) as [m|] eqn:E1.
  { apply (build_total host Hhost); [exact Hz|]. cbn [year dateOnly]. year_ok. }
  destruct (exec yearMonthPattern input) as [m|] eqn:E2.
  { apply (build_total host Hhost); [exact Hz|]. cbn [year dateOnly]. year_ok. }
  destruct (exec monthTextPattern input) as [m|] eqn:E3.
  { destruct (parseMonthToken (groupText (cap m 2))); [|eexists; reflexivity].
    apply (build_total host Hhost); [exact Hz|]. cbn [year dateOnly]. year_ok. }
  destruct (exec dateTimePattern input) as [m|] eqn:E4;
    [|eexists; reflexivity].
  apply (components_total host Hhost); [exact Hz|year_ok].
Qed.

Lemma firstCandidate_total (h mi s ms : Z) (mer : option str) :
  forall attempts,
    Forall (fun a => 0 <= fst (fst a) <= 9999) attempts ->
    exists r, firstCandidate host attempts h mi s ms z mer = Ok r.
Proof.
  induction attempts as [|[[y mo] d] rest IH]; intros H;
    [eexists; reflexivity|].
  inversion H as [|a l Hy Hrest]; subst. cbn [fst] in Hy.
  cbn [firstCandidate].
  destruct (components_total host Hhost y mo d h mi s ms z mer Hz Hy)
    as (r & E).
  rewrite E. cbn [bind]. destruct r; [eexists; reflexivity|].
  apply IH. exact Hrest.
Qed.

Lemma two_digit_year (g : option str) :
  digitsGroup 4 g -> len (groupText g) <= 2 ->
  0 <= expandTwoDigitYear (numberOfDigits (groupText g)) <= 9999.
Proof.
  intros Hg Hl. destruct g as [ds|]; cbn [groupText digitsGroup] in *.
  - destruct Hg as [Hd _]. pose proof (numberOfDigits_range ds Hd) as Hr.
    assert (10 ^ len ds <= 10 ^ 2)
      by (apply Z.pow_le_mono_r; pose proof (len_nonneg ds); lia).
    unfold expandTwoDigitYear.
    destruct (Z.geb_spec (numberOfDigits ds) 69); lia.
  - cbn. lia.
Qed.

Lemma parseSlashDate_total (input : str) :
  exists r, parseSlashDate host input z = Ok r.
Proof.
  unfold parseSlashDate.
  destruct (exec slashPattern input) as [m|] eqn:E; [|eexists; reflexivity].
  pose proof (slash_year_a input m E) as Ha.
  pose proof (slash_year_c input m E) as Hc.
  apply firstCandidate_total.
  destruct (len (groupText (cap m 1)) =? 4).
  { constructor; [|constructor]. cbn [fst].
    rewrite numberOf_groupText. apply digitsGroup_bound. exact Ha. }
  destruct (len (groupText (cap m 3)) =? 4).
  { constructor; [|constructor]. cbn [fst].
    rewrite numberOf_groupText. apply digitsGroup_bound. exact Hc. }
  destruct (Z.leb_spec (len (groupText (cap m 1))) 2); [|constructor].
  destruct (len (groupText (cap m 2)) <=? 2); [|constructor].
  destruct (Z.leb_spec (len (groupText (cap m 3))) 2); [|constructor].
  cbn [andb]. constructor; [|constructor; [|constructor]]; cbn [fst];
    apply two_digit_year; assumption.
Qed.

Lemma parseDayMonthName_total (input : str) :
  exists r, parseDayMonthName host input z = Ok r.
Proof.
  unfold parseDayMonthName.
  destruct (exec dayMonthNamePattern (trim input)) as [m|] eqn:E;
    [|eexists; reflexivity].
  destruct (parseMonthToken (groupText (cap m 2))); [|eexists; reflexivity].
  apply (components_total host Hhost); [exact Hz|year_ok].
Qed.

Lemma parseMonthNameDate_total (input : str) :
  exists r, parseMonthNameDate host input z = Ok r.
Proof.
  unfold parseMonthNameDate.
  destruct (exec monthNamePattern (trim input)) as [m|] eqn:E;
    [|eexists; reflexivity].
  destruct (parseMonthToken (groupText (cap m 1))); [|eexists; reflexivity].
  apply (components_total host Hhost); [exact Hz|year_ok].
Qed.

Lemma parseAnsiStyle_total (input : str) :
  exists r, parseAnsiStyle host input z = Ok r.
Proof.
  unfold parseAnsiStyle.
  destruct (exec ansiPattern (trim input)) as [m|] eqn:E;
    [|eexists; reflexivity].
  destruct (parseMonthToken (groupText (cap m 1))); [|eexists; reflexivity].
  apply (components_total host Hhost); [exact Hz|year_ok].
Qed.

(** No parser of any pipeline throws. *)
Lemma pipeline_total (state : ParseState) (input : str) :
  forall label parser,
    In (label, parser) (parserPipeline host state) ->
    exists r, parser input z = Ok r.
Proof.
  intros label parser Hin.
  destruct state; cbn [parserPipeline app In] in Hin;
    repeat (destruct Hin as [Hin|Hin];
            [injection Hin as _ <-;
             first [ eexists; reflexivity
                   | apply parseNumeric_total | apply parseDashDate_total
                   | apply parseSlashDate_total | apply parseChineseDate_total
                   | apply parseDayMonthName_total
                   | apply parseMonthNameDate_total
                   | apply parseAnsiStyle_total ]|]);
    contradiction.
Qed.

Lemma firstMatch_total (input : str) :
  forall parsers,
    (forall label parser, In (label, parser) parsers ->
                          exists r, parser input z = Ok r) ->
    exists r, firstMatch parsers input z = Ok r.
Proof.
  induction parsers as [|[label parser] rest IH]; intros H;
    [eexists; reflexivity|].
  cbn [firstMatch].
  destruct (H label parser (or_introl eq_refl)) as (r & E).
  rewrite E. cbn [bind].
  assert (IH' : exists r, firstMatch rest input z = Ok r)
    by (apply IH; intros l p Hin; apply (H l p); right; exact Hin).
  destruct r as [d|]; [|exact IH'].
  destruct (isNaNDate d); [exact IH'|eexists; reflexivity].
Qed.

End ParsersTotal.

(** *** Zones out of the resolver are well formed *)

Lemma parseFixedOffset_ok host raw z :
  parseFixedOffset raw = Some z -> zoneOk host z.
Proof.
  unfold parseFixedOffset, fixedZone.
  repeat match goal with
  | |- context [match exec ?p ?s with _ => _ end] => destruct (exec p s)
  | |- context [if ?c then None else _] => destruct c
  end;
  intros H; try discriminate; injection H as <-; exact I.
Qed.

Lemma parseZone_ok host raw z :
  hostOk host -> parseZone host raw = Some z -> zoneOk host z.
Proof.
  intros Hh. unfold parseZone.
  destruct (trim raw) as [|c t]; [discriminate|].
  destruct (test _ (c :: t)).
  { intros H. injection H as <-. exact (local_valid host Hh). }
  destruct (test _ (c :: t)).
  { intros H. injection H as <-. exact I. }
  destruct (parseFixedOffset (c :: t)) as [f|] eqn:E.
  { intros H. injection H as <-. exact (parseFixedOffset_ok host _ _ E). }
  unfold isValidIanaTimeZone, formatterForParts.
  destruct (tzValid host (c :: t)) eqn:V; cbn [bind catch];
    intros H; [injection H as <-; exact V|discriminate].
Qed.

Lemma splitInputAndZone_ok host raw dz :
  hostOk host -> zoneOk host dz ->
  zoneOk host (snd (splitInputAndZone host raw dz)).
Proof.
  intros Hh Hz. unfold splitInputAndZone. cbv zeta.
  destruct (lastIndexOf 44 (trim raw) <=? 0); [exact Hz|].
  destruct (parseZone host _) as [z|] eqn:E; [|exact Hz].
  cbn [snd]. exact (parseZone_ok host _ z Hh E).
Qed.

(** *** What the pipeline loop returns *)



Lemma parseDateInput_eq host raw dz :
  parseDateInput host raw dz
  = let input := fst (splitInputAndZone host raw dz) in
    let z := snd (splitInputAndZone host raw dz) in
    match input with
    | [] => Ok (ParseFailure input z (zoneDisplayName z) emptyInputError)
    | _ :: _ =>
        found <- firstMatch (parserPipeline host (detectState input)) input z ;;
        match found with
        | Some (label, parsed) =>
            Ok (ParseSuccess input z (zoneDisplayName z) parsed label)
        | None =>
            Ok (ParseFailure input z (zoneDisplayName z)
                  (js "Could not find date format for " ++ input))
        end
    end.
Proof.
  unfold parseDateInput. destruct (splitInputAndZone host raw dz) as [i z].
  destruct i; reflexivity.
Qed.


(** The concrete host is sane. *)
Lemma utcHost_ok : hostOk utcHost.
Proof.
  constructor; [reflexivity|].
  intros name t _ Ht. unfold hostPartsUTC. cbn [utcHost tzParts].
  unfold utcParts.
  pose proof (civilFromDays_range (dayOf t)) as [Hm Hd].
  pose proof (daysFromCivil_civilFromDays (dayOf t)) as Hinv.
  destruct (civilFromDays (dayOf t)) as [[y m] d]. cbn [fst snd] in *.
  cbn [hp_year hp_month hp_day hp_hour hp_minute hp_second].
  unfold DateUTC. rewrite MakeDay_civil by lia.
  unfold MakeTime, msPerDay, TimeClip, maxTime.
  destruct ((0 <=? y) && (y <=? 99)) eqn:Q.
  - apply andb_true_iff in Q.
    pose proof (daysFromCivil_bounds (1900 + y) m d ltac:(lia) Hm Hd) as Hb.
    eexists. split.
    + match goal with
      | |- (if ?c then _ else _) = _ => replace c with true; [reflexivity|]
      end.
      symmetry. apply Z.leb_le. divlia.
    + divlia.
  - rewrite Hinv. eexists. split.
    + match goal with
      | |- (if ?c then _ else _) = _ => replace c with true; [reflexivity|]
      end.
      symmetry. apply Z.leb_le. unfold dayOf, msPerDay. divlia.
    + unfold dayOf, msPerDay. divlia.
Qed.


(** The well-formedness of the default zone is needed: with a Named default
    zone whose name the time-zone database rejects, building the formatter
    raises, no parser catches it, and [parseDateInput] lets it escape.
    [parseZone] never produces such a zone. *)
Lemma parseDateInput_malformed_zone :
  ~ zoneOk utcHost (Iana (js "Bogus") None)
  /\ parseDateInput utcHost (js "2019-01-30 21:24:44")
       (Iana (js "Bogus") None) = Throw.
Proof. split; [vm_compute; discriminate | vm_compute; reflexivity]. Qed.

(* ================================================================== *)
(** ** The calendar behind [isValidCalendarDate] *)
(* ================================================================== *)

(** Within a 400-year era, the year of a day is recovered from the day of
    the era; a year of the era runs from 1 March, and has a 366th day when
    the February that ends it is a leap one. *)
Lemma yoe_inverse (yoe doy : Z) :
  0 <= yoe <= 399 -> 0 <= doy ->
  (doy <= 364 \/ (doy = 365 /\ (yoe + 1) mod 4 = 0
                  /\ ((yoe + 1) mod 100 <> 0 \/ yoe = 399))) ->
  let doe := yoe * 365 + yoe / 4 - yoe / 100 + doy in
  0 <= doe <= 146096 /\ yoeOf doe = yoe.
Proof. intros Hy Hd Hl doe. subst doe. unfold yoeOf. divlia. Qed.

Lemma isLeapYear_era (era yoe : Z) :
  0 <= yoe <= 399 -> isLeapYear (era * 400 + yoe + 1) = true ->
  (yoe + 1) mod 4 = 0 /\ ((yoe + 1) mod 100 <> 0 \/ yoe = 399).
Proof.
  intros Hy. unfold isLeapYear. intros H.
  apply orb_true_iff in H. destruct H as [H|H].
  - apply andb_true_iff in H. destruct H as [H4 H100].
    apply Z.eqb_eq in H4. apply negb_true_iff, Z.eqb_neq in H100. divlia.
  - apply Z.eqb_eq in H. divlia.
Qed.

(** [civilFromDays] inverts [daysFromCivil] on the dates of the calendar. *)
Lemma civilFromDays_daysFromCivil (y m d : Z) :
  1 <= m <= 12 -> 1 <= d <= daysInMonth y m ->
  civilFromDays (daysFromCivil y m d) = (y, m, d).
Proof.
  intros Hm Hd.
  set (y' := if m <=? 2 then y - 1 else y).
  set (era := y' / 400).
  set (yoe := y' - era * 400).
  set (mp := if m <=? 2 then m + 9 else m - 3).
  set (doy := (153 * mp + 2) / 5 + d - 1).
  assert (Hyoe : 0 <= yoe <= 399) by (subst yoe era; divlia).
  assert (Hy' : y' = era * 400 + yoe) by (subst yoe; lia).
  assert (Hdoy : 0 <= doy
                 /\ (doy <= 364 \/ (doy = 365 /\ (yoe + 1) mod 4 = 0
                       /\ ((yoe + 1) mod 100 <> 0 \/ yoe = 399)))
                 /\ (5 * doy + 2) / 153 = mp
                 /\ doy - (153 * mp + 2) / 5 + 1 = d).
  { assert (Hc : m = 1 \/ m = 2 \/ m = 3 \/ m = 4 \/ m = 5 \/ m = 6 \/ m = 7
                 \/ m = 8 \/ m = 9 \/ m = 10 \/ m = 11 \/ m = 12) by lia.
    unfold daysInMonth in Hd.
    destruct Hc as [->|[->|[->|[->|[->|[->|[->|[->|[->|[->|[->| ->]]]]]]]]]]];
      cbn in Hd, mp, y'; subst doy mp;
      try (split; [divlia|split; [left; divlia|split; divlia]]).
    destruct (isLeapYear y) eqn:L.
    - assert (Hl := isLeapYear_era era yoe Hyoe).
      replace (era * 400 + yoe + 1) with y in Hl by lia.
      specialize (Hl L).
      split; [divlia|split; [|split; divlia]].
      destruct (Z.eq_dec d 29) as [->|]; [right; split; [reflexivity|exact Hl]|].
      left. divlia.
    - split; [divlia|split; [left; divlia|split; divlia]]. }
  destruct Hdoy as (Hd0 & Hd1 & Hmp & Hdom).
  pose proof (yoe_inverse yoe doy Hyoe Hd0 Hd1) as [Hdoe Hyo].
  cbv zeta in Hdoe, Hyo.
  set (doe := yoe * 365 + yoe / 4 - yoe / 100 + doy) in *.
  assert (Hn : daysFromCivil y m d = era * 146097 + doe - 719468)
    by reflexivity.
  rewrite civilFromDays_eq, Hn. cbv zeta.
  replace ((era * 146097 + doe - 719468 + 719468) / 146097) with era
    by divlia.
  replace (era * 146097 + doe - 719468 + 719468 - era * 146097) with doe
    by lia.
  assert (Hdy : doyOf doe = doy) by (unfold doyOf; rewrite Hyo; subst doe; lia).
  assert (Hmo : mpOf doe = mp) by (unfold mpOf; rewrite Hdy; exact Hmp).
  assert (Hda : domOf doe = d)
    by (unfold domOf; rewrite Hmo, Hdy; exact Hdom).
  rewrite Hyo, Hmo, Hda. subst mp y'.
  destruct (Z.leb_spec m 2).
  - destruct (Z.ltb_spec (m + 9) 10); [lia|].
    destruct (Z.leb_spec (m + 9 - 9) 2); [|lia].
    repeat f_equal; lia.
  - destruct (Z.ltb_spec (m - 3) 10); [|lia].
    destruct (Z.leb_spec (m - 3 + 3) 2); [lia|].
    repeat f_equal; lia.
Qed.

Lemma doy_bound (doe : Z) :
  0 <= doe <= 146096 ->
  0 <= doyOf doe
  /\ (doyOf doe <= 364
      \/ (doyOf doe = 365 /\ (yoeOf doe + 1) mod 4 = 0
          /\ ((yoeOf doe + 1) mod 100 <> 0 \/ yoeOf doe = 399))).
Proof. intros H. unfold doyOf, yoeOf. divlia. Qed.

Lemma isLeapYear_of_era (era yoe : Z) :
  0 <= yoe <= 399 -> (yoe + 1) mod 4 = 0 ->
  (yoe + 1) mod 100 <> 0 \/ yoe = 399 ->
  isLeapYear (yoe + era * 400 + 1) = true.
Proof.
  intros Hy H4 H100. unfold isLeapYear.
  destruct (Z.eqb_spec ((yoe + era * 400 + 1) mod 400) 0) as [|N400];
    [apply orb_true_r|].
  rewrite orb_false_r. apply andb_true_iff. split.
  - apply Z.eqb_eq. divlia.
  - apply negb_true_iff, Z.eqb_neq. divlia.
Qed.

Lemma daysInMonth_range (y m : Z) : 28 <= daysInMonth y m <= 31.
Proof.
  unfold daysInMonth.
  destruct (m =? 2); [destruct (isLeapYear y); lia|].
  destruct ((m =? 4) || (m =? 6) || (m =? 9) || (m =? 11)); lia.
Qed.

(** The civil date of a day number is a date of the calendar. *)
Lemma civilFromDays_valid (n : Z) :
  1 <= snd (civilFromDays n)
    <= daysInMonth (fst (fst (civilFromDays n))) (snd (fst (civilFromDays n))).
Proof.
  rewrite civilFromDays_eq. cbv zeta. cbn [fst snd].
  pose proof (doe_range n) as Hdoe.
  set (era := (n + 719468) / 146097) in *.
  set (doe := n + 719468 - era * 146097) in *.
  pose proof (era_fields _ Hdoe) as (Hy & Hm & Hd).
  pose proof (doy_bound _ Hdoe) as (Hd0 & Hd1).
  assert (Hc : mpOf doe = 0 \/ mpOf doe = 1 \/ mpOf doe = 2 \/ mpOf doe = 3
               \/ mpOf doe = 4 \/ mpOf doe = 5 \/ mpOf doe = 6 \/ mpOf doe = 7
               \/ mpOf doe = 8 \/ mpOf doe = 9 \/ mpOf doe = 10
               \/ mpOf doe = 11) by lia.
  split; [lia|].
  unfold domOf in *. unfold mpOf in Hc |- *.
  set (doy := doyOf doe) in *. clearbody doy.
  destruct Hc as [E|[E|[E|[E|[E|[E|[E|[E|[E|[E|[E|E]]]]]]]]]]];
    rewrite E; unfold daysInMonth; cbn -[Z.mul Z.div Z.modulo isLeapYear yoeOf];
    try divlia.
  destruct Hd1 as [Hs|(Hl & H4 & H100)].
  - destruct (isLeapYear (yoeOf doe + era * 400 + 1)); divlia.
  - rewrite (isLeapYear_of_era era (yoeOf doe) Hy H4 H100). divlia.
Qed.

(** Day numbers of the years the Date range holds in full. *)
Lemma daysFromCivil_wide (y m d : Z) :
  -270000 <= y <= 272000 -> 1 <= m <= 12 -> 1 <= d <= 31 ->
  Z.abs (daysFromCivil y m d * msPerDay) <= maxTime.
Proof.
  intros Hy Hm Hd. unfold daysFromCivil, msPerDay, maxTime.
  destruct (Z.leb_spec m 2); divlia.
Qed.

(** What [isValidCalendarDate] compares: the civil date of the day number
    that [Date.UTC] assembles. *)
Lemma isValidCalendarDate_civil (y m d : Z) :
  -270000 <= y <= 270000 -> 1 <= m <= 12 -> 1 <= d <= 31 ->
  let yr := if (0 <=? y) && (y <=? 99) then 1900 + y else y in
  let c := civilFromDays (daysFromCivil yr m d) in
  isValidCalendarDate y m d
  = (fst (fst c) =? y) && (snd (fst c) =? m) && (snd c =? d).
Proof.
  intros Hy Hm Hd yr c. unfold isValidCalendarDate.
  destruct (Z.ltb_spec m 1); [lia|]. destruct (Z.gtb_spec m 12); [lia|].
  destruct (Z.ltb_spec d 1); [lia|]. destruct (Z.gtb_spec d 31); [lia|].
  cbn [orb]. unfold DateUTC. fold yr.
  assert (Hyr : -270000 <= yr <= 272000)
    by (subst yr; destruct ((0 <=? y) && (y <=? 99)); lia).
  rewrite MakeDay_civil by lia.
  pose proof (daysFromCivil_wide yr m d Hyr Hm Hd) as Hn.
  set (n := daysFromCivil yr m d) in *.
  unfold MakeTime, newDate, TimeClip. rewrite Z.add_0_r.
  destruct (Z.leb_spec (Z.abs (n * msPerDay)) maxTime); [|lia].
  destruct (Z.leb_spec (Z.abs (n * msPerDay)) maxTime); [|lia].
  unfold getUTCFullYear, getUTCMonth, getUTCDate, num_is.
  cbn [getTime option_map]. unfold dayOf.
  rewrite Z.div_mul by (unfold msPerDay; lia). fold c.
  replace (snd (fst c) - 1 + 1) with (snd (fst c)) by lia. reflexivity.
Qed.

(** Years 0 to 99 are never valid: [Date.UTC] reads them as 1900 to 1999,
    and the year read back differs from the year given. *)
Lemma isValidCalendarDate_years_0_99 (y m d : Z) :
  0 <= y <= 99 -> isValidCalendarDate y m d = false.
Proof.
  intros Hy.
  destruct (Z.ltb_spec m 1) as [Hm1|Hm1];
    [unfold isValidCalendarDate;
     replace (m <? 1) with true by (symmetry; apply Z.ltb_lt; lia);
     reflexivity|].
  destruct (Z.gtb_spec m 12) as [Hm2|Hm2];
    [unfold isValidCalendarDate;
     replace (m >? 12) with true by (symmetry; apply Z.gtb_lt; lia);
     rewrite orb_true_r; reflexivity|].
  destruct (Z.ltb_spec d 1) as [Hd1|Hd1];
    [unfold isValidCalendarDate;
     replace (d <? 1) with true by (symmetry; apply Z.ltb_lt; lia);
     rewrite !orb_true_r; reflexivity|].
  destruct (Z.gtb_spec d 31) as [Hd2|Hd2];
    [unfold isValidCalendarDate;
     replace (d >? 31) with true by (symmetry; apply Z.gtb_lt; lia);
     rewrite !orb_true_r; reflexivity|].
  rewrite isValidCalendarDate_civil by lia. cbv zeta.
  replace ((0 <=? y) && (y <=? 99)) with true
    by (symmetry; apply andb_true_iff; split; apply Z.leb_le; lia).
  set (n := daysFromCivil (1900 + y) m d).
  pose proof (daysFromCivil_civilFromDays n) as Hinv.
  pose proof (civilFromDays_range n) as [Hm' Hd'].
  destruct (civilFromDays n) as [[y2 m2] d2]. cbn [fst snd] in *.
  destruct (Z.eqb_spec y2 y) as [->|]; [|reflexivity].
  exfalso. subst n. revert Hinv. unfold daysFromCivil.
  destruct (Z.leb_spec m2 2); destruct (Z.leb_spec m 2); divlia.
Qed.

(** [isValidCalendarDate] is the Gregorian calendar, outside the years
    0 to 99. *)
Lemma isValidCalendarDate_calendar (y m d : Z) :
  -270000 <= y <= 270000 ->
  isValidCalendarDate y m d = true
  <-> (y < 0 \/ 99 < y) /\ 1 <= m <= 12 /\ 1 <= d <= daysInMonth y m.
Proof.
  intros Hy. split.
  - intros H.
    pose proof (valid_date_ranges y m d H) as [Hm Hd].
    assert (Hyr : y < 0 \/ 99 < y).
    { destruct (Z.lt_ge_cases y 0); [lia|].
      destruct (Z.lt_ge_cases 99 y); [lia|].
      rewrite isValidCalendarDate_years_0_99 in H by lia. discriminate. }
    split; [exact Hyr|]. split; [exact Hm|]. split; [lia|].
    rewrite isValidCalendarDate_civil in H by lia. cbv zeta in H.
    replace ((0 <=? y) && (y <=? 99)) with false in H
      by (symmetry; apply andb_false_iff; destruct Hyr;
          [left|right]; apply Z.leb_gt; lia).
    pose proof (civilFromDays_valid (daysFromCivil y m d)) as Hv.
    destruct (civilFromDays (daysFromCivil y m d)) as [[y2 m2] d2].
    cbn [fst snd] in *.
    apply andb_true_iff in H. destruct H as [H H3].
    apply andb_true_iff in H. destruct H as [H1 H2].
    apply Z.eqb_eq in H1, H2, H3. subst. lia.
  - intros (Hyr & Hm & Hd).
    pose proof (daysInMonth_range y m) as R.
    rewrite isValidCalendarDate_civil by lia. cbv zeta.
    replace ((0 <=? y) && (y <=? 99)) with false
      by (symmetry; apply andb_false_iff; destruct Hyr;
          [left|right]; apply Z.leb_gt; lia).
    rewrite civilFromDays_daysFromCivil by lia. cbn [fst snd].
    rewrite !Z.eqb_refl. reflexivity.
Qed.

(** The years of the day numbers from 0100-01-01 on, and of those between
    1000-01-01 and 9999-12-31. *)
Lemma year_from_100 (n : Z) :
  -683003 <= n -> 100 <= fst (fst (civilFromDays n)).
Proof.
  intros H.
  pose proof (daysFromCivil_civilFromDays n) as Hinv.
  pose proof (civilFromDays_range n) as [Hm Hd].
  destruct (civilFromDays n) as [[y m] d]. cbn [fst snd] in *.
  destruct (Z.le_gt_cases 100 y) as [|Hlt]; [assumption|exfalso].
  revert Hinv. unfold daysFromCivil.
  destruct (Z.leb_spec m 2); intros; divlia.
Qed.

Lemma year_four_digits (n : Z) :
  -354285 <= n <= 2932896 -> 1000 <= fst (fst (civilFromDays n)) <= 9999.
Proof.
  intros H.
  pose proof (daysFromCivil_civilFromDays n) as Hinv.
  pose proof (civilFromDays_range n) as [Hm Hd].
  destruct (civilFromDays n) as [[y m] d]. cbn [fst snd] in *.
  revert Hinv. unfold daysFromCivil.
  destruct (Z.leb_spec m 2); intros; divlia.
Qed.

(** Read in UTC at whole seconds, an instant from the year 100 on assembles
    back to itself without its milliseconds. *)
Lemma hostPartsUTC_utcParts (l : Z) :
  -59011459200000 <= l <= maxTime ->
  hostPartsUTC (utcParts l) = Some (l / 1000 * 1000).
Proof.
  intros Hl. unfold hostPartsUTC, utcParts.
  assert (Hn : -683003 <= dayOf l) by (unfold dayOf, msPerDay; divlia).
  pose proof (year_from_100 _ Hn) as Hy.
  pose proof (civilFromDays_range (dayOf l)) as [Hm Hd].
  pose proof (daysFromCivil_civilFromDays (dayOf l)) as Hinv.
  destruct (civilFromDays (dayOf l)) as [[y m] d]. cbn [fst snd] in *.
  cbn [hp_year hp_month hp_day hp_hour hp_minute hp_second].
  unfold DateUTC.
  replace ((0 <=? y) && (y <=? 99)) with false
    by (symmetry; apply andb_false_iff; right; apply Z.leb_gt; lia).
  rewrite MakeDay_civil by lia. rewrite Hinv.
  unfold MakeTime, TimeClip, dayOf, msPerDay, maxTime in *.
  match goal with
  | |- (if ?c then _ else _) = _ => replace c with true
  end.
  - f_equal. divlia.
  - symmetry. apply Z.leb_le. divlia.
Qed.

(* ================================================================== *)
(** ** Named zones at a constant offset *)
(* ================================================================== *)

Lemma newDate_valid (t : Z) :
  Z.abs t <= maxTime -> newDate (Some t) = mkDate (Some t).
Proof.
  intros H. unfold newDate, TimeClip.
  destruct (Z.leb_spec (Z.abs t) maxTime); [reflexivity|lia].
Qed.

Lemma DateUTC_range (y m d h mi s ms g : Z) :
  DateUTC y m d h mi s ms = Some g -> Z.abs g <= maxTime.
Proof.
  unfold DateUTC, TimeClip.
  match goal with
  | |- (if ?c then _ else _) = _ -> _ => destruct c eqn:E; [|discriminate]
  end.
  intros H. injection H as <-. apply Z.leb_le in E. exact E.
Qed.

Section NamedZone.

Variable host : Host.
Variable name : str.
Variable o : Z.
Hypothesis Hzone : reportsOffset host name o.

(** The offset the program computes: the zone's own, less the milliseconds
    of the instant, which the host's whole-second fields do not show. *)
Lemma offset_named (t : Z) :
  -59011459200000 <= t + o * 60000 <= maxTime ->
  getTimeZoneOffsetMilliseconds host (mkDate (Some t)) name
  = Ok (Some (o * 60000 - t mod 1000)).
Proof.
  intros Hb. destruct Hzone as [Hv Hp].
  rewrite (offset_valid_zone host name t Hv), Hp.
  rewrite hostPartsUTC_utcParts by exact Hb.
  cbn [num_sub]. do 2 f_equal. divlia.
Qed.

Lemma toInstant_named (c : DateComponents) (lbl : option str) (g : Z) :
  utcGuessOf c = Some g ->
  -58000000000000 <= g <= 8000000000000000 -> Z.abs o <= 1440 ->
  toInstantFromComponents host c (Iana name lbl)
  = Ok (mkDate (Some (g - o * 60000 + (2 * (g mod 1000)) mod 1000))).
Proof.
  intros Hg Hb Ho. unfold toInstantFromComponents. fold (utcGuessOf c).
  rewrite Hg. unfold maxTime in *.
  rewrite newDate_valid by (unfold maxTime; lia).
  rewrite offset_named by (unfold maxTime; lia). cbn [bind num_sub].
  rewrite newDate_valid by (unfold maxTime; divlia).
  rewrite offset_named by (unfold maxTime; divlia). cbn [bind num_neq num_sub].
  replace ((g - (o * 60000 - g mod 1000)) mod 1000)
    with ((2 * (g mod 1000)) mod 1000) by divlia.
  destruct (Z.eqb_spec (o * 60000 - (2 * (g mod 1000)) mod 1000)
                       (o * 60000 - g mod 1000)) as [E|E]; cbn [negb].
  - rewrite newDate_valid by (unfold maxTime; divlia).
    do 3 f_equal. lia.
  - rewrite newDate_valid by (unfold maxTime; divlia).
    do 3 f_equal. lia.
Qed.

Lemma format_named_offset (t : Z) (lbl : option str) :
  -30610224000000 <= t + o * 60000 <= 253402300799999 -> Z.abs o <= 1440 ->
  let l := t + o * 60000 in
  formatInstantForZone host (mkDate (Some t)) (Iana name lbl)
  = Ok (isoText (fst (fst (civilFromDays (dayOf l))))
                (snd (fst (civilFromDays (dayOf l))))
                (snd (civilFromDays (dayOf l)))
                (l / 3600000 mod 24) (l / 60000 mod 60) (l / 1000 mod 60)
        ++ js " "
        ++ offsetText (if (0 <? o) && negb (t mod 1000 =? 0)
                       then o - 1 else o)
        ++ js " " ++ zoneToken host name t).
Proof.
  intros Hb Ho l. destruct Hzone as [Hv Hp].
  assert (Hn : -354285 <= dayOf l <= 2932896)
    by (subst l; unfold dayOf, msPerDay; divlia).
  pose proof (year_four_digits _ Hn) as Hy.
  pose proof (civilFromDays_range (dayOf l)) as [Hm Hd].
  assert (Hu : hostPartsUTC (tzParts host name t) = Some (l / 1000 * 1000)).
  { rewrite Hp. apply hostPartsUTC_utcParts. subst l. unfold maxTime. lia. }
  assert (Hq : Z.quot (l / 1000 * 1000 - t) 60000
               = if (0 <? o) && negb (t mod 1000 =? 0) then o - 1 else o).
  { replace (l / 1000 * 1000 - t) with (o * 60000 - t mod 1000)
      by (subst l; divlia).
    destruct (Z.ltb_spec 0 o); destruct (Z.eqb_spec (t mod 1000) 0);
      cbn [andb negb]; divlia. }
  pose proof (format_named host t (l / 1000 * 1000) name lbl Hv) as F.
  cbv zeta in F. unfold hostPartsUTC in Hu. rewrite Hp in F, Hu.
  fold l in F, Hu. unfold utcParts in F, Hu.
  destruct (civilFromDays (dayOf l)) as [[y m] d]. cbn [fst snd] in *.
  cbn [hp_year hp_month hp_day hp_hour hp_minute hp_second] in F, Hu.
  rewrite Hq in F. apply F; try lia; try divlia; try exact Hu.
Qed.

End NamedZone.

(* ================================================================== *)
(** ** Round trip through the output format (C9) *)
(* ================================================================== *)






Section ConstantOffset.

Variable host : Host.
Variable name : str.
Variable o : Z.
Hypothesis Hzone : reportsOffset host name o.



End ConstantOffset.



(** A Named zone ahead of UTC, at an instant with milliseconds: the output
    shows an offset one minute short; parsed with the zone's own offset the
    local date and time give the instant cut to the second, parsed with the
    offset shown they give an instant 60 seconds later. *)
Lemma format_parse_named_zone_example :
  formatInstantForZone shanghaiHost (mkDate (Some 1548854618123))
    (Iana (js "Asia/Shanghai") None)
  = Ok (js "2019-01-30T21:23:38 +07:59 GMT+8")
  /\ beforeSpace (js "2019-01-30T21:23:38 +07:59 GMT+8")
     = js "2019-01-30T21:23:38"
  /\ parseDateInput shanghaiHost (js "2019-01-30T21:23:38")
       (Fixed 480 (js "UTC+08:00"))
     = Ok (ParseSuccess (js "2019-01-30T21:23:38") (Fixed 480 (js "UTC+08:00"))
             (js "UTC+08:00") (mkDate (Some 1548854618000)) (js "dash"))
  /\ parseDateInput shanghaiHost (js "2019-01-30T21:23:38")
       (Fixed 479 (js "UTC+07:59"))
     = Ok (ParseSuccess (js "2019-01-30T21:23:38") (Fixed 479 (js "UTC+07:59"))
             (js "UTC+07:59") (mkDate (Some 1548854678000)) (js "dash")).
Proof.
  split; [vm_compute; reflexivity|]. split; [vm_compute; reflexivity|].
  split; vm_compute; reflexivity.
Qed.

(* ================================================================== *)
(** ** The instant of a wall-clock time in a fixed zone *)
(* ================================================================== *)

Lemma daysFromCivil_slack (y m d : Z) :
  -270000 <= y <= 270000 -> 1 <= m <= 12 -> 1 <= d <= 31 ->
  Z.abs (daysFromCivil y m d) <= 99400000.
Proof.
  intros Hy Hm Hd. unfold daysFromCivil.
  destruct (Z.leb_spec m 2); divlia.
Qed.

Lemma DateUTC_civil (y m d h mi s ms : Z) :
  y < 0 \/ 99 < y -> -270000 <= y <= 270000 -> 1 <= m <= 12 -> 1 <= d <= 31 ->
  0 <= h <= 23 -> 0 <= mi <= 59 -> 0 <= s <= 59 -> 0 <= ms <= 999 ->
  DateUTC y (m - 1) d h mi s ms
  = Some (daysFromCivil y m d * 86400000 + h * 3600000 + mi * 60000
          + s * 1000 + ms).
Proof.
  intros Hy Hr Hm Hd Hh Hmi Hs Hms. unfold DateUTC.
  replace ((0 <=? y) && (y <=? 99)) with false
    by (symmetry; apply andb_false_iff; destruct Hy;
        [left|right]; apply Z.leb_gt; lia).
  rewrite MakeDay_civil by lia.
  pose proof (daysFromCivil_slack y m d Hr Hm Hd) as Hb.
  unfold MakeTime, TimeClip, msPerDay, maxTime.
  match goal with
  | |- (if ?c then _ else _) = _ => replace c with true
  end.
  - f_equal. lia.
  - symmetry. apply Z.leb_le. lia.
Qed.

Section FixedInstant.

Variable host : Host.

Lemma buildDate_fixed (y m d h mi s ms off : Z) (lbl : str) :
  y < 0 \/ 99 < y -> -270000 <= y <= 270000 ->
  1 <= m <= 12 -> 1 <= d <= daysInMonth y m ->
  0 <= h <= 23 -> 0 <= mi <= 59 -> 0 <= s <= 59 -> 0 <= ms <= 999 ->
  Z.abs off <= 1440 ->
  buildDateFromComponents host
    (mkComponents y m d (Some h) (Some mi) (Some s) (Some ms)) (Fixed off lbl)
  = Ok (Some (mkDate (Some (daysFromCivil y m d * 86400000 + h * 3600000
                            + mi * 60000 + s * 1000 + ms - off * 60000)))).
Proof.
  intros Hy Hr Hm Hd Hh Hmi Hs Hms Ho.
  pose proof (daysInMonth_range y m) as R.
  assert (V : isValidCalendarDate y m d = true)
    by (apply isValidCalendarDate_calendar; auto).
  unfold buildDateFromComponents.
  cbn [year month day hour minute second millisecond orZero].
  rewrite V. cbn [negb].
  destruct (Z.ltb_spec h 0); [lia|]. destruct (Z.gtb_spec h 23); [lia|].
  destruct (Z.ltb_spec mi 0); [lia|]. destruct (Z.gtb_spec mi 59); [lia|].
  destruct (Z.ltb_spec s 0); [lia|]. destruct (Z.gtb_spec s 59); [lia|].
  destruct (Z.ltb_spec ms 0); [lia|]. destruct (Z.gtb_spec ms 999); [lia|].
  cbn [orb]. unfold toInstantFromComponents.
  cbn [year month day hour minute second millisecond orZero].
  rewrite DateUTC_civil by lia. cbn [bind num_sub].
  pose proof (daysFromCivil_slack y m d Hr Hm ltac:(lia)) as Hb.
  rewrite newDate_valid by (unfold maxTime, millisecondsInMinute; lia).
  reflexivity.
Qed.

(** Formatting, in its own zone, the instant of a wall-clock time gives the
    wall-clock time back. *)
Lemma format_built_fixed (y m d h mi s ms off : Z) (lbl : str) :
  1000 <= y <= 9999 -> 1 <= m <= 12 -> 1 <= d <= daysInMonth y m ->
  0 <= h <= 23 -> 0 <= mi <= 59 -> 0 <= s <= 59 -> 0 <= ms <= 999 ->
  Z.abs off <= 1440 ->
  formatInstantForZone host
    (mkDate (Some (daysFromCivil y m d * 86400000 + h * 3600000
                   + mi * 60000 + s * 1000 + ms - off * 60000)))
    (Fixed off lbl)
  = Ok (isoText y m d h mi s ++ js " " ++ offsetText off ++ js " " ++ lbl).
Proof.
  intros Hy Hm Hd Hh Hmi Hs Hms Ho.
  pose proof (daysInMonth_range y m) as R.
  set (n := daysFromCivil y m d).
  set (t := n * 86400000 + h * 3600000 + mi * 60000 + s * 1000 + ms
            - off * 60000).
  assert (Hl : t + off * 60000
               = n * 86400000 + h * 3600000 + mi * 60000 + s * 1000 + ms)
    by (subst t; lia).
  assert (Hday : dayOf (t + off * 60000) = n)
    by (rewrite Hl; unfold dayOf, msPerDay; divlia).
  assert (Hciv : civilFromDays n = (y, m, d))
    by (apply civilFromDays_daysFromCivil; lia).
  pose proof (daysFromCivil_slack y m d ltac:(lia) Hm ltac:(lia)) as Hb.
  fold n in Hb.
  assert (Hyr : getUTCFullYear (newDate (Some (t + off * 60000))) = Some y).
  { rewrite newDate_valid by (rewrite Hl; unfold maxTime; lia).
    unfold getUTCFullYear. cbn [getTime option_map].
    rewrite Hday, Hciv. reflexivity. }
  rewrite (format_fixed host t off y lbl Hyr Hy ltac:(lia)).
  cbv zeta. rewrite Hday, Hciv. cbn [fst snd]. rewrite Hl.
  replace ((n * 86400000 + h * 3600000 + mi * 60000 + s * 1000 + ms)
           / 3600000 mod 24) with h by divlia.
  replace ((n * 86400000 + h * 3600000 + mi * 60000 + s * 1000 + ms)
           / 60000 mod 60) with mi by divlia.
  replace ((n * 86400000 + h * 3600000 + mi * 60000 + s * 1000 + ms)
           / 1000 mod 60) with s by divlia.
  reflexivity.
Qed.

End FixedInstant.

(* ================================================================== *)
(** ** Fractions of a second *)
(* ================================================================== *)

Lemma digit_value_bounds (c : Z) : isDigit c = true -> 0 <= c - 48 <= 9.
Proof. intros H. unfold isDigit in H. lia. Qed.

(** A fraction of one to nine digits is cut, not rounded, to milliseconds. *)
Lemma parseFractionMilliseconds_floor (f : str) :
  forallb isDigit f = true -> (1 <= length f <= 9)%nat ->
  parseFractionMilliseconds (Some f) = numberOfDigits f * 1000 / 10 ^ len f
  /\ 0 <= parseFractionMilliseconds (Some f) <= 999.
Proof.
  intros Hd Hl.
  destruct f as [|a [|b [|c [|d [|e [|g [|h [|i [|j [|k l]]]]]]]]]];
    cbn [length] in Hl; try lia;
    cbn [forallb] in Hd;
    repeat match goal with
    | H : _ && _ = true |- _ => apply andb_true_iff in H; destruct H
    end;
    repeat match goal with
    | H : isDigit _ = true |- _ => apply digit_value_bounds in H
    end;
    unfold parseFractionMilliseconds, numberOfDigits, digitVal, len;
    cbn -[Z.mul Z.add Z.sub Z.div Z.pow slice];
    match goal with
    | |- context [slice ?l 0 3] =>
        let r := eval cbv in (slice l 0 3) in change (slice l 0 3) with r
    end;
    cbn [fold_left];
    change (10 ^ 1) with 10; change (10 ^ 2) with 100;
    change (10 ^ 3) with 1000; change (10 ^ 4) with 10000;
    change (10 ^ 5) with 100000; change (10 ^ 6) with 1000000;
    change (10 ^ 7) with 10000000; change (10 ^ 8) with 100000000;
    change (10 ^ 9) with 1000000000;
    split; divlia.
Qed.

(* ================================================================== *)
(** ** Month names *)
(* ================================================================== *)

Lemma lookup_In (key : str) (v : Z) : forall m,
  lookup key m = Some v -> In (key, v) m.
Proof.
  induction m as [|[k w] m IH]; [discriminate|].
  cbn [lookup]. destruct (str_eqb k key) eqn:E.
  - intros H. injection H as <-. apply str_eqb_eq in E. subst. left. reflexivity.
  - intros H. right. apply IH, H.
Qed.

Lemma lowerUnit_upperUnit (c : Z) : lowerUnit (upperUnit c) = lowerUnit c.
Proof. unit_lia. Qed.

Lemma lowerUnit_idem (c : Z) : lowerUnit (lowerUnit c) = lowerUnit c.
Proof. unit_lia. Qed.

Lemma parseMonthToken_case (t : str) :
  parseMonthToken (toUpperCase t) = parseMonthToken t
  /\ parseMonthToken (toLowerCase t) = parseMonthToken t.
Proof.
  unfold parseMonthToken, toLowerCase, toUpperCase. rewrite !map_map.
  split; f_equal; apply map_ext; intros c;
    [apply lowerUnit_upperUnit|apply lowerUnit_idem].
Qed.

Lemma parseMonthToken_table (t : str) (m : Z) :
  parseMonthToken t = Some m ->
  1 <= m <= 12 /\ (3 <= length t <= 9)%nat
  /\ parseMonthToken (firstn 3 t) = Some m.
Proof.
  unfold parseMonthToken. intros H.
  assert (Hl : length (toLowerCase t) = length t)
    by (unfold toLowerCase; apply length_map).
  assert (Hf : toLowerCase (firstn 3 t) = firstn 3 (toLowerCase t))
    by (unfold toLowerCase; symmetry; apply firstn_map).
  rewrite Hf. rewrite <- Hl. apply lookup_In in H.
  unfold monthMap in H. cbn [In] in H.
  repeat match goal with
  | H : _ \/ _ |- _ => destruct H as [H|H]
  | H : (_, _) = (_, _) |- _ => injection H as <- <-
  | H : False |- _ => destruct H
  end; (split; [lia|split; [cbn; lia|reflexivity]]).
Qed.

(* ================================================================== *)
(** ** "now" *)
(* ================================================================== *)

Lemma now_test (c1 c2 c3 : Z) (rest : str) :
  lowerUnit c1 = 110 -> lowerUnit c2 = 111 -> lowerUnit c3 = 119 ->
  test (seq [Bol; liti "now"]) (c1 :: c2 :: c3 :: rest) = true.
Proof.
  intros H1 H2 H3. unfold test, liti, seq.
  cbn -[lowerUnit]. rewrite H1, H2, H3. reflexivity.
Qed.

Lemma pipeline_now host (state : ParseState) :
  exists rest,
    parserPipeline host state = (js "now", pure2 (parseNow host)) :: rest.
Proof. destruct state; eexists; reflexivity. Qed.

Lemma trim_split host raw dz :
  trim (fst (splitInputAndZone host raw dz))
  = fst (splitInputAndZone host raw dz).
Proof.
  unfold splitInputAndZone. cbv zeta.
  destruct (lastIndexOf 44 (trim raw) <=? 0); [apply trim_idem|].
  destruct (parseZone host _); apply trim_idem.
Qed.

Lemma parseDateInput_now host raw dz c1 c2 c3 rest :
  fst (splitInputAndZone host raw dz) = c1 :: c2 :: c3 :: rest ->
  lowerUnit c1 = 110 -> lowerUnit c2 = 111 -> lowerUnit c3 = 119 ->
  Z.abs (dateNow host) <= maxTime ->
  let z := snd (splitInputAndZone host raw dz) in
  parseDateInput host raw dz
  = Ok (ParseSuccess (c1 :: c2 :: c3 :: rest) z (zoneDisplayName z)
          (mkDate (Some (Z.quot (dateNow host) 1000 * 1000))) (js "now")).
Proof.
  intros Hi H1 H2 H3 Hn z. subst z.
  pose proof (trim_split host raw dz) as Ht. rewrite Hi in Ht.
  rewrite parseDateInput_eq. cbv zeta. rewrite Hi.
  destruct (pipeline_now host (detectState (c1 :: c2 :: c3 :: rest)))
    as (more & ->).
  cbn [firstMatch]. unfold pure2 at 1. unfold parseNow.
  rewrite Ht, (now_test c1 c2 c3 rest H1 H2 H3). cbn [negb bind].
  rewrite newDate_valid by (unfold maxTime in *;
    Z.to_euclidean_division_equations; lia).
  reflexivity.
Qed.

(* ================================================================== *)
(** ** Zone keys *)
(* ================================================================== *)

(** Reading back the decimal digits of a number. *)
Lemma natDigits_value : forall fuel n acc,
  0 <= n < 10 ^ Z.of_nat fuel ->
  numberOfDigits (natDigits fuel n acc)
  = n * 10 ^ len acc + numberOfDigits acc.
Proof.
  induction fuel as [|f IH]; intros n acc Hn.
  - cbn [natDigits]. change (10 ^ Z.of_nat 0) with 1 in Hn.
    replace n with 0 by lia. lia.
  - cbn [natDigits].
    assert (Hlen : len ((48 + n mod 10) :: acc) = len acc + 1)
      by (unfold len; cbn [length]; lia).
    pose proof (len_nonneg acc) as Hl.
    destruct (Z.ltb_spec n 10).
    + rewrite numberOfDigits_cons. unfold digitVal.
      rewrite Z.mod_small by lia. lia.
    + rewrite IH.
      * rewrite numberOfDigits_cons, Hlen. unfold digitVal.
        rewrite Z.pow_add_r by lia. change (10 ^ 1) with 10.
        pose proof (Z.div_mod n 10 ltac:(lia)). nia.
      * rewrite Nat2Z.inj_succ, Z.pow_succ_r in Hn by lia.
        split; [apply Z.div_pos; lia|].
        apply Z.div_lt_upper_bound; lia.
Qed.

Lemma natDigits_digits : forall fuel n acc,
  0 <= n -> forallb isDigit acc = true ->
  forallb isDigit (natDigits fuel n acc) = true.
Proof.
  induction fuel as [|f IH]; intros n acc Hn Ha; [exact Ha|].
  cbn [natDigits].
  assert (Hd : forallb isDigit ((48 + n mod 10) :: acc) = true).
  { cbn [forallb]. rewrite Ha, andb_true_r. unfold isDigit.
    pose proof (Z.mod_pos_bound n 10 ltac:(lia)). 
    apply andb_true_iff. split; apply Z.leb_le; lia. }
  destruct (n <? 10); [exact Hd|].
  apply IH; [apply Z.div_pos; lia|exact Hd].
Qed.

Lemma natDigits_nonempty fuel n acc : natDigits (S fuel) n acc <> [].
Proof.
  revert n acc. induction fuel as [|f IH]; intros n acc.
  - cbn [natDigits]. destruct (n <? 10); discriminate.
  - change (natDigits (S (S f)) n acc)
      with (if n <? 10 then (48 + n mod 10) :: acc
            else natDigits (S f) (n / 10) ((48 + n mod 10) :: acc)).
    destruct (n <? 10); [discriminate|apply IH].
Qed.

Lemma fuel_enough (n : Z) :
  0 <= n -> n < 10 ^ Z.of_nat (S (Z.to_nat (Z.log2 n))).
Proof.
  intros Hn. rewrite Nat2Z.inj_succ, Z2Nat.id by apply Z.log2_nonneg.
  destruct (Z.eq_dec n 0) as [->|Hz]; [reflexivity|].
  pose proof (Z.log2_spec n ltac:(lia)) as [_ Hu].
  pose proof (Z.log2_nonneg n) as Hl.
  apply Z.lt_le_trans with (2 ^ Z.succ (Z.log2 n)); [exact Hu|].
  apply Z.pow_le_mono_l. lia.
Qed.

(** [Number(String(n))] is [n]. *)
Lemma toStringZ_value (n : Z) :
  0 <= n -> numberOfDigits (toStringZ n) = n
            /\ forallb isDigit (toStringZ n) = true /\ toStringZ n <> [].
Proof.
  intros Hn. unfold toStringZ. destruct (Z.ltb_spec n 0); [lia|].
  split; [|split].
  - rewrite natDigits_value by (split; [lia|apply fuel_enough, Hn]).
    cbn. lia.
  - apply natDigits_digits; [lia|reflexivity].
  - apply natDigits_nonempty.
Qed.

Lemma toStringZ_inj (a b : Z) : toStringZ a = toStringZ b -> a = b.
Proof.
  intros H.
  assert (Neg : forall n, n < 0 -> toStringZ n = 45 :: toStringZ (- n)).
  { intros n Hn. unfold toStringZ.
    destruct (Z.ltb_spec n 0); [|lia].
    destruct (Z.ltb_spec (- n) 0); [lia|]. reflexivity. }
  assert (Pos : forall n, 0 <= n -> headIs isDigit (toStringZ n) = true).
  { intros n Hn. destruct (toStringZ_value n Hn) as (_ & Hd & Hne).
    destruct (toStringZ n) as [|c s]; [congruence|].
    cbn in Hd |- *. apply andb_true_iff in Hd. tauto. }
  destruct (Z.lt_ge_cases a 0) as [Ha|Ha]; destruct (Z.lt_ge_cases b 0) as [Hb|Hb].
  - rewrite (Neg a Ha), (Neg b Hb) in H. injection H as H.
    apply (f_equal numberOfDigits) in H.
    rewrite (proj1 (toStringZ_value (- a) ltac:(lia))) in H.
    rewrite (proj1 (toStringZ_value (- b) ltac:(lia))) in H. lia.
  - pose proof (Pos b ltac:(lia)) as Hp. rewrite <- H, (Neg a Ha) in Hp.
    discriminate.
  - pose proof (Pos a ltac:(lia)) as Hp. rewrite H, (Neg b Hb) in Hp.
    discriminate.
  - apply (f_equal numberOfDigits) in H.
    rewrite (proj1 (toStringZ_value a ltac:(lia))) in H.
    rewrite (proj1 (toStringZ_value b ltac:(lia))) in H. exact H.
Qed.

(** Two zones share a key exactly when they are the same zone. *)
Lemma zoneKey_same (z1 z2 : ZoneSpec) :
  zoneKey z1 = zoneKey z2 <-> sameZone z1 z2.
Proof.
  destruct z1 as [n1 l1|o1 l1], z2 as [n2 l2|o2 l2]; cbn [zoneKey sameZone].
  - split; [intros H; apply app_inv_head in H; exact H|intros ->; reflexivity].
  - split; [discriminate|intros []].
  - split; [discriminate|intros []].
  - split; [|intros ->; reflexivity].
    intros H. apply app_inv_head in H. apply toStringZ_inj, H.
Qed.

(* ================================================================== *)
(** ** The list of output zones *)
(* ================================================================== *)

Lemma has_In (s : list str) (key : str) : has s key = true <-> In key s.
Proof.
  unfold has. rewrite existsb_exists. split.
  - intros (x & Hx & E). apply str_eqb_eq in E. subst. exact Hx.
  - intros H. exists key. split; [exact H|apply str_eqb_refl].
Qed.

Lemma accOk_empty : accOk (mkAcc [] []).
Proof. split; [intros key; reflexivity|constructor]. Qed.

Lemma pushUnique_ok (acc : Acc) (zone : option ZoneSpec) :
  accOk acc -> accOk (pushUnique acc zone).
Proof.
  intros [Hs Hn]. destruct zone as [z|]; [|split; assumption].
  unfold pushUnique. destruct (has (seen acc) (zoneKey z)) eqn:E;
    [split; assumption|].
  assert (Hnot : ~ In (zoneKey z) (map zoneKey (zones acc))).
  { intros Hin. apply Hs, has_In in Hin. congruence. }
  split; cbn [zones seen].
  - intros key. rewrite map_app, in_app_iff. cbn [map In]. rewrite Hs. tauto.
  - rewrite map_app. cbn [map].
    apply NoDup_app; [exact Hn|repeat constructor; intros []|].
    intros k Hk [<-|[]]. exact (Hnot Hk).
Qed.

Lemma pushAll_ok (host : Host) (entries : list str) : forall acc,
  accOk acc ->
  accOk (fold_left (fun a entry => pushUnique a (parseZone host entry))
                   entries acc).
Proof.
  induction entries as [|e es IH]; intros acc H; [exact H|].
  cbn [fold_left]. apply IH, pushUnique_ok, H.
Qed.

(** [pushUnique] only appends. *)
Lemma pushUnique_prefix (acc : Acc) (zone : option ZoneSpec) :
  exists more, zones (pushUnique acc zone) = zones acc ++ more.
Proof.
  destruct zone as [z|]; [|exists []; symmetry; apply app_nil_r].
  unfold pushUnique. destruct (has (seen acc) (zoneKey z)).
  - exists []. symmetry. apply app_nil_r.
  - exists [z]. reflexivity.
Qed.

Lemma pushAll_prefix (host : Host) (entries : list str) : forall acc,
  exists more,
    zones (fold_left (fun a entry => pushUnique a (parseZone host entry))
                     entries acc) = zones acc ++ more.
Proof.
  induction entries as [|e es IH]; intros acc.
  - exists []. symmetry. apply app_nil_r.
  - cbn [fold_left].
    destruct (IH (pushUnique acc (parseZone host e))) as (m2 & E2).
    destruct (pushUnique_prefix acc (parseZone host e)) as (m1 & E1).
    exists (m1 ++ m2). rewrite E2, E1, app_assoc. reflexivity.
Qed.

(** Where the zones of the accumulator come from. *)
Lemma pushAll_sound (host : Host) (entries : list str) : forall acc z,
  In z (zones (fold_left (fun a entry => pushUnique a (parseZone host entry))
                         entries acc)) ->
  In z (zones acc)
  \/ exists entry, In entry entries /\ parseZone host entry = Some z.
Proof.
  induction entries as [|e es IH]; intros acc z H; [left; exact H|].
  cbn [fold_left] in H. apply IH in H. destruct H as [H|(e' & He & Hz)].
  - destruct (parseZone host e) as [z'|] eqn:P; [|left; exact H].
    unfold pushUnique in H. destruct (has (seen acc) (zoneKey z'));
      [left; exact H|].
    cbn [zones] in H. apply in_app_iff in H. destruct H as [H|[<-|[]]].
    + left. exact H.
    + right. exists e. split; [left; reflexivity|exact P].
  - right. exists e'. split; [right; exact He|exact Hz].
Qed.

(** Every entry that resolves is represented, by the first zone with its
    key. *)
Lemma pushUnique_keeps (acc : Acc) (zone : option ZoneSpec) (key : str) :
  In key (map zoneKey (zones acc)) ->
  In key (map zoneKey (zones (pushUnique acc zone))).
Proof.
  intros H. destruct (pushUnique_prefix acc zone) as (m & ->).
  rewrite map_app. apply in_app_iff. left. exact H.
Qed.

Lemma pushUnique_adds (acc : Acc) (z : ZoneSpec) :
  accOk acc -> In (zoneKey z) (map zoneKey (zones (pushUnique acc (Some z)))).
Proof.
  intros [Hs _]. unfold pushUnique.
  destruct (has (seen acc) (zoneKey z)) eqn:E.
  - apply Hs, has_In, E.
  - cbn [zones]. rewrite map_app. apply in_app_iff. right. left. reflexivity.
Qed.

Lemma pushAll_keeps (host : Host) (entries : list str) : forall acc key,
  In key (map zoneKey (zones acc)) ->
  In key (map zoneKey
            (zones (fold_left
                      (fun a entry => pushUnique a (parseZone host entry))
                      entries acc))).
Proof.
  induction entries as [|e es IH]; intros acc key H; [exact H|].
  cbn [fold_left]. apply IH, pushUnique_keeps, H.
Qed.

Lemma pushAll_complete (host : Host) (entries : list str) : forall acc e z,
  accOk acc -> In e entries -> parseZone host e = Some z ->
  In (zoneKey z)
     (map zoneKey
        (zones (fold_left (fun a entry => pushUnique a (parseZone host entry))
                          entries acc))).
Proof.
  induction entries as [|e0 es IH]; intros acc e z Hok Hin Hz;
    [destruct Hin|].
  destruct Hin as [<-|Hin]; cbn [fold_left].
  - apply pushAll_keeps. rewrite Hz. apply pushUnique_adds, Hok.
  - apply (IH _ e z); [apply pushUnique_ok, Hok|exact Hin|exact Hz].
Qed.

Lemma parseZone_Local (host : Host) :
  parseZone host (js "Local")
  = Some (Iana (localTimeZone host) (Some (js "Local"))).
Proof. reflexivity. Qed.

Lemma parseZone_UTC (host : Host) :
  parseZone host (js "UTC") = Some (Fixed 0 (js "UTC")).
Proof. reflexivity. Qed.

Section OutputZones.

Variable host : Host.

Lemma parseOutputZones_eq (rawList : option str) (includeLocal : bool) :
  parseOutputZones host rawList includeLocal
  = match zones (afterEntries host rawList includeLocal) with
    | [] => [Fixed 0 (js "UTC")]
    | z :: zs => z :: zs
    end.
Proof.
  unfold parseOutputZones, afterEntries, outputEntries.
  rewrite parseZone_Local, parseZone_UTC.
  assert (E0 : (if includeLocal
                then pushUnique (mkAcc [] []) (Some (localZone host))
                else mkAcc [] [])
               = (if includeLocal then mkAcc [localZone host] [zoneKey (localZone host)]
                  else mkAcc [] []))
    by (destruct includeLocal; reflexivity).
  fold (localZone host). rewrite E0.
  set (start := if includeLocal then mkAcc [localZone host] [zoneKey (localZone host)]
                else mkAcc [] []).
  assert (Hstart : accOk start).
  { subst start. destruct includeLocal; [|apply accOk_empty].
    split; cbn [zones seen map]; [intros key; reflexivity|].
    repeat constructor. intros []. }
  destruct rawList as [l|]; cbn [option_map fold_left].
  - set (acc := fold_left _ _ start).
    assert (Hacc : accOk acc) by (apply pushAll_ok, Hstart).
    destruct (zones acc) as [|z zs] eqn:Z; [|rewrite Z; reflexivity].
    unfold pushUnique.
    destruct (has (seen acc) (zoneKey (Fixed 0 (js "UTC")))) eqn:H.
    + apply has_In, Hacc in H. rewrite Z in H. destruct H.
    + cbn [zones]. rewrite Z. reflexivity.
  - destruct (zones start) as [|z zs] eqn:Z; [|rewrite Z; reflexivity].
    unfold pushUnique.
    destruct (has (seen start) (zoneKey (Fixed 0 (js "UTC")))) eqn:H.
    + apply has_In, Hstart in H. rewrite Z in H. destruct H.
    + cbn [zones]. rewrite Z. reflexivity.
Qed.

Lemma afterEntries_ok (rawList : option str) (includeLocal : bool) :
  accOk (afterEntries host rawList includeLocal).
Proof.
  apply pushAll_ok. destruct includeLocal; [|apply accOk_empty].
  split; cbn [zones seen map]; [intros key; reflexivity|].
  repeat constructor. intros [].
Qed.

Lemma parseOutputZones_nonempty (rawList : option str) (includeLocal : bool) :
  parseOutputZones host rawList includeLocal <> [].
Proof.
  rewrite parseOutputZones_eq.
  destruct (zones (afterEntries host rawList includeLocal)); discriminate.
Qed.

Lemma parseOutputZones_keys (rawList : option str) (includeLocal : bool) :
  NoDup (map zoneKey (parseOutputZones host rawList includeLocal)).
Proof.
  rewrite parseOutputZones_eq.
  pose proof (afterEntries_ok rawList includeLocal) as [_ H].
  destruct (zones (afterEntries host rawList includeLocal)); [|exact H].
  repeat constructor. intros [].
Qed.

Lemma parseOutputZones_local_first (rawList : option str) :
  exists more, parseOutputZones host rawList true = localZone host :: more.
Proof.
  rewrite parseOutputZones_eq. unfold afterEntries.
  destruct (pushAll_prefix host (outputEntries rawList)
              (mkAcc [localZone host] [zoneKey (localZone host)])) as (m & ->).
  cbn [zones app]. exists m. reflexivity.
Qed.

Lemma parseOutputZones_sound (rawList : option str) (includeLocal : bool) z :
  In z (parseOutputZones host rawList includeLocal) ->
  (includeLocal = true /\ z = localZone host)
  \/ (exists entry, In entry (outputEntries rawList)
                    /\ parseZone host entry = Some z)
  \/ (z = Fixed 0 (js "UTC")
      /\ parseOutputZones host rawList includeLocal = [z]).
Proof.
  rewrite parseOutputZones_eq.
  destruct (zones (afterEntries host rawList includeLocal)) as [|z0 zs] eqn:Z.
  - intros [<-|[]]. right. right. split; reflexivity.
  - rewrite <- Z. intros H. unfold afterEntries in H.
    apply pushAll_sound in H. destruct H as [H|H]; [|right; left; exact H].
    destruct includeLocal; cbn [zones] in H; [|destruct H].
    destruct H as [<-|[]]. left. split; reflexivity.
Qed.

Lemma parseOutputZones_complete (rawList : option str) (includeLocal : bool)
  entry z :
  In entry (outputEntries rawList) -> parseZone host entry = Some z ->
  In (zoneKey z) (map zoneKey (parseOutputZones host rawList includeLocal)).
Proof.
  intros Hin Hz. rewrite parseOutputZones_eq.
  assert (H : In (zoneKey z)
                 (map zoneKey (zones (afterEntries host rawList includeLocal)))).
  { unfold afterEntries. apply (pushAll_complete host _ _ entry z);
      [|exact Hin|exact Hz].
    destruct includeLocal; [|apply accOk_empty].
    split; cbn [zones seen map]; [intros key; reflexivity|].
    repeat constructor. intros []. }
  destruct (zones (afterEntries host rawList includeLocal)); [destruct H|exact H].
Qed.

End OutputZones.

(* ================================================================== *)
(** ** What [parseZone] returns *)
(* ================================================================== *)

Lemma etc_hours s m : exec etcPattern s = Some m -> digitsGroup 4 (cap m 2).
Proof. intros H. group_digits. Qed.

Lemma offset_hours s m :
  exec offsetPattern s = Some m -> digitsGroup 4 (cap m 2).
Proof. intros H. group_digits. Qed.

Lemma offset_minutes s m :
  exec offsetPattern s = Some m -> digitsGroup 4 (cap m 3).
Proof. intros H. group_digits. Qed.

Lemma bare_hours s m :
  exec bareOffsetPattern s = Some m -> digitsGroup 4 (cap m 2).
Proof. intros H. group_digits. Qed.

Lemma bare_minutes s m :
  exec bareOffsetPattern s = Some m -> digitsGroup 4 (cap m 3).
Proof. intros H. group_digits. Qed.

Lemma fixedZone_label (o : Z) :
  Z.abs o < 6000 -> fixedZone o = Fixed o (fixedLabel o).
Proof.
  intros H. unfold fixedZone, fixedLabel. rewrite formatOffset_text by exact H.
  reflexivity.
Qed.

(** A fixed offset out of [parseFixedOffset] is less than a day, and its
    label is the canonical one. *)
Lemma parseFixedOffset_range (raw : str) (z : ZoneSpec) :
  parseFixedOffset raw = Some z ->
  exists o, -1439 <= o <= 1439 /\ z = Fixed o (fixedLabel o).
Proof.
  unfold parseFixedOffset, numberOf.
  destruct (exec etcPattern raw) as [m|] eqn:E1.
  { pose proof (digitsGroup_bound _ (etc_hours _ _ E1)) as Hh.
    destruct (Z.gtb_spec (numberOr0 (cap m 2)) 23) as [|G1]; [discriminate|].
    intros Hz. injection Hz as <-. eexists. split; [|apply fixedZone_label].
    - unfold minutesInHour. destruct (isPlus (cap m 1)); lia.
    - unfold minutesInHour. destruct (isPlus (cap m 1)); lia. }
  destruct (exec offsetPattern raw) as [m|] eqn:E2.
  { pose proof (digitsGroup_bound _ (offset_hours _ _ E2)) as Hh.
    pose proof (digitsGroup_bound _ (offset_minutes _ _ E2)) as Hm.
    destruct (Z.gtb_spec (numberOr0 (cap m 2)) 23) as [|G1]; [discriminate|].
    destruct (Z.gtb_spec (numberOr0 (cap m 3)) 59) as [|G2]; [discriminate|].
    cbn [orb]. intros Hz. injection Hz as <-.
    eexists. split; [|apply fixedZone_label].
    - unfold minutesInHour. destruct (isPlus (cap m 1)); lia.
    - unfold minutesInHour. destruct (isPlus (cap m 1)); lia. }
  destruct (exec bareOffsetPattern raw) as [m|] eqn:E3; [|discriminate].
  pose proof (digitsGroup_bound _ (bare_hours _ _ E3)) as Hh.
  pose proof (digitsGroup_bound _ (bare_minutes _ _ E3)) as Hm.
  destruct (Z.gtb_spec (numberOr0 (cap m 2)) 23) as [|G1]; [discriminate|].
  destruct (Z.gtb_spec (numberOr0 (cap m 3)) 59) as [|G2]; [discriminate|].
  cbn [orb]. intros Hz. injection Hz as <-.
  eexists. split; [|apply fixedZone_label].
  - unfold minutesInHour. destruct (isPlus (cap m 1)); lia.
  - unfold minutesInHour. destruct (isPlus (cap m 1)); lia.
Qed.

(** The four shapes of a resolved zone. *)
Lemma parseZone_shapes host (raw : str) (z : ZoneSpec) :
  parseZone host raw = Some z ->
  z = localZone host
  \/ z = Fixed 0 (js "UTC")
  \/ (exists o, -1439 <= o <= 1439 /\ z = Fixed o (fixedLabel o))
  \/ (z = Iana (trim raw) None /\ tzValid host (trim raw) = true
      /\ parseZone host (trim raw) = Some z).
Proof.
  intros H. pose proof H as H0. rewrite <- parseZone_trim in H0.
  revert H. unfold parseZone at 1.
  destruct (trim raw) as [|c t]; [discriminate|].
  destruct (test _ (c :: t)); [intros H; injection H as <-; left; reflexivity|].
  destruct (test _ (c :: t));
    [intros H; injection H as <-; right; left; reflexivity|].
  destruct (parseFixedOffset (c :: t)) as [f|] eqn:E.
  { intros H. injection H as <-. right. right. left.
    exact (parseFixedOffset_range _ _ E). }
  unfold isValidIanaTimeZone, formatterForParts.
  destruct (tzValid host (c :: t)) eqn:V; cbn [bind catch];
    intros H; [|discriminate].
  injection H as <-. right. right. right. repeat split; assumption.
Qed.

Lemma labelReparses_all : allBetween (-1439) 1439 labelReparses = true.
Proof. vm_compute. reflexivity. Qed.

Lemma parseZone_fixedLabel host (o : Z) :
  -1439 <= o <= 1439 ->
  parseZone host (fixedLabel o) = Some (Fixed o (fixedLabel o)).
Proof.
  intros Ho. pose proof (allBetween_spec _ _ _ labelReparses_all o Ho) as H.
  unfold labelReparses in H.
  apply andb_true_iff in H. destruct H as [H H4].
  apply andb_true_iff in H. destruct H as [H H3].
  apply andb_true_iff in H. destruct H as [H1 H2].
  apply str_eqb_eq in H1. apply negb_true_iff in H2, H3.
  unfold parseZone. rewrite H1.
  destruct (fixedLabel o) as [|c t] eqn:L; [discriminate|].
  rewrite H2, H3.
  destruct (parseFixedOffset (c :: t)) as [[|o' l']|]; try discriminate.
  apply andb_true_iff in H4. destruct H4 as [Ho' Hl'].
  apply Z.eqb_eq in Ho'. apply str_eqb_eq in Hl'. subst. reflexivity.
Qed.

(** The display name of a resolved zone resolves to the same zone. *)
Lemma parseZone_displayName host (raw : str) (z : ZoneSpec) :
  parseZone host raw = Some z -> parseZone host (zoneDisplayName z) = Some z.
Proof.
  intros H.
  destruct (parseZone_shapes host raw z H)
    as [->|[->|[(o & Ho & ->)|(-> & _ & E)]]].
  - reflexivity.
  - reflexivity.
  - cbn [zoneDisplayName]. apply parseZone_fixedLabel, Ho.
  - cbn [zoneDisplayName]. exact E.
Qed.

(* ================================================================== *)
(** ** What [parseDateInput] hands to the command *)
(* ================================================================== *)

(** The text left of a split is never empty: the trimmed input starts with a
    unit that is no white space, and the split point lies after it. *)
Lemma slice_head (c : Z) (t : str) (k : Z) :
  0 < k -> exists t', slice (c :: t) 0 k = c :: t'.
Proof.
  intros Hk. unfold slice, clampIndex.
  assert (Hl : len (c :: t) = 1 + len t) by (unfold len; cbn [length]; lia).
  pose proof (len_nonneg t). rewrite Hl.
  destruct (Z.ltb_spec k 0); [lia|]. cbn [Z.ltb Z.compare].
  rewrite (Z.min_l 0) by lia. rewrite Z.sub_0_r. cbn [Z.to_nat skipn].
  destruct (Z.to_nat (Z.min k (1 + len t))) as [|n] eqn:E; [lia|].
  cbn [firstn]. eexists. reflexivity.
Qed.

Lemma trim_head (c : Z) (t : str) :
  isSpace c = false -> exists t', trim (c :: t) = c :: t'.
Proof.
  intros Hc. unfold trim. cbn [trimStart]. rewrite Hc.
  apply trimEnd_head, Hc.
Qed.

Lemma trim_nil_or_head (s : str) :
  trim s = [] \/ exists c t, trim s = c :: t /\ isSpace c = false.
Proof.
  unfold trim. pose proof (trimStart_head s) as Hh.
  destruct (trimStart s) as [|c t]; [left; reflexivity|].
  cbn in Hh. destruct (trimEnd_head c t Hh) as (t' & E).
  right. exists c, t'. split; [exact E|exact Hh].
Qed.

Lemma splitInputAndZone_empty host raw dz :
  fst (splitInputAndZone host raw dz) = [] <-> trim raw = [].
Proof.
  unfold splitInputAndZone. cbv zeta.
  destruct (trim_nil_or_head raw) as [E|(c & t & E & Hc)]; rewrite E.
  - cbn. tauto.
  - destruct (Z.leb_spec (lastIndexOf 44 (c :: t)) 0) as [|Hk];
      [cbn [fst]; split; intros; discriminate|].
    destruct (parseZone host _);
      [|cbn [fst]; split; intros; discriminate].
    cbn [fst]. destruct (slice_head c t _ Hk) as (t' & ->).
    destruct (trim_head c t' Hc) as (t'' & ->). split; intros; discriminate.
Qed.

Lemma hasInput_trim (raw : str) : hasInput raw = false <-> trim raw = [].
Proof.
  unfold hasInput, len. destruct (trim raw) as [|c t]; cbn [length].
  - split; reflexivity.
  - split; [|discriminate]. intros H. rewrite Z.gtb_ltb in H.
    apply Z.ltb_ge in H. lia.
Qed.

(** The loop of [parseDateInput] returns the label and the Date of an entry
    of the pipeline, and that Date is valid. *)
Lemma firstMatch_some input z label d : forall parsers,
  firstMatch parsers input z = Ok (Some (label, d)) ->
  isNaNDate d = false
  /\ exists parser : ParserFn,
       In (label, parser) parsers /\ parser input z = Ok (Some d).
Proof.
  induction parsers as [|[l p] rest IH]; intros H; [discriminate|].
  cbn [firstMatch] in H. destruct (p input z) as [[d'|]|] eqn:E; cbn [bind] in H.
  - destruct (isNaNDate d') eqn:Hn.
    + destruct (IH H) as (Hv & q & Hin & Hq).
      split; [exact Hv|]. exists q. split; [right; exact Hin|exact Hq].
    + injection H as <- <-. split; [exact Hn|].
      exists p. split; [left; reflexivity|exact E].
  - destruct (IH H) as (Hv & q & Hin & Hq).
    split; [exact Hv|]. exists q. split; [right; exact Hin|exact Hq].
  - discriminate.
Qed.

Lemma parseDateInput_success host raw dz input z lbl d pat :
  parseDateInput host raw dz = Ok (ParseSuccess input z lbl d pat) ->
  input = fst (splitInputAndZone host raw dz)
  /\ z = snd (splitInputAndZone host raw dz)
  /\ input <> [] /\ lbl = zoneDisplayName z /\ isNaNDate d = false
  /\ exists parser : ParserFn,
       In (pat, parser) (parserPipeline host (detectState input))
       /\ parser input z = Ok (Some d).
Proof.
  rewrite parseDateInput_eq. cbv zeta.
  destruct (splitInputAndZone host raw dz) as [i z0]. cbn [fst snd].
  destruct i as [|c t]; [discriminate|].
  destruct (firstMatch _ (c :: t) z0) as [[[l d0]|]|] eqn:F; cbn [bind];
    [|discriminate|discriminate].
  intros H. injection H as <- <- <- <- <-.
  destruct (firstMatch_some _ _ _ _ _ F) as (Hv & q & Hin & Hq).
  repeat split; try reflexivity; [discriminate|exact Hv|].
  exists q. split; assumption.
Qed.

Lemma parseDateInput_ok host raw dz :
  hostOk host -> zoneOk host dz -> exists r, parseDateInput host raw dz = Ok r.
Proof.
  intros Hh Hz. rewrite parseDateInput_eq. cbv zeta.
  pose proof (splitInputAndZone_ok host raw dz Hh Hz) as Hok.
  destruct (splitInputAndZone host raw dz) as [input z]. cbn [fst snd] in *.
  destruct input as [|c t]; [eexists; reflexivity|].
  destruct (firstMatch_total z (c :: t) _
              (pipeline_total host Hh z Hok (detectState (c :: t)) (c :: t)))
    as (r & E).
  rewrite E. cbn [bind]. destruct r as [[label d]|]; eexists; reflexivity.
Qed.

(* ================================================================== *)
(** ** The command *)
(* ================================================================== *)

Lemma defaultSourceZone_ok host preferences :
  hostOk host -> zoneOk host (defaultSourceZone host preferences).
Proof.
  intros Hh. unfold defaultSourceZone.
  destruct (parseZone host _) as [z|] eqn:E; [|exact I].
  exact (parseZone_ok host _ z Hh E).
Qed.

Lemma parseOutputZones_ok host rawList includeLocal :
  hostOk host ->
  Forall (zoneOk host) (parseOutputZones host rawList includeLocal).
Proof.
  intros Hh. apply Forall_forall. intros z Hz.
  apply parseOutputZones_sound in Hz.
  destruct Hz as [[_ ->]|[(e & _ & E)|[-> _]]].
  - exact (local_valid host Hh).
  - exact (parseZone_ok host e z Hh E).
  - exact I.
Qed.

Lemma formatInstantForZone_ok host t z :
  zoneOk host z ->
  exists out, formatInstantForZone host (mkDate (Some t)) z = Ok out.
Proof.
  destruct z as [name lbl|off lbl]; intros Hz; [|eexists; reflexivity].
  cbn in Hz. unfold formatInstantForZone, getTimeZoneOffsetMilliseconds,
    toDateParts, zoneName, formatterForParts, formatterForZoneName.
  rewrite Hz. cbn [bind getTime].
  destruct (tzShortName host name t); eexists; reflexivity.
Qed.

Lemma zoneRows_ok host t : forall zs,
  Forall (zoneOk host) zs ->
  exists rows,
    zoneRows host (mkDate (Some t)) zs = Ok rows
    /\ map rowTitle rows = map zoneDisplayName zs.
Proof.
  induction zs as [|z zs IH]; intros H; [exists []; split; reflexivity|].
  inversion H as [|? ? Hz Hzs]; subst.
  destruct (formatInstantForZone_ok host t z Hz) as (out & E).
  destruct (IH Hzs) as (rows & R & T).
  cbn [zoneRows]. rewrite E. cbn [bind]. rewrite R. cbn [bind].
  eexists. split; [reflexivity|]. cbn [map rowTitle]. rewrite T. reflexivity.
Qed.

(* ================================================================== *)
(** ** Titles of the output zones *)
(* ================================================================== *)

Lemma zoneRows_titles host d : forall zs rows,
  zoneRows host d zs = Ok rows ->
  map rowTitle rows = map zoneDisplayName zs.
Proof.
  induction zs as [|z zs IH]; intros rows H.
  - injection H as <-. reflexivity.
  - cbn [zoneRows] in H.
    destruct (formatInstantForZone host d z) as [v|]; [|discriminate].
    cbn [bind] in H.
    destruct (zoneRows host d zs) as [rs|]; [|discriminate].
    cbn [bind] in H. injection H as <-.
    cbn [map rowTitle]. rewrite (IH rs eq_refl). reflexivity.
Qed.

(** Every zone of the output list is the zone its own display name
    resolves to. *)
Lemma parseOutputZones_known host rawList includeLocal z :
  In z (parseOutputZones host rawList includeLocal) ->
  parseZone host (zoneDisplayName z) = Some z.
Proof.
  intros H. apply parseOutputZones_sound in H.
  destruct H as [[_ ->]|[(e & _ & Hp)|[-> _]]].
  - apply parseZone_Local.
  - exact (parseZone_displayName host e z Hp).
  - apply parseZone_UTC.
Qed.

Lemma parseOutputZones_titles host rawList includeLocal :
  NoDup (map zoneDisplayName (parseOutputZones host rawList includeLocal)).
Proof.
  apply NoDup_map_NoDup_ForallPairs.
  - intros z1 z2 H1 H2 E.
    apply parseOutputZones_known in H1. apply parseOutputZones_known in H2.
    rewrite E in H1. congruence.
  - apply (NoDup_map_inv zoneKey), parseOutputZones_keys.
Qed.

Lemma pushAll_complete_same host rawList includeLocal entry z :
  In entry (outputEntries rawList) ->
  parseZone host entry = Some z ->
  exists z', In z' (parseOutputZones host rawList includeLocal)
             /\ sameZone z' z.
Proof.
  intros Hin Hp.
  pose proof (parseOutputZones_complete host rawList includeLocal entry z
                Hin Hp) as H.
  apply in_map_iff in H. destruct H as (z' & Hk & Hz').
  exists z'. split; [exact Hz'|]. apply zoneKey_same, Hk.
Qed.

(* ================================================================== *)
(** ** Offsets written after "UTC" / "GMT", or bare *)
(* ================================================================== *)

Lemma mt_Rep_ok p lo ds pr rs cs k x :
  forallb p ds = true -> (lo <= length ds)%nat -> headIs p rs = false ->
  k (MS (rev ds ++ pr) rs cs) = Some x ->
  mt (Rep lo None (Chr p)) (MS pr (ds ++ rs) cs) k = Some x.
Proof.
  intros Hp Hlo Hend Hk. rewrite mt_Rep. cbn [ms_rest].
  apply repLoop_chr_greedy; auto.
  rewrite length_app. lia.
Qed.

Lemma mt_Grp_Chr_ok p g c pr rs cs k x :
  p c = true -> k (MS (c :: pr) rs (setCap g [c] cs)) = Some x ->
  mt (Grp g (Chr p)) (MS pr (c :: rs) cs) k = Some x.
Proof.
  intros Hp Hk. cbn [mt ms_rest ms_prev ms_caps]. rewrite Hp.
  rewrite consumed_one. exact Hk.
Qed.

Lemma mt_hours_minutes pr sg hs colon mm :
  hs <> [] -> (length hs <= 2)%nat -> forallb isDigit hs = true ->
  minutesOk hs colon mm ->
  exists pr',
    mt (seq [Grp 2 (range 1 2 digit);
             opt (seq [opt (ch ":"); Grp 3 (times 2 digit)]); Eol])
       (MS pr (hs ++ (if colon then [58] else []) ++ mm)
           (setCap 1 [sg] noCaps)) Some
    = Some (MS pr' [] (offsetCaps sg hs mm)).
Proof.
  intros Hne Hl Hd Hm.
  assert (Hl1 : (1 <= length hs)%nat)
    by (destruct hs; [congruence|cbn; lia]).
  unfold seq, range, times, digit, ch, unit1.
  cbn [fold_right js list_ascii_of_string map].
  rewrite mt_Seq.
  destruct Hm as [[-> ->]|(Hml & Hmd & Hc)].
  - eexists. apply (mt_Grp_Rep_ok isDigit 2 1 2 hs);
      [exact Hd|exact Hl1|exact Hl|left; reflexivity|].
    rewrite mt_Seq. apply mt_opt_skip; [reflexivity|]. reflexivity.
  - destruct mm as [|m1 [|m2 [|]]]; try discriminate.
    cbn [forallb] in Hmd. apply andb_true_iff in Hmd. destruct Hmd as [Hm1 Hm2].
    rewrite andb_true_r in Hm2.
    destruct colon.
    + eexists. apply (mt_Grp_Rep_ok isDigit 2 1 2 hs);
        [exact Hd|exact Hl1|exact Hl|left; reflexivity|].
      rewrite mt_Seq. apply mt_opt_take. rewrite mt_Seq.
      apply mt_opt_take. cbn [app]. apply mt_Chr_ok; [reflexivity|].
      rewrite mt_Seq.
      apply (mt_Grp_Rep_ok isDigit 3 2 2 [m1; m2] _ []);
        [cbn [forallb]; rewrite Hm1, Hm2; reflexivity|cbn; lia|cbn; lia
        |left; reflexivity|].
      reflexivity.
    + destruct Hc as [Hc|Hc]; [discriminate|]. cbn [app].
      eexists. apply (mt_Grp_Rep_ok isDigit 2 1 2 hs);
        [exact Hd|exact Hl1|exact Hl|right; exact Hc|].
      rewrite mt_Seq. apply mt_opt_take. rewrite mt_Seq.
      apply mt_opt_skip.
      { cbn [mt ms_rest]. change (Z.of_N (N_of_ascii ":")) with 58.
        replace (58 =? m1) with false; [reflexivity|].
        symmetry. apply Z.eqb_neq. unfold isDigit in Hm1. lia. }
      rewrite mt_Seq.
      apply (mt_Grp_Rep_ok isDigit 3 2 2 [m1; m2] _ []);
        [cbn [forallb]; rewrite Hm1, Hm2; reflexivity|cbn; lia|cbn; lia
        |left; reflexivity|].
      reflexivity.
Qed.

Lemma mt_Alt_l a b st k x : mt a st k = Some x -> mt (Alt a b) st k = Some x.
Proof. intros H. cbn [mt]. rewrite H. reflexivity. Qed.

Lemma mt_Alt_r a b st k x :
  mt a st k = None -> mt b st k = Some x -> mt (Alt a b) st k = Some x.
Proof. intros H1 H2. cbn [mt]. rewrite H1. exact H2. Qed.

Lemma sign_not_space (sg : Z) : sg = 43 \/ sg = 45 -> isSpace sg = false.
Proof. intros [-> | ->]; reflexivity. Qed.

Lemma digits_head_not_space (hs rest : str) :
  hs <> [] -> forallb isDigit hs = true -> headIs isSpace (hs ++ rest) = false.
Proof.
  destruct hs as [|h hs]; [congruence|]. intros _ H. cbn [forallb] in H.
  apply andb_true_iff in H. destruct H as [H _].
  cbn. apply digit_not_space, H.
Qed.

Lemma three_letters (pre : str) (a b c : Z) :
  toLowerCase pre = [a; b; c] ->
  exists c1 c2 c3,
    pre = [c1; c2; c3] /\ lowerUnit c1 = a /\ lowerUnit c2 = b
    /\ lowerUnit c3 = c.
Proof.
  destruct pre as [|c1 [|c2 [|c3 [|]]]]; try discriminate.
  intros H. injection H as E1 E2 E3. exists c1, c2, c3. auto.
Qed.

Lemma offset_exec pre sp1 sg sp2 hs colon mm :
  toLowerCase pre = js "utc" \/ toLowerCase pre = js "gmt" ->
  forallb isSpace sp1 = true -> sg = 43 \/ sg = 45 ->
  forallb isSpace sp2 = true ->
  hs <> [] -> (length hs <= 2)%nat -> forallb isDigit hs = true ->
  minutesOk hs colon mm ->
  exec offsetPattern (offsetSpecifier pre sp1 sg sp2 hs colon mm)
  = Some (offsetCaps sg hs mm).
Proof.
  intros Hpre Hs1 Hsg Hs2 Hne Hl Hd Hm.
  destruct (mt_hours_minutes (rev sp2 ++ sg :: rev sp1 ++ rev pre) sg hs colon
              mm Hne Hl Hd Hm) as (pr' & E).
  assert (M : mt offsetPattern
                (MS [] (offsetSpecifier pre sp1 sg sp2 hs colon mm) noCaps)
                Some
              = Some (MS pr' [] (offsetCaps sg hs mm))).
  { unfold offsetPattern, offsetSpecifier.
    change (seq [Bol; Alt (liti "UTC") (liti "GMT"); star space;
                 Grp 1 signUnit; star space; Grp 2 (range 1 2 digit);
                 opt (seq [opt (ch ":"); Grp 3 (times 2 digit)]); Eol])
      with (Seq Bol (Seq (Alt (liti "UTC") (liti "GMT"))
              (Seq (star space) (Seq (Grp 1 signUnit) (Seq (star space)
                 (seq [Grp 2 (range 1 2 digit);
                       opt (seq [opt (ch ":"); Grp 3 (times 2 digit)]);
                       Eol])))))).
    rewrite mt_Seq, mt_Bol, mt_Seq.
    assert (K : forall c1 c2 c3,
              pre = [c1; c2; c3] ->
              mt (Seq (star space) (Seq (Grp 1 signUnit) (Seq (star space)
                    (seq [Grp 2 (range 1 2 digit);
                          opt (seq [opt (ch ":"); Grp 3 (times 2 digit)]);
                          Eol]))))
                 (MS [c3; c2; c1]
                     (sp1 ++ sg :: sp2 ++ hs
                      ++ (if colon then [58] else []) ++ mm) noCaps) Some
              = Some (MS pr' [] (offsetCaps sg hs mm))).
    { intros c1 c2 c3 ->. rewrite mt_Seq. unfold star, space.
      apply mt_Rep_ok; [exact Hs1|lia|cbn; apply sign_not_space, Hsg|].
      rewrite mt_Seq. unfold signUnit.
      apply mt_Grp_Chr_ok; [destruct Hsg as [-> | ->]; reflexivity|].
      rewrite mt_Seq.
      apply mt_Rep_ok;
        [exact Hs2|lia|apply digits_head_not_space; assumption|].
      cbn [rev app] in E. exact E. }
    destruct Hpre as [Hp|Hp];
      apply three_letters in Hp; destruct Hp as (c1 & c2 & c3 & Hp & H1 & H2 & H3);
      specialize (K c1 c2 c3 Hp); subst pre; cbn [app].
    - apply mt_Alt_l. unfold liti, seq.
      cbn [fold_right js list_ascii_of_string map].
      rewrite mt_Seq. apply mt_Chr_ok; [rewrite H1; reflexivity|].
      rewrite mt_Seq. apply mt_Chr_ok; [rewrite H2; reflexivity|].
      rewrite mt_Seq. apply mt_Chr_ok; [rewrite H3; reflexivity|].
      rewrite mt_Eps. exact K.
    - apply mt_Alt_r.
      { unfold liti, seq. cbn [fold_right js list_ascii_of_string map].
        rewrite mt_Seq. cbn [mt ms_rest]. rewrite H1. reflexivity. }
      unfold liti, seq. cbn [fold_right js list_ascii_of_string map].
      rewrite mt_Seq. apply mt_Chr_ok; [rewrite H1; reflexivity|].
      rewrite mt_Seq. apply mt_Chr_ok; [rewrite H2; reflexivity|].
      rewrite mt_Seq. apply mt_Chr_ok; [rewrite H3; reflexivity|].
      rewrite mt_Eps. exact K. }
  unfold exec.
  assert (S : forall r s st, mt r (MS [] s noCaps) Some = Some st ->
                             searchFrom r [] s = Some ([], st)).
  { intros r s st H. destruct s; cbn [searchFrom]; rewrite H; reflexivity. }
  rewrite (S _ _ _ M). reflexivity.
Qed.

Lemma bare_exec sg sp2 hs colon mm :
  sg = 43 \/ sg = 45 -> forallb isSpace sp2 = true ->
  hs <> [] -> (length hs <= 2)%nat -> forallb isDigit hs = true ->
  minutesOk hs colon mm ->
  exec bareOffsetPattern (offsetSpecifier [] [] sg sp2 hs colon mm)
  = Some (offsetCaps sg hs mm).
Proof.
  intros Hsg Hs2 Hne Hl Hd Hm.
  destruct (mt_hours_minutes (rev sp2 ++ [sg]) sg hs colon mm Hne Hl Hd Hm)
    as (pr' & E).
  assert (M : mt bareOffsetPattern
                (MS [] (offsetSpecifier [] [] sg sp2 hs colon mm) noCaps) Some
              = Some (MS pr' [] (offsetCaps sg hs mm))).
  { unfold bareOffsetPattern, offsetSpecifier. cbn [app].
    change (seq [Bol; Grp 1 signUnit; star space; Grp 2 (range 1 2 digit);
                 opt (seq [opt (ch ":"); Grp 3 (times 2 digit)]); Eol])
      with (Seq Bol (Seq (Grp 1 signUnit) (Seq (star space)
                 (seq [Grp 2 (range 1 2 digit);
                       opt (seq [opt (ch ":"); Grp 3 (times 2 digit)]);
                       Eol])))).
    rewrite mt_Seq, mt_Bol, mt_Seq. unfold signUnit.
    apply mt_Grp_Chr_ok; [destruct Hsg as [-> | ->]; reflexivity|].
    rewrite mt_Seq. unfold star, space.
    apply mt_Rep_ok;
      [exact Hs2|lia|apply digits_head_not_space; assumption|].
    exact E. }
  unfold exec.
  assert (S : forall r s st, mt r (MS [] s noCaps) Some = Some st ->
                             searchFrom r [] s = Some ([], st)).
  { intros r s st H. destruct s; cbn [searchFrom]; rewrite H; reflexivity. }
  rewrite (S _ _ _ M). reflexivity.
Qed.

Lemma not_etc (c : Z) (rest : str) :
  lowerUnit c <> 101 -> exec etcPattern (c :: rest) = None.
Proof.
  intros H. destruct (exec etcPattern (c :: rest)) eqn:E; [|reflexivity].
  exfalso. apply exec_anchored_sound in E. destruct E as (st & E & _).
  pat_unfold E. step_inv. cons_inv. unit_lia.
Qed.

Lemma not_prefixed (c : Z) (rest : str) :
  lowerUnit c <> 117 -> lowerUnit c <> 103 ->
  exec offsetPattern (c :: rest) = None.
Proof.
  intros H1 H2. destruct (exec offsetPattern (c :: rest)) eqn:E; [|reflexivity].
  exfalso. apply exec_anchored_sound in E. destruct E as (st & E & _).
  pat_unfold E. step_inv; cons_inv; unit_lia.
Qed.

Lemma not_local (c : Z) (rest : str) :
  lowerUnit c <> 108 -> test (seq [Bol; liti "local"; Eol]) (c :: rest) = false.
Proof.
  intros H. destruct (test _ _) eqn:T; [|reflexivity].
  exfalso. apply test_anchored_sound in T. destruct T as (st & T).
  unfold liti, seq in T. cbn in T. step_inv. cons_inv. unit_lia.
Qed.

(** Only "utc", "gmt" and "z", in any case, are the keywords of UTC. *)
Lemma keyword_sound (s : str) :
  test (seq [Bol; Grp 1 (Alt (liti "utc") (Alt (liti "gmt") (liti "z"))); Eol])
       s = true ->
  (length s <= 3)%nat.
Proof.
  intros T. apply test_anchored_sound in T. destruct T as (st & T).
  unfold liti, seq in T. cbn in T. step_inv; cbn; lia.
Qed.

Lemma offsetSpecifier_trim pre sp1 sg sp2 hs colon mm :
  headIs isSpace (pre ++ sp1 ++ [sg]) = false ->
  hs <> [] -> forallb isDigit hs = true -> forallb isDigit mm = true ->
  (colon = true -> mm <> []) ->
  trim (offsetSpecifier pre sp1 sg sp2 hs colon mm)
  = offsetSpecifier pre sp1 sg sp2 hs colon mm.
Proof.
  intros Hh Hne Hd Hm Hc. apply trim_id.
  - unfold offsetSpecifier.
    change (sg :: sp2 ++ hs ++ (if colon then [58] else []) ++ mm)
      with ([sg] ++ sp2 ++ hs ++ (if colon then [58] else []) ++ mm).
    rewrite !app_assoc. rewrite <- (app_assoc pre), <- !app_assoc.
    rewrite (app_assoc pre), (app_assoc (pre ++ sp1)).
    destruct ((pre ++ sp1) ++ [sg]) as [|x xs] eqn:X;
      [destruct (pre ++ sp1); discriminate|].
    rewrite <- app_assoc in X. rewrite X in Hh. exact Hh.
  - unfold offsetSpecifier.
    assert (L : exists body d, 
              sp2 ++ hs ++ (if colon then [58] else []) ++ mm = body ++ [d]
              /\ isDigit d = true).
    { destruct mm as [|m0 mm'] using rev_ind.
      - destruct colon; [exfalso; apply Hc; reflexivity|].
        rewrite !app_nil_r.
        destruct (exists_last Hne) as (hs' & d & ->).
        exists (sp2 ++ hs'), d. rewrite app_assoc. split; [reflexivity|].
        rewrite forallb_app in Hd. apply andb_true_iff in Hd.
        destruct Hd as [_ Hd]. cbn in Hd. rewrite andb_true_r in Hd. exact Hd.
      - exists (sp2 ++ hs ++ (if colon then [58] else []) ++ mm'), m0.
        rewrite !app_assoc. split; [reflexivity|].
        rewrite forallb_app in Hm. apply andb_true_iff in Hm.
        destruct Hm as [_ Hm]. cbn in Hm. rewrite andb_true_r in Hm. exact Hm. }
    destruct L as (body & d & L & Hdd). rewrite L.
    change (sg :: body ++ [d]) with ((sg :: body) ++ [d]).
    rewrite !app_assoc, rev_app_distr. cbn. apply digit_not_space, Hdd.
Qed.

Lemma offsetCaps_groups sg hs mm :
  cap (offsetCaps sg hs mm) 1 = Some [sg]
  /\ cap (offsetCaps sg hs mm) 2 = Some hs
  /\ numberOr0 (cap (offsetCaps sg hs mm) 3) = numberOfDigits mm.
Proof. destruct mm; repeat split; reflexivity. Qed.

Lemma minutesOk_digits hs colon mm :
  minutesOk hs colon mm ->
  forallb isDigit mm = true /\ (colon = true -> mm <> []).
Proof.
  intros [[-> ->]|(Hl & Hd & _)].
  - split; [reflexivity|discriminate].
  - split; [exact Hd|]. intros _ ->. discriminate.
Qed.

Lemma offsetBranch sg hs mm :
  sg = 43 \/ sg = 45 ->
  (if (numberOf (cap (offsetCaps sg hs mm) 2) >? 23)
      || (numberOr0 (cap (offsetCaps sg hs mm) 3) >? 59) then None
   else Some (fixedZone ((if isPlus (cap (offsetCaps sg hs mm) 1)
                          then 1 else -1)
                         * (numberOf (cap (offsetCaps sg hs mm) 2)
                            * minutesInHour
                            + numberOr0 (cap (offsetCaps sg hs mm) 3)))))
  = if (numberOfDigits hs >? 23) || (numberOfDigits mm >? 59) then None
    else Some (fixedZone (offsetOf sg hs mm)).
Proof.
  intros Hsg.
  destruct (offsetCaps_groups sg hs mm) as (E1 & E2 & E3).
  unfold numberOf. rewrite E1, E2, E3. cbn [numberOr0].
  unfold offsetOf, minutesInHour, isPlus.
  replace (str_eqb [sg] (js "+")) with (sg =? 43)
    by (destruct Hsg as [-> | ->]; reflexivity).
  reflexivity.
Qed.

Section OffsetZones.

Variable host : Host.

Lemma parseZone_prefixed pre sp1 sg sp2 hs colon mm :
  toLowerCase pre = js "utc" \/ toLowerCase pre = js "gmt" ->
  forallb isSpace sp1 = true -> sg = 43 \/ sg = 45 ->
  forallb isSpace sp2 = true ->
  hs <> [] -> (length hs <= 2)%nat -> forallb isDigit hs = true ->
  minutesOk hs colon mm ->
  numberOfDigits hs <= 23 -> numberOfDigits mm <= 59 ->
  parseZone host (offsetSpecifier pre sp1 sg sp2 hs colon mm)
  = Some (fixedZone (offsetOf sg hs mm)).
Proof.
  intros Hpre Hs1 Hsg Hs2 Hne Hl Hd Hm Hh Hmi.
  destruct (minutesOk_digits _ _ _ Hm) as [Hmd Hmc].
  pose proof (offset_exec pre sp1 sg sp2 hs colon mm Hpre Hs1 Hsg Hs2 Hne Hl
                Hd Hm) as Ex.
  assert (Hp : exists c1 c2 c3, pre = [c1; c2; c3]
                 /\ (lowerUnit c1 = 117 \/ lowerUnit c1 = 103)).
  { destruct Hpre as [Hp|Hp]; apply three_letters in Hp;
      destruct Hp as (c1 & c2 & c3 & -> & H1 & _); exists c1, c2, c3;
      split; auto. }
  destruct Hp as (c1 & c2 & c3 & Hp & H1).
  assert (Htrim : trim (offsetSpecifier pre sp1 sg sp2 hs colon mm)
                  = offsetSpecifier pre sp1 sg sp2 hs colon mm).
  { apply offsetSpecifier_trim; try assumption.
    subst pre. cbn. apply (ci_not_space c1 (lowerUnit c1) eq_refl).
    destruct H1 as [-> | ->]; lia. }
  unfold parseZone. rewrite Htrim.
  assert (Hlen : (3 < length (offsetSpecifier pre sp1 sg sp2 hs colon mm))%nat).
  { unfold offsetSpecifier. subst pre. rewrite !length_app. cbn [length].
    rewrite !length_app. lia. }
  assert (Hshape : offsetSpecifier pre sp1 sg sp2 hs colon mm
                   = c1 :: tl (offsetSpecifier pre sp1 sg sp2 hs colon mm))
    by (unfold offsetSpecifier; subst pre; reflexivity).
  destruct (offsetSpecifier pre sp1 sg sp2 hs colon mm) as [|x t] eqn:T;
    [discriminate|].
  injection Hshape as ->.
  rewrite not_local by (destruct H1 as [-> | ->]; lia).
  destruct (test (seq [Bol; Grp 1 (Alt (liti "utc") (Alt (liti "gmt") (liti "z")));
                       Eol]) (c1 :: t)) eqn:K.
  { apply keyword_sound in K. lia. }
  unfold parseFixedOffset.
  rewrite not_etc by (destruct H1 as [-> | ->]; lia).
  rewrite Ex. cbv beta iota zeta. rewrite (offsetBranch sg hs mm Hsg).
  replace (numberOfDigits hs >? 23) with false
    by (symmetry; rewrite Z.gtb_ltb; apply Z.ltb_ge; lia).
  replace (numberOfDigits mm >? 59) with false
    by (symmetry; rewrite Z.gtb_ltb; apply Z.ltb_ge; lia).
  reflexivity.
Qed.

Lemma parseZone_bare sg sp2 hs colon mm :
  sg = 43 \/ sg = 45 -> forallb isSpace sp2 = true ->
  hs <> [] -> (length hs <= 2)%nat -> forallb isDigit hs = true ->
  minutesOk hs colon mm ->
  numberOfDigits hs <= 23 -> numberOfDigits mm <= 59 ->
  parseZone host (offsetSpecifier [] [] sg sp2 hs colon mm)
  = Some (fixedZone (offsetOf sg hs mm)).
Proof.
  intros Hsg Hs2 Hne Hl Hd Hm Hh Hmi.
  destruct (minutesOk_digits _ _ _ Hm) as [Hmd Hmc].
  pose proof (bare_exec sg sp2 hs colon mm Hsg Hs2 Hne Hl Hd Hm) as Ex.
  assert (Htrim : trim (offsetSpecifier [] [] sg sp2 hs colon mm)
                  = offsetSpecifier [] [] sg sp2 hs colon mm).
  { apply offsetSpecifier_trim; try assumption.
    cbn. apply sign_not_space, Hsg. }
  unfold parseZone. rewrite Htrim.
  assert (Hshape : offsetSpecifier [] [] sg sp2 hs colon mm
                   = sg :: tl (offsetSpecifier [] [] sg sp2 hs colon mm))
    by reflexivity.
  destruct (offsetSpecifier [] [] sg sp2 hs colon mm) as [|x t] eqn:T;
    [discriminate|].
  injection Hshape as ->.
  rewrite not_local by (destruct Hsg as [-> | ->]; cbn; lia).
  destruct (test (seq [Bol; Grp 1 (Alt (liti "utc") (Alt (liti "gmt") (liti "z")));
                       Eol]) (sg :: t)) eqn:K.
  { exfalso. apply test_anchored_sound in K. destruct K as (st & K).
    unfold liti, seq in K. cbn in K.
    destruct Hsg as [-> | ->]; step_inv; cons_inv; unit_lia. }
  unfold parseFixedOffset.
  rewrite not_etc by (destruct Hsg as [-> | ->]; cbn; lia).
  rewrite not_prefixed by (destruct Hsg as [-> | ->]; cbn; lia).
  rewrite Ex. cbv beta iota zeta. rewrite (offsetBranch sg hs mm Hsg).
  replace (numberOfDigits hs >? 23) with false
    by (symmetry; rewrite Z.gtb_ltb; apply Z.ltb_ge; lia).
  replace (numberOfDigits mm >? 59) with false
    by (symmetry; rewrite Z.gtb_ltb; apply Z.ltb_ge; lia).
  reflexivity.
Qed.

End OffsetZones.

(* ================================================================== *)
(** ** "N units ago" *)
(* ================================================================== *)





Lemma mt_word_end (w : str) pr cs k : w <> [] -> mt (word w) (MS pr [] cs) k = None.
Proof. destruct w; [congruence|reflexivity]. Qed.













(** The result of [parseAgo] is never after the clock. *)
Lemma ago_amount s m :
  exec agoPattern s = Some m -> 0 <= numberOf (cap m 1).
Proof.
  intros H. apply exec_anchored_sound in H. destruct H as (st & H & <-).
  pat_unfold H. step_inv;
    cbn [cap nth setCap noCaps repeat numberOf numberOr0];
    match goal with
    | Hd : forallb isDigit ?ds = true |- 0 <= numberOfDigits ?ds =>
        pose proof (numberOfDigits_range ds Hd); lia
    end.
Qed.

Lemma parseAgo_past host input d t :
  parseAgo host input = Some d -> getTime d = Some t -> t <= dateNow host.
Proof.
  unfold parseAgo.
  destruct (exec agoPattern (trim input)) as [m|] eqn:E; [|discriminate].
  pose proof (ago_amount _ _ E) as Hn. cbv zeta.
  destruct (doubleOverflow <=? numberOf (cap m 1)); [discriminate|].
  intros H. injection H as <-. unfold newDate, TimeClip. cbn [getTime].
  match goal with
  | |- (if ?c then _ else _) = _ -> _ => destruct c; [|discriminate]
  end.
  intros H. injection H as <-.
  repeat match goal with
  | |- context [if ?c then _ else _] => destruct c
  end; lia.
Qed.

(* ================================================================== *)
(** ** Slash dates with a four-digit year *)
(* ================================================================== *)

Lemma exec_from_mt r s st :
  mt r (MS [] s noCaps) Some = Some st ->
  exec r s = Some (ms_caps st).
Proof.
  intros H. unfold exec.
  destruct s; cbn [searchFrom]; rewrite H; reflexivity.
Qed.

(** A bare A/B/C is matched by the slash pattern whatever the lengths the
    groups allow, and the groups are A, B and C. *)
Lemma slash_exec_groups (A B C : str) :
  A <> [] -> (length A <= 4)%nat -> forallb isDigit A = true ->
  B <> [] -> (length B <= 2)%nat -> forallb isDigit B = true ->
  C <> [] -> (length C <= 4)%nat -> forallb isDigit C = true ->
  exec slashPattern (A ++ 47 :: B ++ 47 :: C)
  = Some (setCap 3 C (setCap 2 B (setCap 1 A noCaps))).
Proof.
  intros HA1 HA2 HA3 HB1 HB2 HB3 HC1 HC2 HC3.
  assert (L : forall X : str, X <> [] -> (1 <= length X)%nat)
    by (intros [|x X] H; [congruence|cbn; lia]).
  apply (exec_from_mt _ _ (MS (rev C ++ 47 :: rev B ++ 47 :: rev A ++ []) []
                              (setCap 3 C (setCap 2 B (setCap 1 A noCaps))))).
  unfold slashPattern.
  change (seq [Bol; Grp 1 (range 1 4 digit); ch "/"; Grp 2 (range 1 2 digit);
               ch "/"; Grp 3 (range 1 4 digit);
               opt (seq ([plus space; Grp 4 (range 1 2 digit); ch ":";
                          Grp 5 (times 2 digit)] ++ timeTail 6)); Eol])
    with (Seq Bol (Seq (Grp 1 (range 1 4 digit)) (Seq (ch "/")
            (Seq (Grp 2 (range 1 2 digit)) (Seq (ch "/")
               (Seq (Grp 3 (range 1 4 digit))
                  (Seq (opt (seq ([plus space; Grp 4 (range 1 2 digit);
                                   ch ":"; Grp 5 (times 2 digit)]
                                  ++ timeTail 6)))
                       (Seq Eol Eps)))))))).
  unfold range, digit, ch.
  rewrite mt_Seq, mt_Bol, mt_Seq.
  apply (mt_Grp_Rep_ok isDigit 1 1 4 A);
    [exact HA3|apply L, HA1|exact HA2|left; reflexivity|].
  rewrite mt_Seq. apply mt_Chr_ok; [reflexivity|]. rewrite mt_Seq.
  apply (mt_Grp_Rep_ok isDigit 2 1 2 B);
    [exact HB3|apply L, HB1|exact HB2|left; reflexivity|].
  rewrite mt_Seq. apply mt_Chr_ok; [reflexivity|]. rewrite mt_Seq.
  rewrite <- (app_nil_r C) at 1.
  apply (mt_Grp_Rep_ok isDigit 3 1 4 C);
    [exact HC3|apply L, HC1|exact HC2|left; reflexivity|].
  rewrite mt_Seq. apply mt_opt_skip; reflexivity.
Qed.

Section SlashYears.

Variable host : Host.

Lemma slash_one_attempt (z : ZoneSpec) (y mo d : Z) :
  firstCandidate host [(y, mo, d)] 0 0 0 0 z None
  = if isValidCalendarDate y mo d then midnight host z y mo d else Ok None.
Proof.
  cbn [firstCandidate].
  rewrite (attempt_valid_time host _ _ _ 0 0 0 0 z None 0)
    by (reflexivity || lia).
  unfold midnight. destruct (isValidCalendarDate y mo d); [|reflexivity].
  destruct (toInstantFromComponents host _ z); reflexivity.
Qed.

Lemma parseSlashDate_years (A B C : str) z :
  A <> [] -> (length A <= 4)%nat -> forallb isDigit A = true ->
  B <> [] -> (length B <= 2)%nat -> forallb isDigit B = true ->
  C <> [] -> (length C <= 4)%nat -> forallb isDigit C = true ->
  let a := numberOfDigits A in
  let b := numberOfDigits B in
  let c := numberOfDigits C in
  (length A = 4%nat ->
   parseSlashDate host (A ++ 47 :: B ++ 47 :: C) z
   = if isValidCalendarDate a b c then midnight host z a b c else Ok None)
  /\ (length A <> 4%nat -> length C = 4%nat ->
      parseSlashDate host (A ++ 47 :: B ++ 47 :: C) z
      = if isValidCalendarDate c a b then midnight host z c a b else Ok None)
  /\ (length A <> 4%nat -> length C <> 4%nat ->
      length A = 3%nat \/ length C = 3%nat ->
      parseSlashDate host (A ++ 47 :: B ++ 47 :: C) z = Ok None).
Proof.
  intros HA1 HA2 HA3 HB1 HB2 HB3 HC1 HC2 HC3 a b c.
  pose proof (slash_exec_groups A B C HA1 HA2 HA3 HB1 HB2 HB3 HC1 HC2 HC3) as E.
  unfold parseSlashDate. rewrite E.
  cbn [cap setCap nth noCaps repeat groupText numberOr0
       parseFractionMilliseconds].
  fold a b c. unfold len.
  split; [|split].
  - intros H4. rewrite H4. cbn [Z.of_nat Pos.of_succ_nat Pos.succ Z.eqb Pos.eqb].
    apply slash_one_attempt.
  - intros HA4 HC4. rewrite HC4.
    destruct (Z.eqb_spec (Z.of_nat (length A)) 4); [lia|].
    cbn [Z.of_nat Pos.of_succ_nat Pos.succ Z.eqb Pos.eqb].
    apply slash_one_attempt.
  - intros HA4 HC4 H3.
    destruct (Z.eqb_spec (Z.of_nat (length A)) 4); [lia|].
    destruct (Z.eqb_spec (Z.of_nat (length C)) 4); [lia|].
    destruct (Z.leb_spec (Z.of_nat (length A)) 2);
      destruct (Z.leb_spec (Z.of_nat (length B)) 2);
      destruct (Z.leb_spec (Z.of_nat (length C)) 2);
      cbn [andb]; try reflexivity; lia.
Qed.

End SlashYears.

(* ================================================================== *)
(** ** The compact absolute forms of [parseNumeric] *)
(* ================================================================== *)

Lemma fourDigits_digits (y : Z) :
  0 <= y <= 9999 -> forallb isDigit (fourDigits y) = true.
Proof.
  intros H. unfold fourDigits. cbn [forallb].
  rewrite !isDigit_digitUnit by divlia. reflexivity.
Qed.

Lemma twoDigits_digits (v : Z) :
  0 <= v <= 99 -> forallb isDigit (twoDigits v) = true.
Proof.
  intros H. unfold twoDigits. cbn [forallb].
  rewrite !isDigit_digitUnit by divlia. reflexivity.
Qed.

Lemma starts_with_two (y : Z) (rest : str) :
  2000 <= y <= 2999 -> startsWith (js "2") (fourDigits y ++ rest) = true.
Proof.
  intros H. unfold fourDigits, digitUnit.
  replace (y / 1000) with 2 by divlia. reflexivity.
Qed.

Section Compact.

Variable host : Host.

Lemma parseNumeric_year (y : Z) (z : ZoneSpec) :
  2000 <= y <= 2999 ->
  parseNumeric host (fourDigits y) z
  = buildDateFromComponents host (dateOnly y 1 1) z.
Proof.
  intros H. unfold parseNumeric.
  rewrite allDigits_complete
    by (try discriminate; apply fourDigits_digits; lia).
  cbn [negb]. change (len (fourDigits y)) with 4.
  cbn [Z.eqb Pos.eqb andb].
  rewrite <- (app_nil_r (fourDigits y)) at 1.
  rewrite starts_with_two by exact H.
  rewrite four_value by lia. reflexivity.
Qed.

Lemma compact8_exec (y m d : Z) :
  0 <= y <= 9999 -> 0 <= m <= 99 -> 0 <= d <= 99 ->
  exec compact8Pattern (fourDigits y ++ twoDigits m ++ twoDigits d)
  = Some (setCap 3 (twoDigits d)
            (setCap 2 (twoDigits m) (setCap 1 (fourDigits y) noCaps))).
Proof.
  intros Hy Hm Hd.
  apply (exec_from_mt _ _
           (MS (rev (twoDigits d) ++ rev (twoDigits m) ++ rev (fourDigits y)
                ++ []) []
               (setCap 3 (twoDigits d)
                  (setCap 2 (twoDigits m) (setCap 1 (fourDigits y) noCaps))))).
  unfold compact8Pattern.
  change (seq [Bol; Grp 1 (times 4 digit); Grp 2 (times 2 digit);
               Grp 3 (times 2 digit); Eol])
    with (Seq Bol (Seq (Grp 1 (times 4 digit)) (Seq (Grp 2 (times 2 digit))
            (Seq (Grp 3 (times 2 digit)) (Seq Eol Eps))))).
  unfold times, digit. rewrite mt_Seq, mt_Bol, mt_Seq.
  apply (mt_Grp_Rep_ok isDigit 1 4 4 (fourDigits y));
    [apply fourDigits_digits, Hy|cbn; lia|cbn; lia|right; reflexivity|].
  rewrite mt_Seq.
  apply (mt_Grp_Rep_ok isDigit 2 2 2 (twoDigits m));
    [apply twoDigits_digits, Hm|cbn; lia|cbn; lia|right; reflexivity|].
  rewrite mt_Seq. rewrite <- (app_nil_r (twoDigits d)) at 1.
  apply (mt_Grp_Rep_ok isDigit 3 2 2 (twoDigits d));
    [apply twoDigits_digits, Hd|cbn; lia|cbn; lia|right; reflexivity|].
  reflexivity.
Qed.

Lemma parseNumeric_date (y m d : Z) (z : ZoneSpec) :
  2000 <= y <= 2999 -> 0 <= m <= 99 -> 0 <= d <= 99 ->
  parseNumeric host (fourDigits y ++ twoDigits m ++ twoDigits d) z
  = buildDateFromComponents host (dateOnly y m d) z.
Proof.
  intros Hy Hm Hd. unfold parseNumeric.
  rewrite allDigits_complete
    by (try discriminate; rewrite !forallb_app, fourDigits_digits,
          !twoDigits_digits by lia; reflexivity).
  cbn [negb].
  change (len (fourDigits y ++ twoDigits m ++ twoDigits d)) with 8.
  cbn [Z.eqb Pos.eqb andb].
  rewrite starts_with_two by exact Hy.
  rewrite compact8_exec by lia.
  cbn [cap setCap nth noCaps repeat]. unfold numberOf. cbn [numberOr0].
  rewrite four_value, !two_value by lia. reflexivity.
Qed.

Lemma compact14_exec (y m d h mi s : Z) :
  0 <= y <= 9999 -> 0 <= m <= 99 -> 0 <= d <= 99 ->
  0 <= h <= 99 -> 0 <= mi <= 99 -> 0 <= s <= 99 ->
  exec compact14Pattern
       (fourDigits y ++ twoDigits m ++ twoDigits d ++ twoDigits h
        ++ twoDigits mi ++ twoDigits s)
  = Some (setCap 6 (twoDigits s) (setCap 5 (twoDigits mi)
            (setCap 4 (twoDigits h) (setCap 3 (twoDigits d)
               (setCap 2 (twoDigits m) (setCap 1 (fourDigits y) noCaps)))))).
Proof.
  intros Hy Hm Hd Hh Hmi Hs.
  apply (exec_from_mt _ _
           (MS (rev (twoDigits s) ++ rev (twoDigits mi) ++ rev (twoDigits h)
                ++ rev (twoDigits d) ++ rev (twoDigits m)
                ++ rev (fourDigits y) ++ []) []
               (setCap 6 (twoDigits s) (setCap 5 (twoDigits mi)
                  (setCap 4 (twoDigits h) (setCap 3 (twoDigits d)
                     (setCap 2 (twoDigits m)
                        (setCap 1 (fourDigits y) noCaps)))))))).
  unfold compact14Pattern.
  change (seq [Bol; Grp 1 (times 4 digit); Grp 2 (times 2 digit);
               Grp 3 (times 2 digit); Grp 4 (times 2 digit);
               Grp 5 (times 2 digit); Grp 6 (times 2 digit); Eol])
    with (Seq Bol (Seq (Grp 1 (times 4 digit)) (Seq (Grp 2 (times 2 digit))
            (Seq (Grp 3 (times 2 digit)) (Seq (Grp 4 (times 2 digit))
               (Seq (Grp 5 (times 2 digit)) (Seq (Grp 6 (times 2 digit))
                  (Seq Eol Eps)))))))).
  unfold times, digit. rewrite mt_Seq, mt_Bol, mt_Seq.
  apply (mt_Grp_Rep_ok isDigit 1 4 4 (fourDigits y));
    [apply fourDigits_digits, Hy|cbn; lia|cbn; lia|right; reflexivity|].
  rewrite mt_Seq.
  apply (mt_Grp_Rep_ok isDigit 2 2 2 (twoDigits m));
    [apply twoDigits_digits, Hm|cbn; lia|cbn; lia|right; reflexivity|].
  rewrite mt_Seq.
  apply (mt_Grp_Rep_ok isDigit 3 2 2 (twoDigits d));
    [apply twoDigits_digits, Hd|cbn; lia|cbn; lia|right; reflexivity|].
  rewrite mt_Seq.
  apply (mt_Grp_Rep_ok isDigit 4 2 2 (twoDigits h));
    [apply twoDigits_digits, Hh|cbn; lia|cbn; lia|right; reflexivity|].
  rewrite mt_Seq.
  apply (mt_Grp_Rep_ok isDigit 5 2 2 (twoDigits mi));
    [apply twoDigits_digits, Hmi|cbn; lia|cbn; lia|right; reflexivity|].
  rewrite mt_Seq. rewrite <- (app_nil_r (twoDigits s)) at 1.
  apply (mt_Grp_Rep_ok isDigit 6 2 2 (twoDigits s));
    [apply twoDigits_digits, Hs|cbn; lia|cbn; lia|right; reflexivity|].
  reflexivity.
Qed.

Lemma parseNumeric_dateTime (y m d h mi s : Z) (z : ZoneSpec) :
  2000 <= y <= 2999 -> 0 <= m <= 99 -> 0 <= d <= 99 ->
  0 <= h <= 99 -> 0 <= mi <= 99 -> 0 <= s <= 99 ->
  parseNumeric host
    (fourDigits y ++ twoDigits m ++ twoDigits d ++ twoDigits h
     ++ twoDigits mi ++ twoDigits s) z
  = buildDateFromComponents host
      (mkComponents y m d (Some h) (Some mi) (Some s) (Some 0)) z.
Proof.
  intros Hy Hm Hd Hh Hmi Hs. unfold parseNumeric.
  rewrite allDigits_complete
    by (try discriminate; rewrite !forallb_app, fourDigits_digits,
          !twoDigits_digits by lia; reflexivity).
  cbn [negb].
  change (len (fourDigits y ++ twoDigits m ++ twoDigits d ++ twoDigits h
               ++ twoDigits mi ++ twoDigits s)) with 14.
  cbn [Z.eqb Pos.eqb andb].
  rewrite starts_with_two by exact Hy.
  rewrite compact14_exec by lia.
  cbn [cap setCap nth noCaps repeat]. unfold numberOf. cbn [numberOr0].
  rewrite four_value, !two_value by lia. reflexivity.
Qed.

End Compact.

(* ================================================================== *)
(** ** The state of a text selects the parsers that can read it *)
(* ================================================================== *)

Lemma test_first (p : Z -> bool) (c : Z) (t : str) :
  test (seq [Bol; Chr p]) (c :: t) = p c.
Proof.
  destruct (p c) eqn:E.
  - unfold test. cbn [searchFrom]. unfold seq. cbn. rewrite E. reflexivity.
  - destruct (test _ _) eqn:T; [|reflexivity].
    apply test_anchored_sound in T. destruct T as (st & T).
    cbn in T. step_inv. cons_inv. congruence.
Qed.

Lemma searchFrom_Chr (p : Z -> bool) : forall s prev,
  match searchFrom (Chr p) prev s with Some _ => true | None => false end
  = existsb p s.
Proof.
  induction s as [|c t IH]; intros prev; [reflexivity|].
  cbn [searchFrom existsb mt ms_rest]. destruct (p c); [reflexivity|].
  apply IH.
Qed.

Lemma test_Chr (p : Z -> bool) (s : str) : test (Chr p) s = existsb p s.
Proof. apply searchFrom_Chr. Qed.

Lemma free_run (p q : Z -> bool) (ds : str) :
  (forall c, p c = true -> q c = false) ->
  forallb p ds = true -> existsb q ds = false.
Proof.
  intros Hp. induction ds as [|c ds IH]; [reflexivity|].
  cbn [forallb existsb]. intros H. apply andb_true_iff in H.
  destruct H as [Hc Hd]. rewrite (IH Hd), (Hp c Hc). reflexivity.
Qed.

Section DigitsFirst.

Variables (ds : str) (x : Z) (rest : str).
Hypothesis Htrim : trim (ds ++ x :: rest) = ds ++ x :: rest.
Hypothesis Hne : ds <> [].
Hypothesis Hds : forallb isDigit ds = true.
Hypothesis Hx : isDigit x = false.

Lemma digits_first :
  detectState (ds ++ x :: rest)
  = if includes 45 (x :: rest) then DigitDash
    else if includes 47 (x :: rest) then DigitSlash
    else if existsb (fun y => isAlpha y || ((19968 <=? y) && (y <=? 40959)))
                    (x :: rest)
    then DigitAlpha else Digit.
Proof.
  unfold detectState. rewrite Htrim.
  assert (T2 : test allDigitsPattern (ds ++ x :: rest) = false).
  { destruct (test allDigitsPattern _) eqn:T; [|reflexivity].
    apply allDigits_sound in T. destruct T as [_ T].
    apply forallb_mid in T. congruence. }
  assert (I : forall k, isDigit k = false ->
                        includes k (ds ++ x :: rest) = includes k (x :: rest)).
  { intros k Hk. unfold includes. rewrite existsb_app.
    rewrite (free_run isDigit (Z.eqb k) ds); [reflexivity| |exact Hds].
    intros c Hc. apply Z.eqb_neq. intros ->. congruence. }
  assert (A : test (Chr (fun y => isAlpha y
                                  || ((19968 <=? y) && (y <=? 40959))))
                   (ds ++ x :: rest)
              = existsb (fun y => isAlpha y
                                  || ((19968 <=? y) && (y <=? 40959)))
                        (x :: rest)).
  { rewrite test_Chr, existsb_app.
    rewrite (free_run isDigit _ ds); [reflexivity| |exact Hds].
    intros c Hc. unit_lia. }
  destruct ds as [|c ds'] eqn:Eds; [congruence|].
  cbn [app] in *. unfold digit. rewrite test_first.
  cbn [forallb] in Hds. apply andb_true_iff in Hds. destruct Hds as [Hc _].
  rewrite Hc, T2, (I 45 eq_refl), (I 47 eq_refl), A.
  reflexivity.
Qed.

End DigitsFirst.

Lemma alpha_first (c : Z) (t : str) :
  trim (c :: t) = c :: t -> isAlpha c = true -> detectState (c :: t) = Alpha.
Proof.
  intros Ht Hc. unfold detectState, digit, alpha. rewrite Ht, !test_first.
  rewrite Hc.
  replace (isDigit c) with false; [reflexivity|].
  symmetry. unit_lia.
Qed.

Lemma existsb_mid (p : Z -> bool) (c : Z) (l r : str) :
  p c = true -> existsb p (l ++ c :: r) = true.
Proof.
  intros H. rewrite existsb_app. cbn [existsb]. rewrite H.
  apply orb_true_r.
Qed.

(** A unit is absent from a text cut into runs and single units. *)
Ltac absent :=
  unfold includes;
  repeat (rewrite existsb_app || cbn [existsb]);
  repeat match goal with
  | H : forallb ?p ?d = true |- context [existsb (Z.eqb ?k) ?d] =>
      rewrite (free_run p (Z.eqb k) d
                 ltac:(let c := fresh in let Hc := fresh in
                       intros c Hc; apply Z.eqb_neq; clear - Hc; unit_lia) H)
  | |- context [?k =? ?x] =>
      is_var x;
      replace (k =? x) with false by (symmetry; apply Z.eqb_neq; unit_lia)
  end;
  reflexivity.

Ltac digits_then :=
  let Ht := fresh "Ht" in
  intros Ht; rewrite digits_first;
  [ | exact Ht
    | intros ->; cbn [length] in *; lia
    | assumption
    | unit_lia ].

Ltac dash_state :=
  match goal with
  | H : exec _ _ = Some _ |- _ =>
      apply exec_anchored_sound in H; destruct H as (? & H & <-);
      pat_unfold H; step_inv
  end;
  digits_then;
  match goal with
  | H : (45 =? ?x) = true |- context [includes 45 (?x :: _)] =>
      unfold includes at 1; cbn [existsb]; rewrite H; reflexivity
  end.

Lemma plainDate_state input m :
  exec plainDatePattern input = Some m -> trim input = input ->
  detectState input = DigitDash.
Proof. intros H. dash_state. Qed.

Lemma yearMonth_state input m :
  exec yearMonthPattern input = Some m -> trim input = input ->
  detectState input = DigitDash.
Proof. intros H. dash_state. Qed.

Lemma monthText_state input m :
  exec monthTextPattern input = Some m -> trim input = input ->
  detectState input = DigitDash.
Proof. intros H. dash_state. Qed.

Lemma dateTime_state input m :
  exec dateTimePattern input = Some m -> trim input = input ->
  detectState input = DigitDash.
Proof. intros H. dash_state. Qed.

Lemma slash_state input m :
  exec slashPattern input = Some m -> trim input = input ->
  detectState input = DigitSlash.
Proof.
  intros H. apply exec_anchored_sound in H. destruct H as (st & H & <-).
  pat_unfold H. step_inv.
  all: digits_then.
  all: match goal with
       | |- context [if includes 45 ?s then _ else _] =>
           replace (includes 45 s) with false by (symmetry; absent)
       end.
  all: match goal with
       | H : (47 =? ?x) = true |- context [includes 47 (?x :: _)] =>
           unfold includes at 1; cbn [existsb]; rewrite H; reflexivity
       end.
Qed.

Lemma chinese_state input m :
  exec chinesePattern input = Some m -> trim input = input ->
  detectState input = DigitAlpha.
Proof.
  intros H. apply exec_anchored_sound in H. destruct H as (st & H & <-).
  pat_unfold H. step_inv.
  all: digits_then.
  all: match goal with
       | |- context [if includes 45 ?s then _ else _] =>
           replace (includes 45 s) with false by (symmetry; absent)
       end.
  all: match goal with
       | |- context [if includes 47 ?s then _ else _] =>
           replace (includes 47 s) with false by (symmetry; absent)
       end.
  all: match goal with
       | H : (24180 =? ?x) = true |- _ => apply Z.eqb_eq in H; subst x
       end.
  all: reflexivity.
Qed.

Lemma dayMonthName_state input m :
  exec dayMonthNamePattern input = Some m -> trim input = input ->
  detectState input = DigitAlpha.
Proof.
  intros H. apply exec_anchored_sound in H. destruct H as (st & H & <-).
  pat_unfold H. step_inv.
  all: match goal with
       | Hl : (1 <= length ?sp)%nat, Hs : forallb isSpace ?sp = true
         |- context [_ ++ ?sp ++ _] =>
           destruct sp as [|s0 sp]; [cbn [length] in Hl; lia|];
           cbn [forallb] in Hs; apply andb_true_iff in Hs;
           destruct Hs as [Hs0 Hs]; cbn [app]
       end.
  all: digits_then.
  all: match goal with
       | |- context [if includes 45 ?s then _ else _] =>
           replace (includes 45 s) with false by (symmetry; absent)
       end.
  all: match goal with
       | |- context [if includes 47 ?s then _ else _] =>
           replace (includes 47 s) with false by (symmetry; absent)
       end.
  all: match goal with
       | Hl : (3 <= length ?w)%nat, Ha : forallb isAlpha ?w = true |- _ =>
           destruct w as [|l1 w]; [cbn [length] in Hl; lia|];
           cbn [forallb] in Ha; apply andb_true_iff in Ha;
           destruct Ha as [Hl1 Ha]
       end.
  all: match goal with
       | |- context [existsb ?p (?s0 :: ?sp ++ (?l1 :: ?w) ++ ?r)] =>
           change (s0 :: sp ++ (l1 :: w) ++ r)
             with ((s0 :: sp) ++ l1 :: (w ++ r));
           rewrite (existsb_mid p l1 (s0 :: sp) (w ++ r));
           [reflexivity|cbv beta; rewrite Hl1; reflexivity]
       end.
Qed.

Ltac alpha_state :=
  match goal with
  | H : exec _ _ = Some _ |- _ =>
      apply exec_anchored_sound in H; destruct H as (? & H & <-);
      pat_unfold H; step_inv
  end;
  match goal with
  | |- trim (?w ++ _) = _ -> _ =>
      match goal with
      | Hl : (3 <= length w)%nat, Ha : forallb isAlpha w = true |- _ =>
          destruct w as [|l1 w]; [cbn [length] in Hl; lia|];
          cbn [forallb] in Ha; apply andb_true_iff in Ha;
          destruct Ha as [Hl1 Ha]; cbn [app];
          intros Ht; apply alpha_first; assumption
      end
  end.

Lemma monthName_state input m :
  exec monthNamePattern input = Some m -> trim input = input ->
  detectState input = Alpha.
Proof. intros H. alpha_state. Qed.

Lemma ansi_state input m :
  exec ansiPattern input = Some m -> trim input = input ->
  detectState input = Alpha.
Proof. intros H. alpha_state. Qed.

Lemma numeric_state input :
  test allDigitsPattern input = true -> trim input = input ->
  detectState input = Digit.
Proof.
  intros H Ht. pose proof H as H0. apply allDigits_sound in H0.
  destruct H0 as [Hne Hd]. unfold detectState. rewrite Ht, H.
  destruct input as [|c t]; [congruence|].
  unfold digit. rewrite test_first.
  cbn [forallb] in Hd. apply andb_true_iff in Hd. destruct Hd as [-> _].
  reflexivity.
Qed.

Section Dispatch.

Variable host : Host.
Variables (input : str) (z : ZoneSpec) (d : Date).
Hypothesis Htrim : trim input = input.

Lemma parseNumeric_state :
  parseNumeric host input z = Ok (Some d) -> detectState input = Digit.
Proof.
  unfold parseNumeric. destruct (test allDigitsPattern input) eqn:T;
    [|discriminate].
  intros _. exact (numeric_state input T Htrim).
Qed.

Lemma parseDashDate_state :
  parseDashDate host input z = Ok (Some d) -> detectState input = DigitDash.
Proof.
  unfold parseDashDate.
  destruct (exec plainDatePattern input) eqn:E1;
    [intros _; exact (plainDate_state _ _ E1 Htrim)|].
  destruct (exec yearMonthPattern input) eqn:E2;
    [intros _; exact (yearMonth_state _ _ E2 Htrim)|].
  destruct (exec monthTextPattern input) eqn:E3;
    [intros _; exact (monthText_state _ _ E3 Htrim)|].
  destruct (exec dateTimePattern input) eqn:E4; [|discriminate].
  intros _. exact (dateTime_state _ _ E4 Htrim).
Qed.

Lemma parseSlashDate_state :
  parseSlashDate host input z = Ok (Some d) -> detectState input = DigitSlash.
Proof.
  unfold parseSlashDate.
  destruct (exec slashPattern input) eqn:E; [|discriminate].
  intros _. exact (slash_state _ _ E Htrim).
Qed.

Lemma parseChineseDate_state :
  parseChineseDate host input z = Ok (Some d) ->
  detectState input = DigitAlpha.
Proof.
  unfold parseChineseDate. rewrite Htrim.
  destruct (exec chinesePattern input) eqn:E; [|discriminate].
  intros _. exact (chinese_state _ _ E Htrim).
Qed.

Lemma parseDayMonthName_state :
  parseDayMonthName host input z = Ok (Some d) ->
  detectState input = DigitAlpha.
Proof.
  unfold parseDayMonthName. rewrite Htrim.
  destruct (exec dayMonthNamePattern input) eqn:E; [|discriminate].
  intros _. exact (dayMonthName_state _ _ E Htrim).
Qed.

Lemma parseMonthNameDate_state :
  parseMonthNameDate host input z = Ok (Some d) -> detectState input = Alpha.
Proof.
  unfold parseMonthNameDate. rewrite Htrim.
  destruct (exec monthNamePattern input) eqn:E; [|discriminate].
  intros _. exact (monthName_state _ _ E Htrim).
Qed.

Lemma parseAnsiStyle_state :
  parseAnsiStyle host input z = Ok (Some d) -> detectState input = Alpha.
Proof.
  unfold parseAnsiStyle. rewrite Htrim.
  destruct (exec ansiPattern input) eqn:E; [|discriminate].
  intros _. exact (ansi_state _ _ E Htrim).
Qed.

(** A parser of any pipeline that reads the text is in the pipeline of the
    text's own state. *)
Lemma pipeline_keeps (st : ParseState) (label : str) (parser : ParserFn) :
  In (label, parser) (parserPipeline host st) ->
  parser input z = Ok (Some d) ->
  In (label, parser) (parserPipeline host (detectState input)).
Proof.
  intros Hin Hp.
  assert (C : forall s, In (js "now", pure2 (parseNow host))
                           (parserPipeline host s)
                        /\ In (js "ago", pure2 (parseAgo host))
                              (parserPipeline host s)
                        /\ In (js "native", nativeFn host)
                              (parserPipeline host s)).
  { intros s. destruct s; cbn [parserPipeline app In]; tauto. }
  destruct st; cbn [parserPipeline app In] in Hin;
    repeat (destruct Hin as [Hin|Hin];
            [injection Hin as <- <-;
             first [ apply C
                   | rewrite (parseNumeric_state Hp)
                   | rewrite (parseDashDate_state Hp)
                   | rewrite (parseSlashDate_state Hp)
                   | rewrite (parseChineseDate_state Hp)
                   | rewrite (parseDayMonthName_state Hp)
                   | rewrite (parseMonthNameDate_state Hp)
                   | rewrite (parseAnsiStyle_state Hp) ];
             cbn [parserPipeline app In]; tauto|]);
    contradiction.
Qed.

End Dispatch.

Lemma firstMatch_finds input z label (parser : ParserFn) d : forall parsers,
  (forall l p, In (l, p) parsers -> exists r, p input z = Ok r) ->
  In (label, parser) parsers ->
  parser input z = Ok (Some d) -> isNaNDate d = false ->
  exists pat d', firstMatch parsers input z = Ok (Some (pat, d')).
Proof.
  induction parsers as [|[l p] rest IH]; intros Hall Hin Hp Hv;
    [destruct Hin|].
  cbn [firstMatch].
  destruct (Hall l p (or_introl eq_refl)) as (r & E). rewrite E.
  cbn [bind].
  assert (Next : (l, p) <> (label, parser) \/ r <> Some d \/ isNaNDate d = true ->
                 exists pat d', firstMatch rest input z = Ok (Some (pat, d'))).
  { intros Hdiff. apply IH; [intros l0 p0 H0; apply (Hall l0 p0); right; exact H0
                            | |exact Hp|exact Hv].
    destruct Hin as [Heq|Hin]; [|exact Hin].
    exfalso. injection Heq as -> ->. rewrite Hp in E. injection E as <-.
    destruct Hdiff as [H|[H|H]];
      [apply H; reflexivity|apply H; reflexivity
      |rewrite H in Hv; discriminate]. }
  destruct r as [d0|].
  - destruct (isNaNDate d0) eqn:N; [|eauto].
    apply Next. right.
    destruct (isNaNDate d) eqn:N'; [right; reflexivity|left; congruence].
  - apply Next. right. left. discriminate.
Qed.

Lemma parseDateInput_keeps host raw dz st label (parser : ParserFn) d :
  hostOk host -> zoneOk host dz ->
  fst (splitInputAndZone host raw dz) <> [] ->
  In (label, parser) (parserPipeline host st) ->
  parser (fst (splitInputAndZone host raw dz))
         (snd (splitInputAndZone host raw dz)) = Ok (Some d) ->
  isNaNDate d = false ->
  exists pat d',
    parseDateInput host raw dz
    = Ok (ParseSuccess (fst (splitInputAndZone host raw dz))
            (snd (splitInputAndZone host raw dz))
            (zoneDisplayName (snd (splitInputAndZone host raw dz))) d' pat).
Proof.
  intros Hh Hz Hne Hin Hp Hv. rewrite parseDateInput_eq. cbv zeta.
  pose proof (splitInputAndZone_ok host raw dz Hh Hz) as Hok.
  pose proof (trim_split host raw dz) as Ht.
  destruct (splitInputAndZone host raw dz) as [input z]. cbn [fst snd] in *.
  destruct input as [|c t]; [congruence|].
  destruct (firstMatch_finds (c :: t) z label parser d
              (parserPipeline host (detectState (c :: t)))
              (pipeline_total host Hh z Hok (detectState (c :: t)) (c :: t))
              (pipeline_keeps host (c :: t) z d Ht st label parser Hin Hp)
              Hp Hv) as (pat & d' & E).
  rewrite E. cbn [bind]. eauto.
Qed.

(* ================================================================== *)
(** ** Relative phrases, the native parser and blanks, end to end *)
(* ================================================================== *)






(** The parser behind the label "native". *)
Lemma native_label host (st : ParseState) (parser : ParserFn) :
  In (js "native", parser) (parserPipeline host st) -> parser = nativeFn host.
Proof.
  intros Hin.
  destruct st; cbn [parserPipeline app In] in Hin;
    repeat (destruct Hin as [Hin|Hin];
            [first [ discriminate Hin
                   | injection Hin as <-; reflexivity ]|]);
    contradiction.
Qed.

Lemma parseDateInput_native host raw dz input z lbl d :
  parseDateInput host raw dz = Ok (ParseSuccess input z lbl d (js "native")) ->
  (hasExplicitTimeZone input = true
   \/ exists l, z = Iana (localTimeZone host) l)
  /\ exists timestamp,
       dateParse host (normalizeNativeInput input) = Some timestamp
       /\ d = mkDate (Some timestamp).
Proof.
  intros H. apply parseDateInput_success in H.
  destruct H as (_ & _ & _ & _ & Hv & parser & Hin & Hp).
  apply native_label in Hin. subst parser.
  unfold nativeFn, parseWithNativeDate in Hp.
  destruct (hasExplicitTimeZone input) eqn:X.
  - split; [left; reflexivity|].
    cbn [negb andb] in Hp.
    destruct (dateParse host (normalizeNativeInput input)) as [t|];
      [|discriminate].
    injection Hp as <-. exists t. split; [reflexivity|].
    unfold newDate, TimeClip in *.
    destruct (Z.abs t <=? maxTime); [reflexivity|discriminate].
  - destruct z as [name l|off l].
    + destruct (str_eqb name (localTimeZone host)) eqn:L;
        cbn [negb andb] in Hp; [|discriminate].
      apply str_eqb_eq in L. subst name.
      split; [right; exists l; reflexivity|].
      destruct (dateParse host (normalizeNativeInput input)) as [t|];
        [|discriminate].
      injection Hp as <-. exists t. split; [reflexivity|].
      unfold newDate, TimeClip in *.
      destruct (Z.abs t <=? maxTime); [reflexivity|discriminate].
    + cbn [negb andb] in Hp. discriminate.
Qed.

(** White space around the raw input is not seen. *)
Lemma trim_padded (sp1 raw sp2 : str) :
  forallb isSpace sp1 = true -> forallb isSpace sp2 = true ->
  trim (sp1 ++ raw ++ sp2) = trim raw.
Proof.
  intros H1 H2. unfold trim.
  rewrite trimStart_app, H1.
  assert (E : forall y, trimEnd (y ++ sp2) = trimEnd y).
  { intros y. unfold trimEnd. rewrite rev_app_distr, trimStart_app.
    rewrite forallb_rev, H2. reflexivity. }
  rewrite trimStart_app.
  destruct (forallb isSpace raw) eqn:R.
  - rewrite (trimStart_spaces sp2 H2), (trimStart_spaces raw R). reflexivity.
  - apply E.
Qed.

Lemma parseDateInput_padded host (sp1 raw sp2 : str) dz :
  forallb isSpace sp1 = true -> forallb isSpace sp2 = true ->
  parseDateInput host (sp1 ++ raw ++ sp2) dz = parseDateInput host raw dz.
Proof.
  intros H1 H2. unfold parseDateInput, splitInputAndZone.
  rewrite (trim_padded sp1 raw sp2 H1 H2). reflexivity.
Qed.

(* ================================================================== *)
(** ** Properties of the calendar check and of the instants built *)
(* ================================================================== *)

(** X1.  Over the years the Date range holds in full, [isValidCalendarDate]
    accepts exactly the dates of the proleptic Gregorian calendar whose year
    is not one of 0 .. 99: the month is 1 .. 12 and the day is 1 .. the
    length of that month, 29 February existing in leap years only. *)
Theorem isValidCalendarDate_gregorian :
  forall y m d,
    -270000 <= y <= 270000 ->
    isValidCalendarDate y m d = true
    <-> (y < 0 \/ 99 < y) /\ 1 <= m <= 12 /\ 1 <= d <= daysInMonth y m.
Proof. exact isValidCalendarDate_calendar. Qed.

Lemma isValidCalendarDate_gregorian_witness :
  -270000 <= 2024 <= 270000
  /\ ((2024 < 0 \/ 99 < 2024) /\ 1 <= 2 <= 12 /\ 1 <= 29 <= daysInMonth 2024 2)
  /\ isValidCalendarDate 2024 2 29 = true.
Proof.
  split; [lia|]. split; [vm_compute; intuition discriminate|].
  apply (proj2 (isValidCalendarDate_gregorian 2024 2 29 ltac:(lia))).
  vm_compute. intuition discriminate.
Defined.

(** X2.  No date of the years 0 to 99 passes: [Date.UTC] reads such a year
    as 1900 + year, the year read back differs, [isValidCalendarDate] is
    false, and [buildDateFromComponents] and [parseComponentsWithMeridiem]
    decline whatever the other fields and the zone; "0099-12-31" is
    declined while "0100-01-01" is parsed. *)
Theorem years_0_to_99_declined :
  (forall y m d, 0 <= y <= 99 -> isValidCalendarDate y m d = false)
  /\ (forall host base z,
        0 <= year base <= 99 -> buildDateFromComponents host base z = Ok None)
  /\ (forall host y mo d h mi s ms z mer,
        0 <= y <= 99 ->
        parseComponentsWithMeridiem host y mo d h mi s ms z mer = Ok None)
  /\ (forall host,
        parseDashDate host (js "0099-12-31") utcZone = Ok None
        /\ parseDashDate host (js "0100-01-01") utcZone
           = Ok (Some (mkDate (Some (-59011459200000))))).
Proof.
  split; [exact isValidCalendarDate_years_0_99|]. split; [|split].
  - intros host base z H. unfold buildDateFromComponents.
    rewrite isValidCalendarDate_years_0_99 by exact H. reflexivity.
  - intros host y mo d h mi s ms z mer H. unfold parseComponentsWithMeridiem.
    destruct (applyMeridiem h mer); [|reflexivity].
    unfold buildDateFromComponents. cbn [year month day].
    rewrite isValidCalendarDate_years_0_99 by exact H. reflexivity.
  - intros host. split; reflexivity.
Qed.

Lemma years_0_to_99_declined_witness :
  0 <= year (dateOnly 50 6 15) <= 99
  /\ buildDateFromComponents utcHost (dateOnly 50 6 15) utcZone = Ok None.
Proof.
  split; [cbn; lia|].
  apply (proj1 (proj2 years_0_to_99_declined) utcHost (dateOnly 50 6 15)
           utcZone).
  cbn. lia.
Defined.

(** X3.  For a date of the calendar outside the years 0 .. 99, a time of day
    in range and a fixed zone, [buildDateFromComponents] returns the instant
    day number x 86400000 + h x 3600000 + mi x 60000 + s x 1000 + ms, less
    the zone's offset in milliseconds. *)
Theorem buildDateFromComponents_fixed_instant :
  forall host y m d h mi s ms off lbl,
    y < 0 \/ 99 < y -> -270000 <= y <= 270000 ->
    1 <= m <= 12 -> 1 <= d <= daysInMonth y m ->
    0 <= h <= 23 -> 0 <= mi <= 59 -> 0 <= s <= 59 -> 0 <= ms <= 999 ->
    Z.abs off <= 1440 ->
    buildDateFromComponents host
      (mkComponents y m d (Some h) (Some mi) (Some s) (Some ms))
      (Fixed off lbl)
    = Ok (Some (mkDate (Some (daysFromCivil y m d * 86400000 + h * 3600000
                              + mi * 60000 + s * 1000 + ms - off * 60000)))).
Proof. exact buildDate_fixed. Qed.

Lemma buildDateFromComponents_fixed_instant_witness :
  (2019 < 0 \/ 99 < 2019) /\ -270000 <= 2019 <= 270000
  /\ 1 <= 1 <= 12 /\ 1 <= 30 <= daysInMonth 2019 1
  /\ 0 <= 21 <= 23 /\ 0 <= 24 <= 59 /\ 0 <= 44 <= 59 /\ 0 <= 0 <= 999
  /\ Z.abs (-420) <= 1440
  /\ buildDateFromComponents utcHost
       (mkComponents 2019 1 30 (Some 21) (Some 24) (Some 44) (Some 0))
       (Fixed (-420) (js "UTC-07:00"))
     = Ok (Some (mkDate (Some 1548908684000))).
Proof.
  repeat (split; [first [lia | right; lia | vm_compute; intuition discriminate]|]).
  apply (buildDateFromComponents_fixed_instant utcHost 2019 1 30 21 24 44 0
           (-420) (js "UTC-07:00"));
    first [lia | right; lia | vm_compute; intuition discriminate].
Defined.

(** X4.  Text to instant to text: a date and time written [YYYY-MM-DDTHH:MM:SS]
    (a date of the calendar, years 1000 .. 9999), parsed with a fixed source
    zone, is a Success of the "dash" parser, and formatting its instant for
    that zone gives the same text, followed by the offset and the label. *)
Theorem parse_then_format_fixed :
  forall host y m d h mi s off lbl,
    1000 <= y <= 9999 -> 1 <= m <= 12 -> 1 <= d <= daysInMonth y m ->
    0 <= h <= 23 -> 0 <= mi <= 59 -> 0 <= s <= 59 -> Z.abs off <= 1440 ->
    exists date,
      parseDateInput host (isoText y m d h mi s) (Fixed off lbl)
      = Ok (ParseSuccess (isoText y m d h mi s) (Fixed off lbl) lbl date
                         (js "dash"))
      /\ formatInstantForZone host date (Fixed off lbl)
         = Ok (isoText y m d h mi s ++ js " " ++ offsetText off ++ js " "
               ++ lbl).
Proof.
  intros host y m d h mi s off lbl Hy Hm Hd Hh Hmi Hs Ho.
  pose proof (daysInMonth_range y m) as R.
  exists (mkDate (Some (daysFromCivil y m d * 86400000 + h * 3600000
                        + mi * 60000 + s * 1000 + 0 - off * 60000))).
  split.
  - apply parse_isoText; try lia.
    + apply isValidCalendarDate_calendar; [lia|]. split; [right; lia|]. lia.
    + unfold toInstantFromComponents.
      cbn [year month day hour minute second millisecond orZero].
      rewrite DateUTC_civil by lia. cbn [num_sub].
      pose proof (daysFromCivil_slack y m d ltac:(lia) Hm ltac:(lia)) as Hb.
      rewrite newDate_valid by (unfold maxTime, millisecondsInMinute; lia).
      reflexivity.
    + reflexivity.
  - apply format_built_fixed; lia.
Qed.

Lemma parse_then_format_fixed_witness :
  1000 <= 2019 <= 9999 /\ 1 <= 1 <= 12 /\ 1 <= 30 <= daysInMonth 2019 1
  /\ 0 <= 21 <= 23 /\ 0 <= 24 <= 59 /\ 0 <= 44 <= 59 /\ Z.abs (-420) <= 1440
  /\ exists date,
       parseDateInput utcHost (isoText 2019 1 30 21 24 44)
         (Fixed (-420) (js "UTC-07:00"))
       = Ok (ParseSuccess (isoText 2019 1 30 21 24 44)
               (Fixed (-420) (js "UTC-07:00")) (js "UTC-07:00") date
               (js "dash"))
       /\ formatInstantForZone utcHost date (Fixed (-420) (js "UTC-07:00"))
          = Ok (isoText 2019 1 30 21 24 44 ++ js " " ++ offsetText (-420)
                ++ js " " ++ js "UTC-07:00").
Proof.
  repeat (split; [first [lia | vm_compute; intuition discriminate]|]).
  apply (parse_then_format_fixed utcHost 2019 1 30 21 24 44 (-420)
           (js "UTC-07:00"));
    first [lia | vm_compute; intuition discriminate].
Defined.

(* ================================================================== *)
(** ** Properties of named zones at a constant offset *)
(* ================================================================== *)

Lemma shanghai_offset : reportsOffset shanghaiHost (js "Asia/Shanghai") 480.
Proof. split; [reflexivity|]. intros t. reflexivity. Qed.



(** X6.  For a named zone the host keeps [o] minutes ahead of UTC, the two
    passes of [toInstantFromComponents] return the UTC guess [g] less the
    offset, plus [(2 x (g mod 1000)) mod 1000] milliseconds: the instant is
    the one a fixed zone of [o] minutes gives when the components carry no
    milliseconds (and for 500 ms), and is late by up to 998 ms
    otherwise. *)
Theorem named_zone_instant :
  forall host name o c lbl g,
    reportsOffset host name o ->
    utcGuessOf c = Some g ->
    -58000000000000 <= g <= 8000000000000000 -> Z.abs o <= 1440 ->
    toInstantFromComponents host c (Iana name lbl)
    = Ok (mkDate (Some (g - o * 60000 + (2 * (g mod 1000)) mod 1000)))
    /\ (g mod 1000 = 0 ->
        forall lbl',
          toInstantFromComponents host c (Iana name lbl)
          = toInstantFromComponents host c (Fixed o lbl'))
    /\ (0 < g mod 1000 < 500 ->
        toInstantFromComponents host c (Iana name lbl)
        = Ok (mkDate (Some (g - o * 60000 + 2 * (g mod 1000))))).
Proof.
  intros host name o c lbl g Hz Hg Hb Ho.
  pose proof (toInstant_named host name o Hz c lbl g Hg Hb Ho) as E.
  split; [exact E|]. split.
  - intros H0 lbl'. rewrite E. unfold toInstantFromComponents.
    fold (utcGuessOf c). rewrite Hg. cbn [num_sub].
    rewrite newDate_valid by (unfold maxTime, millisecondsInMinute; lia).
    rewrite H0. unfold millisecondsInMinute. do 3 f_equal.
    change ((2 * 0) mod 1000) with 0. lia.
  - intros H. rewrite E. do 3 f_equal.
    rewrite Z.mod_small by lia. reflexivity.
Qed.

Lemma named_zone_instant_witness :
  reportsOffset shanghaiHost (js "Asia/Shanghai") 480
  /\ utcGuessOf (mkComponents 2019 1 30 (Some 21) (Some 24) (Some 44)
                              (Some 300)) = Some 1548883484300
  /\ -58000000000000 <= 1548883484300 <= 8000000000000000
  /\ Z.abs 480 <= 1440
  /\ toInstantFromComponents shanghaiHost
       (mkComponents 2019 1 30 (Some 21) (Some 24) (Some 44) (Some 300))
       (Iana (js "Asia/Shanghai") None)
     = Ok (mkDate (Some (1548883484300 - 480 * 60000
                         + (2 * (1548883484300 mod 1000)) mod 1000))).
Proof.
  split; [exact shanghai_offset|]. split; [reflexivity|]. split; [lia|].
  split; [lia|].
  exact (proj1 (named_zone_instant shanghaiHost (js "Asia/Shanghai") 480
                  (mkComponents 2019 1 30 (Some 21) (Some 24) (Some 44)
                                (Some 300))
                  None 1548883484300 shanghai_offset eq_refl ltac:(lia)
                  ltac:(lia))).
Defined.

(** X7.  For a named zone the host keeps [o] minutes ahead of UTC (local
    years 1000 .. 9999), [formatInstantForZone] prints the local date and
    time, then an offset, then the host's short name of the zone.  The offset
    printed is [o] when [o] is not positive or the instant is on a whole
    second, and [o - 1] minutes otherwise: an instant with milliseconds in a
    zone east of Greenwich shows an offset one minute short. *)
Theorem named_zone_format :
  forall host name o t lbl,
    reportsOffset host name o ->
    -30610224000000 <= t + o * 60000 <= 253402300799999 -> Z.abs o <= 1440 ->
    let l := t + o * 60000 in
    formatInstantForZone host (mkDate (Some t)) (Iana name lbl)
    = Ok (isoText (fst (fst (civilFromDays (dayOf l))))
                  (snd (fst (civilFromDays (dayOf l))))
                  (snd (civilFromDays (dayOf l)))
                  (l / 3600000 mod 24) (l / 60000 mod 60) (l / 1000 mod 60)
          ++ js " "
          ++ offsetText (if (0 <? o) && negb (t mod 1000 =? 0)
                         then o - 1 else o)
          ++ js " " ++ zoneToken host name t).
Proof.
  intros host name o t lbl Hz Hb Ho.
  exact (format_named_offset host name o Hz t lbl Hb Ho).
Qed.

Lemma named_zone_format_witness :
  reportsOffset shanghaiHost (js "Asia/Shanghai") 480
  /\ -30610224000000 <= 1548854618123 + 480 * 60000 <= 253402300799999
  /\ Z.abs 480 <= 1440
  /\ formatInstantForZone shanghaiHost (mkDate (Some 1548854618123))
       (Iana (js "Asia/Shanghai") None)
     = Ok (js "2019-01-30T21:23:38 +07:59 GMT+8").
Proof.
  split; [exact shanghai_offset|]. split; [lia|]. split; [lia|].
  exact (named_zone_format shanghaiHost (js "Asia/Shanghai") 480
           1548854618123 None shanghai_offset ltac:(lia) ltac:(lia)).
Defined.

(* ================================================================== *)
(** ** Properties of the small helpers of the parsers *)
(* ================================================================== *)

(** X8.  [parseFractionMilliseconds] cuts a fraction of one to nine digits
    to its first three digits, padding a shorter one with zeros: the
    milliseconds are the fraction rounded down, in 0 .. 999; an absent
    fraction is 0. *)
Theorem parseFractionMilliseconds_truncates :
  parseFractionMilliseconds None = 0
  /\ forall f,
       forallb isDigit f = true -> (1 <= length f <= 9)%nat ->
       parseFractionMilliseconds (Some f)
       = numberOfDigits f * 1000 / 10 ^ len f
       /\ 0 <= parseFractionMilliseconds (Some f) <= 999.
Proof. split; [reflexivity|exact parseFractionMilliseconds_floor]. Qed.

Lemma parseFractionMilliseconds_truncates_witness :
  forallb isDigit (js "9996") = true /\ (1 <= length (js "9996") <= 9)%nat
  /\ parseFractionMilliseconds (Some (js "9996"))
     = numberOfDigits (js "9996") * 1000 / 10 ^ len (js "9996")
  /\ numberOfDigits (js "9996") * 1000 / 10 ^ len (js "9996") = 999.
Proof.
  split; [reflexivity|]. split; [cbn; lia|]. split; [|reflexivity].
  apply (proj2 parseFractionMilliseconds_truncates (js "9996"));
    [reflexivity|cbn; lia].
Defined.

(** X9.  On tokens of at most nine ASCII letters (what the patterns
    capture), [parseMonthToken] does not depend on letter case, and whenever
    it knows a token, the month is in 1 .. 12, the token has at least three
    letters, and its first three letters alone name the same month. *)
Theorem parseMonthToken_table_consistent :
  forall t,
    forallb isAlpha t = true -> (length t <= 9)%nat ->
    parseMonthToken (toUpperCase t) = parseMonthToken t
    /\ parseMonthToken (toLowerCase t) = parseMonthToken t
    /\ forall m,
         parseMonthToken t = Some m ->
         1 <= m <= 12 /\ (3 <= length t)%nat
         /\ parseMonthToken (firstn 3 t) = Some m.
Proof.
  intros t _ _. destruct (parseMonthToken_case t) as [E1 E2].
  split; [exact E1|]. split; [exact E2|]. intros m H.
  destruct (parseMonthToken_table t m H) as (H1 & H2 & H3).
  split; [exact H1|]. split; [lia|exact H3].
Qed.

Lemma parseMonthToken_table_consistent_witness :
  forallb isAlpha (js "SepTember") = true
  /\ (length (js "SepTember") <= 9)%nat
  /\ parseMonthToken (js "SepTember") = Some 9
  /\ parseMonthToken (firstn 3 (js "SepTember")) = Some 9.
Proof.
  split; [reflexivity|]. split; [cbn; lia|]. split; [reflexivity|].
  exact (proj2 (proj2 (proj2 (proj2 (parseMonthToken_table_consistent
                                       (js "SepTember") eq_refl
                                       ltac:(cbn; lia)))
                               9 eq_refl))).
Defined.

(** X10.  Any input whose text (after the zone suffix is split off) starts
    with the letters n, o, w in any case is the clock, cut to whole seconds:
    the pattern has no end anchor, what follows the three letters is not read,
    and the zone does not enter the instant.  The "now" parser is first in
    every pipeline, so this holds for every text. *)
Theorem parseDateInput_now_prefix :
  forall host raw dz c1 c2 c3 rest,
    fst (splitInputAndZone host raw dz) = c1 :: c2 :: c3 :: rest ->
    lowerUnit c1 = 110 -> lowerUnit c2 = 111 -> lowerUnit c3 = 119 ->
    Z.abs (dateNow host) <= 8640000000000000 ->
    let z := snd (splitInputAndZone host raw dz) in
    parseDateInput host raw dz
    = Ok (ParseSuccess (c1 :: c2 :: c3 :: rest) z (zoneDisplayName z)
            (mkDate (Some (Z.quot (dateNow host) 1000 * 1000))) (js "now")).
Proof. exact parseDateInput_now. Qed.

Lemma parseDateInput_now_prefix_witness :
  fst (splitInputAndZone utcHost (js "Nowhere, gmt-7") utcZone)
  = 78 :: 111 :: 119 :: js "here"
  /\ lowerUnit 78 = 110 /\ lowerUnit 111 = 111 /\ lowerUnit 119 = 119
  /\ Z.abs (dateNow utcHost) <= 8640000000000000
  /\ parseDateInput utcHost (js "Nowhere, gmt-7") utcZone
     = Ok (ParseSuccess (js "Nowhere") (Fixed (-420) (js "UTC-07:00"))
             (js "UTC-07:00") (mkDate (Some 1700000000000)) (js "now")).
Proof.
  split; [reflexivity|]. split; [reflexivity|]. split; [reflexivity|].
  split; [reflexivity|]. split; [cbn; lia|].
  exact (parseDateInput_now_prefix utcHost (js "Nowhere, gmt-7") utcZone
           78 111 119 (js "here") eq_refl eq_refl eq_refl eq_refl
           ltac:(cbn; lia)).
Defined.

(* ================================================================== *)
(** ** Properties of the relative phrases *)
(* ================================================================== *)



(** X12.  Whatever the input, an instant returned by [parseAgo] is not
    after the clock: the amount is a string of digits, never negative. *)
Theorem parseAgo_never_in_the_future :
  forall host input d t,
    parseAgo host input = Some d -> getTime d = Some t -> t <= dateNow host.
Proof. exact parseAgo_past. Qed.

Lemma parseAgo_never_in_the_future_witness :
  parseAgo utcHost (js "90 minutes ago") = Some (mkDate (Some 1699994600123))
  /\ getTime (mkDate (Some 1699994600123)) = Some 1699994600123
  /\ 1699994600123 <= dateNow utcHost.
Proof.
  split; [reflexivity|]. split; [reflexivity|].
  exact (parseAgo_never_in_the_future utcHost (js "90 minutes ago")
           (mkDate (Some 1699994600123)) 1699994600123 eq_refl eq_refl).
Defined.

(* ================================================================== *)
(** ** Properties of the zone resolver *)
(* ================================================================== *)

(** X13.  An offset after "UTC" or "GMT" (any case, white space allowed
    around the sign), or a bare signed offset, resolves to the Fixed zone of
    hours x 60 + minutes with the sign AS WRITTEN (unlike "Etc/GMT"): the
    hours are one or two digits up to 23, the minutes are absent or two
    digits up to 59, after a colon or directly after a two-digit hour. *)
Theorem parseZone_offset_as_written :
  forall host sg sp2 hs colon mm,
    sg = 43 \/ sg = 45 -> forallb isSpace sp2 = true ->
    hs <> [] -> (length hs <= 2)%nat -> forallb isDigit hs = true ->
    minutesOk hs colon mm ->
    numberOfDigits hs <= 23 -> numberOfDigits mm <= 59 ->
    (forall pre sp1,
        toLowerCase pre = js "utc" \/ toLowerCase pre = js "gmt" ->
        forallb isSpace sp1 = true ->
        parseZone host (offsetSpecifier pre sp1 sg sp2 hs colon mm)
        = Some (fixedZone (offsetOf sg hs mm)))
    /\ parseZone host (offsetSpecifier [] [] sg sp2 hs colon mm)
       = Some (fixedZone (offsetOf sg hs mm)).
Proof.
  intros host sg sp2 hs colon mm Hsg Hs2 Hne Hl Hd Hm Hh Hmi. split.
  - intros pre sp1 Hpre Hs1. apply parseZone_prefixed; assumption.
  - apply parseZone_bare; assumption.
Qed.

Lemma parseZone_offset_as_written_witness :
  (45 = 43 \/ 45 = 45) /\ forallb isSpace (js " ") = true
  /\ js "7" <> [] /\ (length (js "7") <= 2)%nat
  /\ forallb isDigit (js "7") = true
  /\ minutesOk (js "7") true (js "30")
  /\ numberOfDigits (js "7") <= 23 /\ numberOfDigits (js "30") <= 59
  /\ parseZone utcHost (offsetSpecifier (js "Gmt") (js " ") 45 (js " ")
                          (js "7") true (js "30"))
     = Some (fixedZone (offsetOf 45 (js "7") (js "30")))
  /\ offsetSpecifier (js "Gmt") (js " ") 45 (js " ") (js "7") true (js "30")
     = js "Gmt - 7:30"
  /\ fixedZone (offsetOf 45 (js "7") (js "30"))
     = Fixed (-450) (js "UTC-07:30").
Proof.
  split; [right; reflexivity|]. split; [reflexivity|]. split; [discriminate|].
  split; [cbn; lia|]. split; [reflexivity|].
  split; [right; split; [reflexivity|split; [reflexivity|left; reflexivity]]|].
  split; [vm_compute; discriminate|]. split; [vm_compute; discriminate|].
  split; [|split; reflexivity].
  apply (proj1 (parseZone_offset_as_written utcHost 45 (js " ") (js "7") true
                  (js "30") (or_intror eq_refl) eq_refl ltac:(discriminate)
                  ltac:(cbn; lia) eq_refl
                  (or_intror (conj eq_refl (conj eq_refl (or_introl eq_refl))))
                  ltac:(vm_compute; discriminate)
                  ltac:(vm_compute; discriminate)));
    [right; reflexivity|reflexivity].
Defined.

(** X14.  Whatever the specifier, a zone out of [parseZone] is one of four:
    the host's own zone labelled "Local"; UTC labelled "UTC"; a fixed offset
    of less than a day, within -1439 .. 1439 minutes, labelled "UTC" and its
    signed [HH:MM]; or a named zone whose name is the trimmed specifier and
    is known to the host. *)
Theorem parseZone_result_shapes :
  forall host raw z,
    parseZone host raw = Some z ->
    z = Iana (localTimeZone host) (Some (js "Local"))
    \/ z = Fixed 0 (js "UTC")
    \/ (exists o, -1439 <= o <= 1439
                  /\ z = Fixed o (js "UTC" ++ offsetText o))
    \/ (z = Iana (trim raw) None /\ tzValid host (trim raw) = true).
Proof.
  intros host raw z H.
  destruct (parseZone_shapes host raw z H) as [E|[E|[E|(E & V & _)]]].
  - left. exact E.
  - right. left. exact E.
  - right. right. left. exact E.
  - right. right. right. split; assumption.
Qed.

Lemma parseZone_result_shapes_witness :
  parseZone utcHost (js " +0530 ") = Some (Fixed 330 (js "UTC+05:30"))
  /\ (Fixed 330 (js "UTC+05:30")
      = Iana (localTimeZone utcHost) (Some (js "Local"))
      \/ Fixed 330 (js "UTC+05:30") = Fixed 0 (js "UTC")
      \/ (exists o, -1439 <= o <= 1439
                    /\ Fixed 330 (js "UTC+05:30")
                       = Fixed o (js "UTC" ++ offsetText o))
      \/ (Fixed 330 (js "UTC+05:30") = Iana (trim (js " +0530 ")) None
          /\ tzValid utcHost (trim (js " +0530 ")) = true)).
Proof.
  split; [reflexivity|].
  exact (parseZone_result_shapes utcHost (js " +0530 ")
           (Fixed 330 (js "UTC+05:30")) eq_refl).
Defined.

(** X15.  The display name of any zone [parseZone] returns is itself a
    specifier of that zone: resolving it gives the same zone back, offset,
    name and label. *)
Theorem parseZone_display_name_round_trip :
  forall host raw z,
    parseZone host raw = Some z ->
    parseZone host (zoneDisplayName z) = Some z.
Proof. exact parseZone_displayName. Qed.

Lemma parseZone_display_name_round_trip_witness :
  parseZone utcHost (js "etc/gmt+7") = Some (Fixed (-420) (js "UTC-07:00"))
  /\ parseZone utcHost (zoneDisplayName (Fixed (-420) (js "UTC-07:00")))
     = Some (Fixed (-420) (js "UTC-07:00")).
Proof.
  split; [reflexivity|].
  exact (parseZone_display_name_round_trip utcHost (js "etc/gmt+7")
           (Fixed (-420) (js "UTC-07:00")) eq_refl).
Defined.

(* ================================================================== *)
(** ** Properties of the compact and the slash forms *)
(* ================================================================== *)

(** X16.  The three absolute forms of [parseNumeric]: four digits starting
    with 2 are the first of January of that year, eight are year, month and
    day, fourteen are year, month, day, hour, minute and second, all in the
    source zone.  Such a text is never read as an epoch: when its fields are
    no valid date and time, the parser declines. *)
Theorem parseNumeric_absolute_forms :
  forall host y z,
    2000 <= y <= 2999 ->
    parseNumeric host (fourDigits y) z
    = buildDateFromComponents host (dateOnly y 1 1) z
    /\ (forall m d,
          0 <= m <= 99 -> 0 <= d <= 99 ->
          parseNumeric host (fourDigits y ++ twoDigits m ++ twoDigits d) z
          = buildDateFromComponents host (dateOnly y m d) z
          /\ (isValidCalendarDate y m d = false ->
              parseNumeric host (fourDigits y ++ twoDigits m ++ twoDigits d) z
              = Ok None)
          /\ forall h mi s,
               0 <= h <= 99 -> 0 <= mi <= 99 -> 0 <= s <= 99 ->
               parseNumeric host
                 (fourDigits y ++ twoDigits m ++ twoDigits d ++ twoDigits h
                  ++ twoDigits mi ++ twoDigits s) z
               = buildDateFromComponents host
                   (mkComponents y m d (Some h) (Some mi) (Some s) (Some 0)) z
               /\ (isValidCalendarDate y m d = false \/ 23 < h \/ 59 < mi
                   \/ 59 < s ->
                   parseNumeric host
                     (fourDigits y ++ twoDigits m ++ twoDigits d
                      ++ twoDigits h ++ twoDigits mi ++ twoDigits s) z
                   = Ok None)).
Proof.
  intros host y z Hy. split; [apply parseNumeric_year, Hy|].
  intros m d Hm Hd. split; [apply parseNumeric_date; assumption|]. split.
  - intros V. rewrite parseNumeric_date by assumption.
    unfold buildDateFromComponents. cbn [year month day dateOnly].
    rewrite V. reflexivity.
  - intros h mi s Hh Hmi Hs.
    split; [apply parseNumeric_dateTime; assumption|].
    intros Hbad. rewrite parseNumeric_dateTime by assumption.
    unfold buildDateFromComponents.
    cbn [year month day hour minute second millisecond orZero].
    destruct (isValidCalendarDate y m d); [|reflexivity]. cbn [negb].
    destruct Hbad as [Hb|[Hb|[Hb|Hb]]]; [discriminate| | |].
    + destruct (Z.ltb_spec h 0); [reflexivity|].
      destruct (Z.gtb_spec h 23); [reflexivity|lia].
    + destruct (Z.ltb_spec h 0); [reflexivity|].
      destruct (Z.gtb_spec h 23); [reflexivity|].
      destruct (Z.ltb_spec mi 0); [reflexivity|].
      destruct (Z.gtb_spec mi 59); [reflexivity|lia].
    + destruct (Z.ltb_spec h 0); [reflexivity|].
      destruct (Z.gtb_spec h 23); [reflexivity|].
      destruct (Z.ltb_spec mi 0); [reflexivity|].
      destruct (Z.gtb_spec mi 59); [reflexivity|].
      destruct (Z.ltb_spec s 0); [reflexivity|].
      destruct (Z.gtb_spec s 59); [reflexivity|lia].
Qed.

Lemma parseNumeric_absolute_forms_witness :
  2000 <= 2019 <= 2999 /\ 0 <= 13 <= 99 /\ 0 <= 1 <= 99
  /\ fourDigits 2019 ++ twoDigits 13 ++ twoDigits 1 = js "20191301"
  /\ isValidCalendarDate 2019 13 1 = false
  /\ parseNumeric utcHost (fourDigits 2019 ++ twoDigits 13 ++ twoDigits 1)
       utcZone = Ok None.
Proof.
  split; [lia|]. split; [lia|]. split; [lia|]. split; [reflexivity|].
  split; [reflexivity|].
  exact (proj1 (proj2 (proj2 (parseNumeric_absolute_forms utcHost 2019 utcZone
                                ltac:(lia))
                               13 1 ltac:(lia) ltac:(lia)))
               eq_refl).
Defined.

(** X17.  A bare A/B/C with a four-digit group has one reading only: year
    first when A has four digits, and otherwise, when C has four digits,
    month / day / year; there is no day-first reading ("31/12/2019" is
    declined).  With a three-digit A or C and no four-digit group, the text
    is declined. *)
Theorem parseSlashDate_four_digit_year :
  forall host A B C z,
    A <> [] -> (length A <= 4)%nat -> forallb isDigit A = true ->
    B <> [] -> (length B <= 2)%nat -> forallb isDigit B = true ->
    C <> [] -> (length C <= 4)%nat -> forallb isDigit C = true ->
    let a := numberOfDigits A in
    let b := numberOfDigits B in
    let c := numberOfDigits C in
    (length A = 4%nat ->
     parseSlashDate host (A ++ 47 :: B ++ 47 :: C) z
     = if isValidCalendarDate a b c then midnight host z a b c else Ok None)
    /\ (length A <> 4%nat -> length C = 4%nat ->
        parseSlashDate host (A ++ 47 :: B ++ 47 :: C) z
        = if isValidCalendarDate c a b then midnight host z c a b
          else Ok None)
    /\ (length A <> 4%nat -> length C <> 4%nat ->
        length A = 3%nat \/ length C = 3%nat ->
        parseSlashDate host (A ++ 47 :: B ++ 47 :: C) z = Ok None).
Proof. exact parseSlashDate_years. Qed.

Lemma parseSlashDate_four_digit_year_witness :
  js "31" <> [] /\ (length (js "31") <= 4)%nat
  /\ forallb isDigit (js "31") = true
  /\ js "12" <> [] /\ (length (js "12") <= 2)%nat
  /\ forallb isDigit (js "12") = true
  /\ js "2019" <> [] /\ (length (js "2019") <= 4)%nat
  /\ forallb isDigit (js "2019") = true
  /\ length (js "31") <> 4%nat /\ length (js "2019") = 4%nat
  /\ parseSlashDate utcHost (js "31" ++ 47 :: js "12" ++ 47 :: js "2019")
       utcZone
     = (if isValidCalendarDate (numberOfDigits (js "2019"))
             (numberOfDigits (js "31")) (numberOfDigits (js "12"))
        then midnight utcHost utcZone (numberOfDigits (js "2019"))
               (numberOfDigits (js "31")) (numberOfDigits (js "12"))
        else Ok None)
  /\ isValidCalendarDate (numberOfDigits (js "2019"))
       (numberOfDigits (js "31")) (numberOfDigits (js "12")) = false.
Proof.
  split; [discriminate|]. split; [cbn; lia|]. split; [reflexivity|].
  split; [discriminate|]. split; [cbn; lia|]. split; [reflexivity|].
  split; [discriminate|]. split; [cbn; lia|]. split; [reflexivity|].
  split; [cbn; lia|]. split; [reflexivity|]. split; [|reflexivity].
  apply (proj1 (proj2 (parseSlashDate_four_digit_year utcHost (js "31")
                         (js "12") (js "2019") utcZone
                         ltac:(discriminate) ltac:(cbn; lia) eq_refl
                         ltac:(discriminate) ltac:(cbn; lia) eq_refl
                         ltac:(discriminate) ltac:(cbn; lia) eq_refl)));
    [cbn; lia|reflexivity].
Defined.

(* ================================================================== *)
(** ** Properties of the output zones and of the command *)
(* ================================================================== *)

(** X18.  [parseOutputZones] never returns an empty list: with
    [includeLocal] the host's own zone, labelled "Local", comes first; and
    when nothing at all resolves, UTC alone is returned. *)
Theorem parseOutputZones_never_empty :
  forall host rawList,
    (forall includeLocal, parseOutputZones host rawList includeLocal <> [])
    /\ (exists more,
          parseOutputZones host rawList true
          = Iana (localTimeZone host) (Some (js "Local")) :: more)
    /\ ((forall entry, In entry (outputEntries rawList) ->
                       parseZone host entry = None) ->
        parseOutputZones host rawList false = [Fixed 0 (js "UTC")]).
Proof.
  intros host rawList. split; [|split].
  - intros b. apply parseOutputZones_nonempty.
  - apply parseOutputZones_local_first.
  - intros Hnone.
    destruct (parseOutputZones host rawList false) as [|z zs] eqn:E.
    { exfalso. exact (parseOutputZones_nonempty host rawList false E). }
    assert (Hz : forall x, In x (z :: zs) -> x = Fixed 0 (js "UTC")
                           /\ z :: zs = [x]).
    { intros x Hx. rewrite <- E in Hx.
      apply parseOutputZones_sound in Hx.
      destruct Hx as [[Hb _]|[(e & He & Hp)|[Hu Hs]]].
      - discriminate.
      - rewrite (Hnone e He) in Hp. discriminate.
      - rewrite E in Hs. split; assumption. }
    destruct (Hz z (or_introl eq_refl)) as [-> Hs]. exact Hs.
Qed.

Lemma parseOutputZones_never_empty_witness :
  (forall entry, In entry (outputEntries (Some (js "nowhere,, mars ")))
                 -> parseZone utcHost entry = None)
  /\ parseOutputZones utcHost (Some (js "nowhere,, mars ")) false
     = [Fixed 0 (js "UTC")].
Proof.
  assert (H : forall entry,
            In entry (outputEntries (Some (js "nowhere,, mars ")))
            -> parseZone utcHost entry = None).
  { assert (E : outputEntries (Some (js "nowhere,, mars "))
                = [js "nowhere"; js "mars"]) by (vm_compute; reflexivity).
    rewrite E. intros entry [<-|[<-|[]]]; vm_compute; reflexivity. }
  split; [exact H|].
  exact (proj2 (proj2 (parseOutputZones_never_empty utcHost
                         (Some (js "nowhere,, mars ")))) H).
Defined.

(** X19.  No two zones of [parseOutputZones] have the same key: later
    entries that resolve to an offset or to a zone name already listed are
    dropped, so no fixed offset and no zone name occurs twice (the host's own
    zone, listed as "Local", hides a later entry that names it). *)
Theorem parseOutputZones_no_duplicates :
  forall host rawList includeLocal,
    NoDup (map zoneKey (parseOutputZones host rawList includeLocal))
    /\ forall pre z1 mid z2 post,
         parseOutputZones host rawList includeLocal
         = pre ++ z1 :: mid ++ z2 :: post ->
         match z1, z2 with
         | Fixed o1 _, Fixed o2 _ => o1 <> o2
         | Iana n1 _, Iana n2 _ => n1 <> n2
         | _, _ => True
         end.
Proof.
  intros host rawList includeLocal.
  pose proof (parseOutputZones_keys host rawList includeLocal) as H.
  split; [exact H|].
  intros pre z1 mid z2 post E. rewrite E in H.
  rewrite map_app in H. apply NoDup_app_remove_l in H.
  cbn [map] in H. apply NoDup_cons_iff in H. destruct H as [Hn _].
  assert (Hk : zoneKey z1 <> zoneKey z2).
  { intros Hk. apply Hn. rewrite Hk, map_app. apply in_app_iff. right.
    left. reflexivity. }
  destruct z1 as [n1 l1|o1 l1], z2 as [n2 l2|o2 l2]; try exact I;
    intros ->; apply Hk; reflexivity.
Qed.

Lemma parseOutputZones_no_duplicates_witness :
  parseOutputZones utcHost (Some (js "utc+8, +08:00 ,UTC, z, Etc/GMT-8")) true
  = [] ++ Iana (js "UTC") (Some (js "Local"))
       :: [Fixed 480 (js "UTC+08:00")] ++ Fixed 0 (js "UTC") :: []
  /\ match Iana (js "UTC") (Some (js "Local")), Fixed 0 (js "UTC") with
     | Fixed o1 _, Fixed o2 _ => o1 <> o2
     | Iana n1 _, Iana n2 _ => n1 <> n2
     | _, _ => True
     end.
Proof.
  assert (E : parseOutputZones utcHost
                (Some (js "utc+8, +08:00 ,UTC, z, Etc/GMT-8")) true
              = [] ++ Iana (js "UTC") (Some (js "Local"))
                   :: [Fixed 480 (js "UTC+08:00")] ++ Fixed 0 (js "UTC") :: [])
    by (vm_compute; reflexivity).
  split; [exact E|].
  exact (proj2 (parseOutputZones_no_duplicates utcHost
                  (Some (js "utc+8, +08:00 ,UTC, z, Etc/GMT-8")) true)
               [] (Iana (js "UTC") (Some (js "Local")))
               [Fixed 480 (js "UTC+08:00")] (Fixed 0 (js "UTC")) [] E).
Defined.

(** X20.  The zones of [parseOutputZones] are those of the entries: every
    zone listed is the host's own zone (with [includeLocal]), or the zone an
    entry of the comma-separated preference resolves to, or the UTC
    fallback of an otherwise empty list; and every entry that resolves is
    represented by a listed zone of the same kind with its offset, or its
    name. *)
Theorem parseOutputZones_from_entries :
  forall host rawList includeLocal,
    (forall z,
        In z (parseOutputZones host rawList includeLocal) ->
        (includeLocal = true
         /\ z = Iana (localTimeZone host) (Some (js "Local")))
        \/ (exists entry, In entry (outputEntries rawList)
                          /\ parseZone host entry = Some z)
        \/ (z = Fixed 0 (js "UTC")
            /\ parseOutputZones host rawList includeLocal = [z]))
    /\ (forall entry z,
          In entry (outputEntries rawList) ->
          parseZone host entry = Some z ->
          exists z', In z' (parseOutputZones host rawList includeLocal)
                     /\ sameZone z' z).
Proof.
  intros host rawList includeLocal. split.
  - intros z Hz. apply parseOutputZones_sound, Hz.
  - intros entry z Hin Hp.
    exact (pushAll_complete_same host rawList includeLocal entry z Hin Hp).
Qed.

Lemma parseOutputZones_from_entries_witness :
  In (js "+08:00") (outputEntries (Some (js "utc+8, +08:00 ,UTC")))
  /\ parseZone utcHost (js "+08:00") = Some (Fixed 480 (js "UTC+08:00"))
  /\ exists z',
       In z' (parseOutputZones utcHost (Some (js "utc+8, +08:00 ,UTC")) false)
       /\ sameZone z' (Fixed 480 (js "UTC+08:00")).
Proof.
  assert (Hin : In (js "+08:00")
                   (outputEntries (Some (js "utc+8, +08:00 ,UTC"))))
    by (vm_compute; right; left; reflexivity).
  assert (Hp : parseZone utcHost (js "+08:00")
               = Some (Fixed 480 (js "UTC+08:00")))
    by (vm_compute; reflexivity).
  split; [exact Hin|]. split; [exact Hp|].
  exact (proj2 (parseOutputZones_from_entries utcHost
                  (Some (js "utc+8, +08:00 ,UTC")) false)
               (js "+08:00") (Fixed 480 (js "UTC+08:00")) Hin Hp).
Defined.

(** X21.  A Success of [parseDateInput] carries a valid Date, never NaN; its
    text is the non-empty text left by the zone-suffix split, its zone that
    split's zone, its label that zone's display name; and its pattern is the
    label of a parser of the pipeline for that text, which returned that
    Date. *)
Theorem parseDateInput_success_invariant :
  forall host raw dz input z lbl d pat,
    parseDateInput host raw dz = Ok (ParseSuccess input z lbl d pat) ->
    input = fst (splitInputAndZone host raw dz)
    /\ z = snd (splitInputAndZone host raw dz)
    /\ input <> [] /\ lbl = zoneDisplayName z /\ isNaNDate d = false
    /\ exists parser : ParserFn,
         In (pat, parser) (parserPipeline host (detectState input))
         /\ parser input z = Ok (Some d).
Proof. exact parseDateInput_success. Qed.

Lemma parseDateInput_success_invariant_witness :
  parseDateInput utcHost (js "2024/01/12 8:30 PM, utc+8") utcZone
  = Ok (ParseSuccess (js "2024/01/12 8:30 PM") (Fixed 480 (js "UTC+08:00"))
          (js "UTC+08:00") (mkDate (Some 1705062600000)) (js "slash"))
  /\ isNaNDate (mkDate (Some 1705062600000)) = false.
Proof.
  assert (E : parseDateInput utcHost (js "2024/01/12 8:30 PM, utc+8") utcZone
              = Ok (ParseSuccess (js "2024/01/12 8:30 PM")
                      (Fixed 480 (js "UTC+08:00")) (js "UTC+08:00")
                      (mkDate (Some 1705062600000)) (js "slash")))
    by (vm_compute; reflexivity).
  split; [exact E|].
  exact (proj1 (proj2 (proj2 (proj2 (proj2
           (parseDateInput_success_invariant utcHost
              (js "2024/01/12 8:30 PM, utc+8") utcZone _ _ _ _ _ E)))))).
Defined.

(** X22.  The text left by the zone-suffix split is empty exactly when the
    raw input is blank: a split never leaves an empty text.  So the usage
    hint of [parseDateInput] is returned exactly when the command's
    [hasInput] is false. *)
Theorem empty_input_iff_blank :
  forall host raw dz,
    (fst (splitInputAndZone host raw dz) = [] <-> trim raw = [])
    /\ (hasInput raw = false <-> trim raw = [])
    /\ (hasInput raw = false <->
        parseDateInput host raw dz
        = Ok (ParseFailure [] dz (zoneDisplayName dz) emptyInputError)).
Proof.
  intros host raw dz.
  pose proof (splitInputAndZone_empty host raw dz) as S.
  pose proof (hasInput_trim raw) as Hh.
  split; [exact S|]. split; [exact Hh|].
  rewrite Hh. split.
  - intros E. unfold parseDateInput, splitInputAndZone. rewrite E.
    reflexivity.
  - intros E. apply S. rewrite parseDateInput_eq in E. cbv zeta in E.
    destruct (fst (splitInputAndZone host raw dz)) as [|c t]; [reflexivity|].
    destruct (firstMatch _ (c :: t) _) as [[[l d]|]|]; cbn [bind] in E;
      discriminate.
Qed.

(** X23.  On a host that knows its own zone and reports sane fields, the
    command cannot raise: whatever the preferences and the search text, the
    default source zone is well formed, [parseDateInput] returns a result,
    and for a Success every output zone is formatted, one row per zone,
    titled by the zone's display name. *)
Theorem command_never_throws :
  forall host preferences searchText,
    hostOk host ->
    zoneOk host (defaultSourceZone host preferences)
    /\ exists r,
         parseDateInput host searchText (defaultSourceZone host preferences)
         = Ok r
         /\ forall input z lbl d pat,
              r = ParseSuccess input z lbl d pat ->
              exists rows,
                zoneRows host d
                  (parseOutputZones host (outputZones preferences) true)
                = Ok rows
                /\ map rowTitle rows
                   = map zoneDisplayName
                       (parseOutputZones host (outputZones preferences) true).
Proof.
  intros host preferences searchText Hh.
  pose proof (defaultSourceZone_ok host preferences Hh) as Hz.
  split; [exact Hz|].
  destruct (parseDateInput_ok host searchText _ Hh Hz) as (r & E).
  exists r. split; [exact E|].
  intros input z lbl d pat ->.
  destruct (parseDateInput_success _ _ _ _ _ _ _ _ E)
    as (_ & _ & _ & _ & Hv & _).
  destruct d as [[t|]]; [|discriminate].
  apply zoneRows_ok, parseOutputZones_ok, Hh.
Qed.

Lemma command_never_throws_witness :
  hostOk utcHost
  /\ exists r,
       parseDateInput utcHost (js "1548854618000")
         (defaultSourceZone utcHost
            (mkPreferences (Some (js "Mars/Base")) (Some (js "gmt-7"))))
       = Ok r.
Proof.
  split; [exact utcHost_ok|].
  destruct (proj2 (command_never_throws utcHost
                     (mkPreferences (Some (js "Mars/Base")) (Some (js "gmt-7")))
                     (js "1548854618000") utcHost_ok)) as (r & E & _).
  exists r. exact E.
Defined.

(** X24.  No two rows of the "Time Zones" section have the same title: the
    zones of [parseOutputZones] have pairwise distinct display names, each
    being the zone its own display name resolves to. *)
Theorem output_rows_distinct_titles :
  forall host rawList includeLocal d rows,
    zoneRows host d (parseOutputZones host rawList includeLocal) = Ok rows ->
    NoDup (map rowTitle rows)
    /\ map rowTitle rows
       = map zoneDisplayName (parseOutputZones host rawList includeLocal)
    /\ forall z, In z (parseOutputZones host rawList includeLocal) ->
                 parseZone host (zoneDisplayName z) = Some z.
Proof.
  intros host rawList includeLocal d rows H.
  pose proof (zoneRows_titles host d _ rows H) as T.
  split; [|split].
  - rewrite T. apply parseOutputZones_titles.
  - exact T.
  - intros z. apply parseOutputZones_known.
Qed.

Lemma output_rows_distinct_titles_witness :
  zoneRows utcHost (mkDate (Some 1548854618000))
    (parseOutputZones utcHost (Some (js "utc+8, +08:00 ,UTC, gmt")) true)
  = Ok [mkRow (js "Local:2019-01-30T13:23:38 +00:00 UTC") (js "Local")
              (js "2019-01-30T13:23:38 +00:00 UTC");
        mkRow (js "UTC+08:00:2019-01-30T21:23:38 +08:00 UTC+08:00")
              (js "UTC+08:00") (js "2019-01-30T21:23:38 +08:00 UTC+08:00");
        mkRow (js "UTC:2019-01-30T13:23:38 +00:00 UTC") (js "UTC")
              (js "2019-01-30T13:23:38 +00:00 UTC")]
  /\ NoDup [js "Local"; js "UTC+08:00"; js "UTC"].
Proof.
  assert (E : zoneRows utcHost (mkDate (Some 1548854618000))
                (parseOutputZones utcHost
                   (Some (js "utc+8, +08:00 ,UTC, gmt")) true)
              = Ok [mkRow (js "Local:2019-01-30T13:23:38 +00:00 UTC")
                          (js "Local") (js "2019-01-30T13:23:38 +00:00 UTC");
                    mkRow (js "UTC+08:00:2019-01-30T21:23:38 +08:00 UTC+08:00")
                          (js "UTC+08:00")
                          (js "2019-01-30T21:23:38 +08:00 UTC+08:00");
                    mkRow (js "UTC:2019-01-30T13:23:38 +00:00 UTC") (js "UTC")
                          (js "2019-01-30T13:23:38 +00:00 UTC")])
    by (vm_compute; reflexivity).
  split; [exact E|].
  exact (proj1 (output_rows_distinct_titles utcHost
                  (Some (js "utc+8, +08:00 ,UTC, gmt")) true _ _ E)).
Defined.

(* ================================================================== *)
(** ** Properties of the state machine *)
(* ================================================================== *)

(** X25.  Each structured parser reads texts of its own state only: on a
    trimmed text that [parseNumeric] reads, [detectState] is Digit; for
    [parseDashDate] it is DigitDash, for [parseSlashDate] DigitSlash, for
    [parseChineseDate] and [parseDayMonthName] DigitAlpha, for
    [parseMonthNameDate] and [parseAnsiStyle] Alpha.  So a parser of any
    pipeline that reads a text is in the pipeline chosen for that text. *)
Theorem parsers_read_their_own_state :
  forall host input z d,
    trim input = input ->
    (parseNumeric host input z = Ok (Some d) -> detectState input = Digit)
    /\ (parseDashDate host input z = Ok (Some d) ->
        detectState input = DigitDash)
    /\ (parseSlashDate host input z = Ok (Some d) ->
        detectState input = DigitSlash)
    /\ (parseChineseDate host input z = Ok (Some d) ->
        detectState input = DigitAlpha)
    /\ (parseDayMonthName host input z = Ok (Some d) ->
        detectState input = DigitAlpha)
    /\ (parseMonthNameDate host input z = Ok (Some d) ->
        detectState input = Alpha)
    /\ (parseAnsiStyle host input z = Ok (Some d) ->
        detectState input = Alpha)
    /\ forall st label (parser : ParserFn),
         In (label, parser) (parserPipeline host st) ->
         parser input z = Ok (Some d) ->
         In (label, parser) (parserPipeline host (detectState input)).
Proof.
  intros host input z d Ht.
  split; [exact (parseNumeric_state host input z d Ht)|].
  split; [exact (parseDashDate_state host input z d Ht)|].
  split; [exact (parseSlashDate_state host input z d Ht)|].
  split; [exact (parseChineseDate_state host input z d Ht)|].
  split; [exact (parseDayMonthName_state host input z d Ht)|].
  split; [exact (parseMonthNameDate_state host input z d Ht)|].
  split; [exact (parseAnsiStyle_state host input z d Ht)|].
  exact (pipeline_keeps host input z d Ht).
Qed.

Lemma parsers_read_their_own_state_witness :
  trim (js "30 Jan 2019, 21:24") = js "30 Jan 2019, 21:24"
  /\ parseDayMonthName utcHost (js "30 Jan 2019, 21:24") utcZone
     = Ok (Some (mkDate (Some 1548883440000)))
  /\ detectState (js "30 Jan 2019, 21:24") = DigitAlpha.
Proof.
  assert (T : trim (js "30 Jan 2019, 21:24") = js "30 Jan 2019, 21:24")
    by (vm_compute; reflexivity).
  assert (E : parseDayMonthName utcHost (js "30 Jan 2019, 21:24") utcZone
              = Ok (Some (mkDate (Some 1548883440000))))
    by (vm_compute; reflexivity).
  split; [exact T|]. split; [exact E|].
  exact (proj1 (proj2 (proj2 (proj2 (proj2
           (parsers_read_their_own_state utcHost (js "30 Jan 2019, 21:24")
              utcZone (mkDate (Some 1548883440000)) T))))) E).
Defined.

(** X26.  The state machine loses no parse: on a sane host, when any
    parser of any pipeline returns a valid Date for the non-empty text left
    by the zone-suffix split, [parseDateInput] is a Success for that text
    and zone. *)
Theorem parseDateInput_loses_no_parse :
  forall host raw dz st label (parser : ParserFn) d,
    hostOk host -> zoneOk host dz ->
    fst (splitInputAndZone host raw dz) <> [] ->
    In (label, parser) (parserPipeline host st) ->
    parser (fst (splitInputAndZone host raw dz))
           (snd (splitInputAndZone host raw dz)) = Ok (Some d) ->
    isNaNDate d = false ->
    exists pat d',
      parseDateInput host raw dz
      = Ok (ParseSuccess (fst (splitInputAndZone host raw dz))
              (snd (splitInputAndZone host raw dz))
              (zoneDisplayName (snd (splitInputAndZone host raw dz))) d' pat).
Proof.
  intros host raw dz st label parser d Hh Hz Hne Hin Hp Hv.
  exact (parseDateInput_keeps host raw dz st label parser d Hh Hz Hne Hin Hp
           Hv).
Qed.

Lemma parseDateInput_loses_no_parse_witness :
  hostOk utcHost /\ zoneOk utcHost utcZone
  /\ splitInputAndZone utcHost (js " Jan 30, 2019 ,gmt+8") utcZone
     = (js "Jan 30, 2019", Fixed 480 (js "UTC+08:00"))
  /\ parseMonthNameDate utcHost (js "Jan 30, 2019")
       (Fixed 480 (js "UTC+08:00"))
     = Ok (Some (mkDate (Some 1548777600000)))
  /\ exists pat d',
       parseDateInput utcHost (js " Jan 30, 2019 ,gmt+8") utcZone
       = Ok (ParseSuccess (js "Jan 30, 2019") (Fixed 480 (js "UTC+08:00"))
               (js "UTC+08:00") d' pat).
Proof.
  assert (S : splitInputAndZone utcHost (js " Jan 30, 2019 ,gmt+8") utcZone
              = (js "Jan 30, 2019", Fixed 480 (js "UTC+08:00")))
    by (vm_compute; reflexivity).
  assert (E : parseMonthNameDate utcHost (js "Jan 30, 2019")
                (Fixed 480 (js "UTC+08:00"))
              = Ok (Some (mkDate (Some 1548777600000))))
    by (vm_compute; reflexivity).
  split; [exact utcHost_ok|]. split; [exact I|]. split; [exact S|].
  split; [exact E|].
  pose proof (parseDateInput_loses_no_parse utcHost
                (js " Jan 30, 2019 ,gmt+8") utcZone Alpha (js "month-name")
                (parseMonthNameDate utcHost) (mkDate (Some 1548777600000))
                utcHost_ok I) as T.
  rewrite S in T. cbn [fst snd zoneDisplayName] in T.
  apply T; [discriminate|cbn [parserPipeline app In]; tauto|exact E
           |reflexivity].
Defined.

(* ================================================================== *)
(** ** End-to-end properties of [parseDateInput] *)
(* ================================================================== *)



(** X28.  The host's own [Date.parse] decides a result only for a text that
    carries a zone of its own, or when the source zone is the host's zone: a
    Success labelled "native" implies one of the two, and its Date is what
    [Date.parse] returns for the normalized text.  With a fixed source zone,
    a zone-less text is never read by [Date.parse]. *)
Theorem native_needs_a_zone :
  forall host raw dz input z lbl d,
    parseDateInput host raw dz
    = Ok (ParseSuccess input z lbl d (js "native")) ->
    (hasExplicitTimeZone input = true
     \/ exists l, z = Iana (localTimeZone host) l)
    /\ exists timestamp,
         dateParse host (normalizeNativeInput input) = Some timestamp
         /\ d = mkDate (Some timestamp).
Proof.
  intros host raw dz input z lbl d H.
  exact (parseDateInput_native host raw dz input z lbl d H).
Qed.

Lemma native_needs_a_zone_witness :
  parseDateInput rfcHost (js "Wed,  30 Jan 2019 13:23:38 GMT")
    (Fixed 480 (js "UTC+08:00"))
  = Ok (ParseSuccess (js "Wed,  30 Jan 2019 13:23:38 GMT")
          (Fixed 480 (js "UTC+08:00")) (js "UTC+08:00")
          (mkDate (Some 1548854618000)) (js "native"))
  /\ hasExplicitTimeZone (js "Wed,  30 Jan 2019 13:23:38 GMT") = true.
Proof.
  assert (E : parseDateInput rfcHost (js "Wed,  30 Jan 2019 13:23:38 GMT")
                (Fixed 480 (js "UTC+08:00"))
              = Ok (ParseSuccess (js "Wed,  30 Jan 2019 13:23:38 GMT")
                      (Fixed 480 (js "UTC+08:00")) (js "UTC+08:00")
                      (mkDate (Some 1548854618000)) (js "native")))
    by (vm_compute; reflexivity).
  split; [exact E|].
  destruct (proj1 (native_needs_a_zone rfcHost _ _ _ _ _ _ E))
    as [X|(l & Z)]; [exact X|discriminate Z].
Defined.

(** X29.  White space around the raw input is not seen: padding the input
    with white space on either side changes nothing in the result of
    [parseDateInput]. *)
Theorem parseDateInput_ignores_padding :
  forall host sp1 raw sp2 dz,
    forallb isSpace sp1 = true -> forallb isSpace sp2 = true ->
    parseDateInput host (sp1 ++ raw ++ sp2) dz = parseDateInput host raw dz.
Proof.
  intros host sp1 raw sp2 dz H1 H2.
  exact (parseDateInput_padded host sp1 raw sp2 dz H1 H2).
Qed.

Lemma parseDateInput_ignores_padding_witness :
  parseDateInput utcHost ([32; 9] ++ js "2019-01-30, gmt+8" ++ [10; 160])
    utcZone
  = parseDateInput utcHost (js "2019-01-30, gmt+8") utcZone.
Proof.
  exact (parseDateInput_ignores_padding utcHost [32; 9]
           (js "2019-01-30, gmt+8") [10; 160] utcZone eq_refl eq_refl).
Defined.
